(** * Multi-store WooCommerce dashboard: registry, health monitor, aggregator

    Shallow embedding of
      - [services/woocommerce.ts]  (class [WooCommerceService]),
      - [components/AllOrders.tsx] ([fetchOrders]),
      - [components/AllProducts.tsx] ([fetchProducts]),
      - [components/StoreSelector.tsx] ([handleCheckboxChange]),
      - [components/Coupons.tsx] ([fetchCoupons]),
      - [components/CreateCouponModal.tsx] ([handleSubmit], the expiry field),
      - [components/ProductDetails.tsx] ([getProductUrl], [isOnSale]).

    Conventions of the embedding.
      - [localStorage] holds one item under [STORAGE_KEY]; it is modelled
        as [option (list WooCommerceServer)] ([None]: the key is absent).
        [JSON.parse (JSON.stringify l)] is the identity on the record type
        below: an optional field that is [undefined] is dropped by
        [stringify] and read back as [undefined], which is [None] here.
      - Observers are JavaScript functions compared by reference; they are
        modelled by natural numbers.  What a function of the service does
        to the outside (a [setItem], a call of an observer) is appended to
        the [trace] of the world.
      - [await]ed HTTP requests are answered by the environment: an oracle
        gives the outcome of every request.
      - [crypto.randomUUID()], [Date.now()] and [new Date().toISOString()]
        are inputs supplied by the environment. *)

From Stdlib Require Import List Bool Arith ZArith Lia String DecimalString.
From Equations Require Import Equations.
Import ListNotations.

(* ===================================================================== *)
(** * JavaScript helpers                                                   *)
(* ===================================================================== *)

(** [s.includes(sub)] *)
Fixpoint includes (s sub : string) : bool :=
  String.prefix sub s ||
  match s with
  | EmptyString => false
  | String _ s' => includes s' sub
  end.

(** Rendering of a non-negative integer inside a template literal. *)
Definition showNat (n : nat) : string :=
  NilEmpty.string_of_uint (Nat.to_uint n).

(** [s.endsWith(suffix)] *)
Definition endsWith (s suffix : string) : bool :=
  let n := String.length s in
  let k := String.length suffix in
  (k <=? n) && String.eqb (String.substring (n - k) k s) suffix.

(** [l.findIndex(p)]; JavaScript's [-1] is [None]. *)
Fixpoint findIndex {A} (p : A -> bool) (l : list A) : option nat :=
  match l with
  | [] => None
  | x :: l' => if p x then Some 0 else option_map S (findIndex p l')
  end.

(** [l[i] = v] for an index inside the array. *)
Fixpoint setAt {A} (i : nat) (v : A) (l : list A) : list A :=
  match l, i with
  | [], _ => []
  | _ :: l', 0 => v :: l'
  | x :: l', S i' => x :: setAt i' v l'
  end.

(** [l.map((x, index) => f(index, x))], indices counted from [start]. *)
Fixpoint mapiFrom {A B} (start : nat) (f : nat -> A -> B) (l : list A) : list B :=
  match l with
  | [] => []
  | x :: l' => f start x :: mapiFrom (S start) f l'
  end.

Definition mapi {A B} (f : nat -> A -> B) (l : list A) : list B :=
  mapiFrom 0 f l.

(** [a === b] on values that may be [undefined]. *)
Definition optEqb {A} (eqb : A -> A -> bool) (a b : option A) : bool :=
  match a, b with
  | Some x, Some y => eqb x y
  | None, None => true
  | _, _ => false
  end.

(* ===================================================================== *)
(** * Data model: [WooCommerceServer]                                      *)
(* ===================================================================== *)

Inductive Status : Type := online | offline | error.

Definition Status_eqb (a b : Status) : bool :=
  match a, b with
  | online, online | offline, offline | error, error => true
  | _, _ => false
  end.

Module Server.
Record t : Type := mk {
  id : string;
  name : string;
  url : string;
  consumerKey : string;
  consumerSecret : string;
  isActive : bool;
  lastChecked : option string;
  status : option Status;
  errorMessage : option string;
  responseTime : option Z
}.
End Server.

Abbreviation WooCommerceServer := Server.t.

(** [Omit<WooCommerceServer, 'id' | 'isActive' | 'status'>] *)
Module NewServer.
Record t : Type := mk {
  name : string;
  url : string;
  consumerKey : string;
  consumerSecret : string;
  lastChecked : option string;
  errorMessage : option string;
  responseTime : option Z
}.
End NewServer.

(** [Partial<WooCommerceServer>]: a property is either absent ([None]) or
    present with a value; an optional property may be present with the
    value [undefined] ([Some None]). *)
Module Updates.
Record t : Type := mk {
  id : option string;
  name : option string;
  url : option string;
  consumerKey : option string;
  consumerSecret : option string;
  isActive : option bool;
  lastChecked : option (option string);
  status : option (option Status);
  errorMessage : option (option string);
  responseTime : option (option Z)
}.
Definition none : t := mk None None None None None None None None None None.
End Updates.

(** One property of the object spread [{ ...old, ...updates }]. *)
Definition spread {A} (old : A) (upd : option A) : A :=
  match upd with
  | Some v => v
  | None => old
  end.

(** [{ ...server, ...updates }] *)
Definition applyUpdates (s : WooCommerceServer) (u : Updates.t) : WooCommerceServer :=
  {| Server.id := spread (Server.id s) (Updates.id u);
     Server.name := spread (Server.name s) (Updates.name u);
     Server.url := spread (Server.url s) (Updates.url u);
     Server.consumerKey := spread (Server.consumerKey s) (Updates.consumerKey u);
     Server.consumerSecret := spread (Server.consumerSecret s) (Updates.consumerSecret u);
     Server.isActive := spread (Server.isActive s) (Updates.isActive u);
     Server.lastChecked := spread (Server.lastChecked s) (Updates.lastChecked u);
     Server.status := spread (Server.status s) (Updates.status u);
     Server.errorMessage := spread (Server.errorMessage s) (Updates.errorMessage u);
     Server.responseTime := spread (Server.responseTime s) (Updates.responseTime u) |}.

(** [server.isActive = !server.isActive] *)
Definition flipActive (s : WooCommerceServer) : WooCommerceServer :=
  {| Server.id := Server.id s;
     Server.name := Server.name s;
     Server.url := Server.url s;
     Server.consumerKey := Server.consumerKey s;
     Server.consumerSecret := Server.consumerSecret s;
     Server.isActive := negb (Server.isActive s);
     Server.lastChecked := Server.lastChecked s;
     Server.status := Server.status s;
     Server.errorMessage := Server.errorMessage s;
     Server.responseTime := Server.responseTime s |}.

(* ===================================================================== *)
(** * The world the service runs in                                        *)
(* ===================================================================== *)

Definition ServerMonitorCallback : Type := nat.

Inductive Event : Type :=
| SetItem (servers : list WooCommerceServer)
    (* localStorage.setItem(STORAGE_KEY, JSON.stringify(servers)) *)
| Notify (callback : ServerMonitorCallback) (servers : list WooCommerceServer).
    (* callback(servers) *)

Record World : Type := mkWorld {
  storage : option (list WooCommerceServer);   (* localStorage[STORAGE_KEY] *)
  monitoringInterval : option nat;             (* static monitoringInterval *)
  monitorCallbacks : list ServerMonitorCallback;
  timers : list (nat * Z);                     (* the window's live intervals: id, delay *)
  nextTimer : nat;                             (* next id window.setInterval hands out *)
  inflight : list (list WooCommerceServer);    (* checkAllServersStatus runs awaiting probes *)
  trace : list Event
}.

(** The world when the page has just loaded: [stored] is what an earlier
    session left in [localStorage]; the statics of the class have their
    initial values. *)
Definition initialWorld (stored : option (list WooCommerceServer)) : World :=
  mkWorld stored None [] [] 1 [] [].

Definition DEFAULT_TIMEOUT : Z := 10000.   (* handed to axios; the environment enforces it *)
Definition MAX_RETRIES : nat := 2.

Definition setStorage (l : list WooCommerceServer) (w : World) : World :=
  mkWorld (Some l) (monitoringInterval w) (monitorCallbacks w) (timers w)
          (nextTimer w) (inflight w) (trace w ++ [SetItem l]).

Definition emit (es : list Event) (w : World) : World :=
  mkWorld (storage w) (monitoringInterval w) (monitorCallbacks w) (timers w)
          (nextTimer w) (inflight w) (trace w ++ es).

Module WooCommerceService.

Definition getServers (w : World) : list WooCommerceServer :=
  match storage w with
  | Some servers => servers
  | None => []
  end.

Definition getActiveServers (w : World) : list WooCommerceServer :=
  filter (fun server =>
            Server.isActive server &&
            optEqb Status_eqb (Server.status server) (Some online))
         (getServers w).

Definition notifyMonitorCallbacks (w : World) : World :=
  let servers := getServers w in
  emit (map (fun callback => Notify callback servers) (monitorCallbacks w)) w.

(** [uuid] is the value of [crypto.randomUUID()]. *)
Definition addServer (server : NewServer.t) (uuid : string) (w : World)
  : WooCommerceServer * World :=
  let servers := getServers w in
  let newServer :=
    {| Server.id := uuid;
       Server.name := NewServer.name server;
       Server.url := NewServer.url server;
       Server.consumerKey := NewServer.consumerKey server;
       Server.consumerSecret := NewServer.consumerSecret server;
       Server.isActive := true;
       Server.lastChecked := NewServer.lastChecked server;
       Server.status := Some offline;
       Server.errorMessage := NewServer.errorMessage server;
       Server.responseTime := NewServer.responseTime server |} in
  let servers := servers ++ [newServer] in
  (newServer, notifyMonitorCallbacks (setStorage servers w)).

Definition updateServer (serverId : string) (updates : Updates.t) (w : World) : World :=
  let servers := getServers w in
  match findIndex (fun s => String.eqb (Server.id s) serverId) servers with
  | Some index =>
      match nth_error servers index with
      | Some old =>
          let servers := setAt index (applyUpdates old updates) servers in
          notifyMonitorCallbacks (setStorage servers w)
      | None => w
      end
  | None => w
  end.

Definition deleteServer (serverId : string) (w : World) : World :=
  let servers :=
    filter (fun s => negb (String.eqb (Server.id s) serverId)) (getServers w) in
  notifyMonitorCallbacks (setStorage servers w).

(** [servers.find] returns the first matching object of the array and the
    assignment mutates it in place: the first match is replaced. *)
Definition toggleServerActive (serverId : string) (w : World) : World :=
  let servers := getServers w in
  match findIndex (fun s => String.eqb (Server.id s) serverId) servers with
  | Some index =>
      match nth_error servers index with
      | Some server =>
          let servers := setAt index (flipActive server) servers in
          notifyMonitorCallbacks (setStorage servers w)
      | None => w
      end
  | None => w
  end.

(** ** Health check *)

(** What [catch (error)] can receive: an [Error] object with its
    [message], or any other thrown value. *)
Inductive Thrown : Type :=
| ErrorObj (message : string)
| NonError.

(** Outcome of [await axios.get(...)]: the promise resolves with a
    response carrying an HTTP status, or rejects. *)
Inductive Outcome : Type :=
| Response (httpStatus : Z)
| Throws (e : Thrown).

(** One attempt as the environment answers it: the outcome and the
    milliseconds [Date.now() - startTime] measured by that attempt. *)
Record Attempt : Type := mkAttempt {
  outcome : Outcome;
  elapsed : Z
}.

Record CheckResult : Type := mkCheckResult {
  r_status : Status;
  r_errorMessage : option string;
  r_responseTime : option Z
}.

(** [error instanceof Error &&
     (error.message.includes('timeout') || error.message.includes('ECONNABORTED'))] *)
Definition isTimeout (e : Thrown) : bool :=
  match e with
  | ErrorObj message => includes message "timeout" || includes message "ECONNABORTED"
  | NonError => false
  end.

(** [error instanceof Error &&
     (error.message.includes('Network Error') || isTimeout)] *)
Definition isNetworkError (e : Thrown) : bool :=
  match e with
  | ErrorObj message => includes message "Network Error" || isTimeout e
  | NonError => false
  end.

(** [` (after ${retryCount + 1} attempts)`] *)
Definition attemptsSuffix (retryCount : nat) : string :=
  (" (after " ++ showNat (retryCount + 1) ++ " attempts)")%string.

(** The [try] block after the response arrived. *)
Definition onResponse (httpStatus : Z) (responseTime : Z) : CheckResult :=
  {| r_status := if Z.eqb httpStatus 200 then online else error;
     r_errorMessage :=
       if negb (Z.eqb httpStatus 200)
       then Some "Server returned unexpected status"%string
       else None;
     r_responseTime := Some responseTime |}.

(** The [catch] block once no retry is made. *)
Definition onFinalFailure (e : Thrown) (retryCount : nat) (responseTime : Z) : CheckResult :=
  {| r_status := if isNetworkError e then offline else error;
     r_errorMessage :=
       Some match e with
            | ErrorObj message =>
                String.append message
                  (if 0 <? retryCount then attemptsSuffix retryCount else ""%string)
            | NonError => "Unknown error occurred"%string
            end;
     r_responseTime := Some responseTime |}.

(** [checkServerWithRetry(server, retryCount)].  [probe k] is what the
    environment answers to the request issued with [retryCount = k].
    The second component counts the [axios.get] requests issued. *)
Equations? checkServerWithRetry (probe : nat -> Attempt) (retryCount : nat)
  : CheckResult * nat by wf (MAX_RETRIES - retryCount) lt :=
  checkServerWithRetry probe retryCount with outcome (probe retryCount) => {
    | Response httpStatus :=
        (onResponse httpStatus (elapsed (probe retryCount)), 1);
    | Throws e with isTimeout e, lt_dec retryCount MAX_RETRIES => {
        | true, left _ :=
            let (result, requests) := checkServerWithRetry probe (retryCount + 1) in
            (result, S requests);
        | _, _ :=
            (onFinalFailure e retryCount (elapsed (probe retryCount)), 1) } }.
Proof.
  unfold MAX_RETRIES in l.
  destruct retryCount as [|[|?]]; simpl; lia.
Qed.

Definition checkServerStatus (probe : nat -> Attempt) : CheckResult :=
  fst (checkServerWithRetry probe 0).

(** Number of requests one [checkServerStatus] issues. *)
Definition requestsIssued (probe : nat -> Attempt) : nat :=
  snd (checkServerWithRetry probe 0).

(** ** Monitoring *)

(** One element of [results] in [checkAllServersStatus]: the [server] as
    read when the run started, the [result] of its probe, and the value of
    [new Date().toISOString()] when the [forEach] reaches the element. *)
Record Checked : Type := mkChecked {
  c_server : WooCommerceServer;
  c_result : CheckResult;
  c_now : string
}.

(** [server.status !== status || server.errorMessage !== errorMessage ||
     server.responseTime !== responseTime] *)
Definition differs (server : WooCommerceServer) (result : CheckResult) : bool :=
  negb (optEqb Status_eqb (Server.status server) (Some (r_status result)))
  || negb (optEqb String.eqb (Server.errorMessage server) (r_errorMessage result))
  || negb (optEqb Z.eqb (Server.responseTime server) (r_responseTime result)).

(** [{ status, errorMessage, responseTime, lastChecked: new Date().toISOString() }] *)
Definition statusUpdates (result : CheckResult) (now : string) : Updates.t :=
  {| Updates.id := None;
     Updates.name := None;
     Updates.url := None;
     Updates.consumerKey := None;
     Updates.consumerSecret := None;
     Updates.isActive := None;
     Updates.lastChecked := Some (Some now);
     Updates.status := Some (Some (r_status result));
     Updates.errorMessage := Some (r_errorMessage result);
     Updates.responseTime := Some (r_responseTime result) |}.

(** Body of [results.forEach]; the boolean is [hasChanges]. *)
Definition settleOne (acc : World * bool) (c : Checked) : World * bool :=
  let (w, hasChanges) := acc in
  if differs (c_server c) (c_result c)
  then (updateServer (Server.id (c_server c))
                     (statusUpdates (c_result c) (c_now c)) w, true)
  else (w, hasChanges).

(** [checkAllServersStatus] after [await Promise.all]: the [forEach] and
    the final [if (hasChanges)].  [w] is the world at that moment. *)
Definition settleChecks (results : list Checked) (w : World) : World :=
  let (w', hasChanges) := fold_left settleOne results (w, false) in
  if hasChanges then notifyMonitorCallbacks w' else w'.

(** [servers.map(async server => ...)] with [Promise.all]: the probes of
    the [i]-th server are answered by [probes i]; [clock i] is the time
    read for the [i]-th element. *)
Definition probeAll (probes : nat -> nat -> Attempt) (clock : nat -> string)
  (servers : list WooCommerceServer) : list Checked :=
  mapi (fun i server => mkChecked server (checkServerStatus (probes i)) (clock i)) servers.

(** [checkAllServersStatus] is an [async] function, split here at its
    [await]: [snapshot] is what [this.getServers()] returned when the run
    was called, [w] is the world at the moment all probes have settled,
    after whatever other operations and runs happened in between.  A run
    during which nothing else wrote the registry is the case
    [snapshot = getServers w]. *)
Definition checkAllServersStatus (probes : nat -> nat -> Attempt) (clock : nat -> string)
  (snapshot : list WooCommerceServer) (w : World) : World :=
  settleChecks (probeAll probes clock snapshot) w.

(** A call of [checkAllServersStatus()] that is not awaited: [getServers]
    is read at once, the rest runs when the probes have settled. *)
Definition launchCheck (w : World) : World :=
  mkWorld (storage w) (monitoringInterval w) (monitorCallbacks w) (timers w)
          (nextTimer w) (inflight w ++ [getServers w]) (trace w).

Definition pushCallback (callback : option ServerMonitorCallback) (w : World) : World :=
  match callback with
  | Some cb =>
      mkWorld (storage w) (monitoringInterval w) (monitorCallbacks w ++ [cb]) (timers w)
              (nextTimer w) (inflight w) (trace w)
  | None => w
  end.

Definition startMonitoring (callback : option ServerMonitorCallback) (w : World) : World :=
  let w := pushCallback callback w in
  match monitoringInterval w with
  | None =>
      let w := launchCheck w in
      let handle := nextTimer w in   (* window.setInterval(..., 5000) *)
      mkWorld (storage w) (Some handle) (monitorCallbacks w)
              (timers w ++ [(handle, 5000%Z)]) (S handle) (inflight w) (trace w)
  | Some _ => w
  end.

Definition dropCallback (callback : option ServerMonitorCallback) (w : World) : World :=
  match callback with
  | Some callback =>
      mkWorld (storage w) (monitoringInterval w)
              (filter (fun cb => negb (Nat.eqb cb callback)) (monitorCallbacks w))
              (timers w) (nextTimer w) (inflight w) (trace w)
  | None => w
  end.

Definition stopMonitoring (callback : option ServerMonitorCallback) (w : World) : World :=
  let w := dropCallback callback w in
  match monitorCallbacks w, monitoringInterval w with
  | [], Some handle =>           (* window.clearInterval(handle) *)
      mkWorld (storage w) None (monitorCallbacks w)
              (filter (fun t => negb (Nat.eqb (fst t) handle)) (timers w))
              (nextTimer w) (inflight w) (trace w)
  | _, _ => w
  end.

End WooCommerceService.

(* ===================================================================== *)
(** * The service as a transition system                                   *)
(* ===================================================================== *)

Import WooCommerceService.

Inductive Action : Type :=
| AddServer (server : NewServer.t) (uuid : string)
| UpdateServer (serverId : string) (updates : Updates.t)
| DeleteServer (serverId : string)
| ToggleServerActive (serverId : string)
| StartMonitoring (callback : option ServerMonitorCallback)
| StopMonitoring (callback : option ServerMonitorCallback)
| Tick (handle : nat)
    (* the window fires the interval [handle] *)
| Settle (k : nat) (probes : nat -> nat -> Attempt) (clock : nat -> string).
    (* all probes of the [k]-th run in flight have settled *)

(** The four operations that write the registry. *)
Definition mutating (a : Action) : bool :=
  match a with
  | AddServer _ _ | UpdateServer _ _ | DeleteServer _ | ToggleServerActive _ => true
  | _ => false
  end.

Definition isTick (a : Action) : bool :=
  match a with
  | Tick _ => true
  | _ => false
  end.

Definition isStart (a : Action) : bool :=
  match a with
  | StartMonitoring _ => true
  | _ => false
  end.

(** The window fires only live intervals; only a run in flight settles. *)
Definition enabled (a : Action) (w : World) : bool :=
  match a with
  | Tick handle => existsb (fun t => Nat.eqb (fst t) handle) (timers w)
  | Settle k _ _ => k <? List.length (inflight w)
  | _ => true
  end.

Fixpoint removeAt {A} (k : nat) (l : list A) : list A :=
  match l, k with
  | [], _ => []
  | _ :: l', 0 => l'
  | x :: l', S k' => x :: removeAt k' l'
  end.

Definition perform (a : Action) (w : World) : World :=
  match a with
  | AddServer server uuid => snd (addServer server uuid w)
  | UpdateServer serverId updates => updateServer serverId updates w
  | DeleteServer serverId => deleteServer serverId w
  | ToggleServerActive serverId => toggleServerActive serverId w
  | StartMonitoring callback => startMonitoring callback w
  | StopMonitoring callback => stopMonitoring callback w
  | Tick _ => launchCheck w
  | Settle k probes clock =>
      let servers := nth k (inflight w) [] in
      let w' := mkWorld (storage w) (monitoringInterval w) (monitorCallbacks w)
                        (timers w) (nextTimer w) (removeAt k (inflight w)) (trace w) in
      settleChecks (probeAll probes clock servers) w'
  end.

Inductive reachable : World -> Prop :=
| reach_init (stored : option (list WooCommerceServer)) :
    reachable (initialWorld stored)
| reach_step (w : World) (a : Action) :
    reachable w -> enabled a w = true -> reachable (perform a w).

(** [run w actions]: the world after the enabled actions of the list have
    happened in order, [None] when one of them is not enabled. *)
Fixpoint run (w : World) (actions : list Action) : option World :=
  match actions with
  | [] => Some w
  | a :: rest => if enabled a w then run (perform a w) rest else None
  end.

(** Events an operation appended to the trace. *)
Definition emitted (before after : World) : list Event :=
  skipn (List.length (trace before)) (trace after).

(* ===================================================================== *)
(** * Fetch aggregator                                                     *)
(* ===================================================================== *)

(** Outcome of an awaited request of the data-fetch paths. *)
Inductive Reply (A : Type) : Type :=
| Resolved (data : A)
| Rejected.

Arguments Resolved {A} data.
Arguments Rejected {A}.

(** [await Promise.all(promises)]: rejects as soon as one promise does. *)
Fixpoint promiseAll {A} (promises : list (Reply A)) : Reply (list A) :=
  match promises with
  | [] => Resolved []
  | Rejected :: _ => Rejected
  | Resolved x :: rest =>
      match promiseAll rest with
      | Resolved xs => Resolved (x :: xs)
      | Rejected => Rejected
      end
  end.

(** The update function both components pass to their state setter:
    [prev => [...prev, ...all.filter(n => !prev.some(e => same(e, n)))]]. *)
Definition mergeNew {E} (same : E -> E -> bool) (prev all : list E) : list E :=
  prev ++ filter (fun n => negb (existsb (fun e => same e n) prev)) all.

(** Number of entities of [l] that [same] identifies with [x]. *)
Definition copies {E} (same : E -> E -> bool) (x : E) (l : list E) : nat :=
  List.length (filter (fun e => same e x) l).

(** ** Orders ([AllOrders]) *)

Module OrderNote.
Record t : Type := mk {
  id : Z;
  author : string;
  date_created : string;
  note : string;
  customer_note : bool
}.
End OrderNote.

Module OrderStore.
Record t : Type := mk {
  id : string;
  name : string
}.
End OrderStore.

Module Order.
Record t : Type := mk {
  id : Z;
  number : string;
  status : string;
  date_created : string;
  total : string;
  customer_id : Z;
  customer_note : string;
  notes : list OrderNote.t;
  store : option OrderStore.t
}.
End Order.

Module AllOrders.

(** The state of the component that [fetchOrders] reads and writes;
    [loadingStatus] and [loadingProgress] only feed the progress bar.
    [orders] is the list the state setter receives as [prevOrders]; the
    other fields are the values the closure of [fetchOrders] captured. *)
Record View : Type := mkView {
  orders : list Order.t;
  loading : bool;
  error : option string;
  page : nat;
  hasMore : bool;
  searchTerm : string;
  servers : list WooCommerceServer;
  selectedServers : list string
}.

(** The stores' REST API as the environment answers it:
    [GET /orders?per_page=20&page=..&search=..] and
    [GET /orders/{id}/notes]. *)
Record Api : Type := mkApi {
  getOrders : WooCommerceServer -> nat -> string -> Reply (list Order.t);
  getNotes : WooCommerceServer -> Z -> Reply (list OrderNote.t)
}.

(** [{ ...order, notes: notesResponse.data, store: { id: server.id, name: server.name } }] *)
Definition withNotes (server : WooCommerceServer) (order : Order.t)
  (notes : list OrderNote.t) : Order.t :=
  {| Order.id := Order.id order;
     Order.number := Order.number order;
     Order.status := Order.status order;
     Order.date_created := Order.date_created order;
     Order.total := Order.total order;
     Order.customer_id := Order.customer_id order;
     Order.customer_note := Order.customer_note order;
     Order.notes := notes;
     Order.store := Some {| OrderStore.id := Server.id server;
                            OrderStore.name := Server.name server |} |}.

(** The callback of [ordersResponse.data.map]. *)
Definition fetchNotes (api : Api) (server : WooCommerceServer) (order : Order.t)
  : Reply Order.t :=
  match getNotes api server (Order.id order) with
  | Resolved notes => Resolved (withNotes server order notes)
  | Rejected => Rejected
  end.

(** The callback of [selectedServers.map]: what one selected store
    contributes. *)
Definition ordersOfStore (api : Api) (v : View) (serverId : string) : list Order.t :=
  match find (fun s => String.eqb (Server.id s) serverId) (servers v) with
  | None => []
  | Some server =>
      match getOrders api server (page v) (searchTerm v) with
      | Resolved data =>
          match promiseAll (map (fetchNotes api server) data) with
          | Resolved ordersWithNotes => ordersWithNotes
          | Rejected => []                 (* catch: console.error; return [] *)
          end
      | Rejected => []                     (* catch: console.error; return [] *)
      end
  end.

(** [existingOrder.id === newOrder.id &&
     existingOrder.store?.id === newOrder.store?.id] *)
Definition sameOrder (existingOrder newOrder : Order.t) : bool :=
  Z.eqb (Order.id existingOrder) (Order.id newOrder) &&
  optEqb String.eqb (option_map OrderStore.id (Order.store existingOrder))
                    (option_map OrderStore.id (Order.store newOrder)).

(** [allOrders]: [(await Promise.all(orderPromises)).flat()] *)
Definition allOrders (api : Api) (v : View) : list Order.t :=
  List.concat (map (ordersOfStore api v) (selectedServers v)).

Definition fetchOrders (api : Api) (v : View) : View :=
  let allOrders := allOrders api v in
  {| orders := mergeNew sameOrder (orders v) allOrders;
     loading := false;
     error := None;
     page := page v;
     hasMore := Nat.eqb (List.length allOrders) (List.length (selectedServers v) * 20);
     searchTerm := searchTerm v;
     servers := servers v;
     selectedServers := selectedServers v |}.

(** The pair an order is identified by. *)
Definition key (o : Order.t) : Z * option string :=
  (Order.id o, option_map OrderStore.id (Order.store o)).

(** The requests for a selected store all resolve. *)
Definition succeeds (api : Api) (v : View) (serverId : string) : bool :=
  match find (fun s => String.eqb (Server.id s) serverId) (servers v) with
  | None => false
  | Some server =>
      match getOrders api server (page v) (searchTerm v) with
      | Resolved data =>
          forallb (fun order =>
                     match getNotes api server (Order.id order) with
                     | Resolved _ => true
                     | Rejected => false
                     end) data
      | Rejected => false
      end
  end.

End AllOrders.

(** ** Products ([AllProducts]) *)

Module ProductCategory.
Record t : Type := mk { id : Z; name : string }.
End ProductCategory.

Module ProductImage.
Record t : Type := mk { id : Z; src : string; alt : string }.
End ProductImage.

Module ProductAttribute.
Record t : Type := mk { id : Z; name : string; options : list string }.
End ProductAttribute.

Module ProductStore.
Record t : Type := mk {
  id : string;
  name : string;
  url : string
}.
End ProductStore.

Module Product.
Record t : Type := mk {
  id : Z;
  name : string;
  price : string;
  regular_price : string;
  sale_price : string;
  status : string;
  stock_status : string;
  description : string;
  short_description : string;
  sku : string;
  permalink : string;
  categories : list ProductCategory.t;
  images : list ProductImage.t;
  store : option ProductStore.t;
  attributes : option (list ProductAttribute.t)
}.
End Product.

Module AllProducts.

Record View : Type := mkView {
  products : list Product.t;
  loading : bool;
  error : option string;
  page : nat;
  hasMore : bool;
  searchTerm : string;
  servers : list WooCommerceServer;
  selectedServers : list string
}.

(** [GET /products?per_page=20&page=..&search=..] *)
Definition Api : Type :=
  WooCommerceServer -> nat -> string -> Reply (list Product.t).

(** [{ ...product, store: { id: server.id, name: server.name, url: server.url } }] *)
Definition withStore (server : WooCommerceServer) (product : Product.t) : Product.t :=
  {| Product.id := Product.id product;
     Product.name := Product.name product;
     Product.price := Product.price product;
     Product.regular_price := Product.regular_price product;
     Product.sale_price := Product.sale_price product;
     Product.status := Product.status product;
     Product.stock_status := Product.stock_status product;
     Product.description := Product.description product;
     Product.short_description := Product.short_description product;
     Product.sku := Product.sku product;
     Product.permalink := Product.permalink product;
     Product.categories := Product.categories product;
     Product.images := Product.images product;
     Product.store := Some {| ProductStore.id := Server.id server;
                              ProductStore.name := Server.name server;
                              ProductStore.url := Server.url server |};
     Product.attributes := Product.attributes product |}.

Definition productsOfStore (api : Api) (v : View) (serverId : string) : list Product.t :=
  match find (fun s => String.eqb (Server.id s) serverId) (servers v) with
  | None => []
  | Some server =>
      match api server (page v) (searchTerm v) with
      | Resolved data => map (withStore server) data
      | Rejected => []                     (* catch: console.error; return [] *)
      end
  end.

(** [existingProduct.id === newProduct.id &&
     existingProduct.store?.id === newProduct.store?.id] *)
Definition sameProduct (existingProduct newProduct : Product.t) : bool :=
  Z.eqb (Product.id existingProduct) (Product.id newProduct) &&
  optEqb String.eqb (option_map ProductStore.id (Product.store existingProduct))
                    (option_map ProductStore.id (Product.store newProduct)).

(** [allProducts]: [(await Promise.all(productPromises)).flat()] *)
Definition allProducts (api : Api) (v : View) : list Product.t :=
  List.concat (map (productsOfStore api v) (selectedServers v)).

Definition fetchProducts (api : Api) (v : View) : View :=
  let allProducts := allProducts api v in
  {| products := mergeNew sameProduct (products v) allProducts;
     loading := false;
     error := None;
     page := page v;
     hasMore := Nat.eqb (List.length allProducts) (List.length (selectedServers v) * 20);
     searchTerm := searchTerm v;
     servers := servers v;
     selectedServers := selectedServers v |}.

Definition key (p : Product.t) : Z * option string :=
  (Product.id p, option_map ProductStore.id (Product.store p)).

Definition succeeds (api : Api) (v : View) (serverId : string) : bool :=
  match find (fun s => String.eqb (Server.id s) serverId) (servers v) with
  | None => false
  | Some server =>
      match api server (page v) (searchTerm v) with
      | Resolved _ => true
      | Rejected => false
      end
  end.

End AllProducts.

(** ** Store selection ([StoreSelector]) *)

(** [handleCheckboxChange]: the selection handed to [onSelectionChange]. *)
Definition handleCheckboxChange (selectedServers : list string) (serverId : string)
  : list string :=
  if existsb (String.eqb serverId) selectedServers
  then filter (fun id => negb (String.eqb id serverId)) selectedServers
  else selectedServers ++ [serverId].

(* ===================================================================== *)
(** * Statements and concrete inputs used below                            *)
(* ===================================================================== *)

(** The operation reaches its [setItem]: always for [addServer] and
    [deleteServer], only for an id of the registry for the other two. *)
Definition targetPresent (a : Action) (w : World) : bool :=
  match a with
  | UpdateServer serverId _ | ToggleServerActive serverId =>
      existsb (fun s => String.eqb (Server.id s) serverId) (getServers w)
  | _ => true
  end.

(** "Writes the collection, then hands every registered observer the list
    read back from storage." *)
Definition writesThenNotifies (a : Action) (w : World) : Prop :=
  let w' := perform a w in
  emitted w w' =
  SetItem (getServers w') ::
  map (fun cb => Notify cb (getServers w')) (monitorCallbacks w').

(** "Every registered observer is handed the updated list." *)
Definition notifiesEveryObserver (a : Action) (w : World) : Prop :=
  let w' := perform a w in
  forall cb, In cb (monitorCallbacks w) -> In (Notify cb (getServers w')) (emitted w w').

(** A world with one observer and an empty registry. *)
Definition oneObserver : World :=
  mkWorld None None [7] [] 1 [] [].

Definition shopA : WooCommerceServer :=
  Server.mk "a" "Shop A" "https://a.example" "ck_a" "cs_a" true None (Some online) None None.

Definition shopB : WooCommerceServer :=
  Server.mk "b" "Shop B" "https://b.example" "ck_b" "cs_b" true None (Some offline) None None.

(** A registry of two stores watched by one observer. *)
Definition twoShops : World :=
  mkWorld (Some [shopA; shopB]) None [7] [] 1 [] [].

Definition shopC : NewServer.t :=
  NewServer.mk "Shop C" "https://c.example" "ck_c" "cs_c" None None None.

(** C9 as the claim words it: the id of the added record is carried by
    no record already in the registry. *)
Definition addedIdDistinct (server : NewServer.t) (uuid : string) (w : World) : Prop :=
  forall s, In s (getServers w) ->
            Server.id s <> Server.id (fst (addServer server uuid w)).

(** A registry whose only record carries a version-4 UUID. *)
Definition shopU : WooCommerceServer :=
  Server.mk "3f2b8c1e-5d4a-4e6f-9a7b-0c1d2e3f4a5b" "Shop U" "https://u.example"
            "ck_u" "cs_u" true None (Some offline) None None.

Definition oneShop : World :=
  mkWorld (Some [shopU]) None [] [] 1 [] [].


(** The attempt was rejected with an error classified as a timeout. *)
Definition timedOut (a : Attempt) : bool :=
  match outcome a with
  | Throws e => isTimeout e
  | Response _ => false
  end.

(** Index ([retryCount]) of the last request [checkServerStatus] issues. *)
Definition lastAttempt (probe : nat -> Attempt) : nat :=
  requestsIssued probe - 1.

(** Two timeouts, then what [third] says. *)
Definition timeoutsThen (third : Attempt) (k : nat) : Attempt :=
  if k <? 2
  then mkAttempt (Throws (ErrorObj "timeout of 10000ms exceeded")) 10003
  else third.

(** A timeout, then a rejection with a value that is not an [Error]. *)
Definition timeoutThenNonError (k : nat) : Attempt :=
  if k <? 1
  then mkAttempt (Throws (ErrorObj "timeout of 10000ms exceeded")) 10003
  else mkAttempt (Throws NonError) 12.

(** C4 as the claim words it, for one run of [checkServerStatus] that
    ends in a rejected request: [offline] exactly for a network failure
    or a timeout, [error] otherwise, and a message that ends with the
    attempt count exactly when a retry was made. *)
Definition failureReportAsClaimed (probe : nat -> Attempt) : Prop :=
  forall e, outcome (probe (lastAttempt probe)) = Throws e ->
    let result := checkServerStatus probe in
    (r_status result = offline <-> isNetworkError e = true) /\
    (r_status result = error <-> isNetworkError e = false) /\
    exists message,
      r_errorMessage result = Some message /\
      (endsWith message (attemptsSuffix (lastAttempt probe)) = true
       <-> 0 < lastAttempt probe).

(** The freshly derived status, message and response time are the ones
    the record read from storage already carries. *)
Definition sameAsStored (server : WooCommerceServer) (result : CheckResult) : Prop :=
  Server.status server = Some (r_status result) /\
  Server.errorMessage server = r_errorMessage result /\
  Server.responseTime server = r_responseTime result.

(** A store last seen online after 42 ms, and a probe that answers 200
    after 42 ms again. *)
Definition steadyShop : WooCommerceServer :=
  Server.mk "a" "Shop A" "https://a.example" "ck_a" "cs_a" true
            (Some "2024-01-01T00:00:00.000Z"%string) (Some online) None (Some 42%Z).

Definition steadyWorld : World :=
  mkWorld (Some [steadyShop]) (Some 1) [7] [(1, 5000%Z)] 2 [] [].

Definition steadyProbes (i k : nat) : Attempt :=
  mkAttempt (Response 200) 42.

Definition someClock (i : nat) : string :=
  "2024-01-01T00:00:05.000Z"%string.

(** What holds of the monitor in every reachable world: the window's live
    intervals are exactly the one the service remembers, with a delay of
    5000 ms, and observers are registered only while it runs. *)
Definition monitorInvariant (w : World) : Prop :=
  timers w = match monitoringInterval w with
             | Some handle => [(handle, 5000%Z)]
             | None => []
             end /\
  (monitorCallbacks w <> [] -> monitoringInterval w <> None).

(** The part of the world [startMonitoring] and [stopMonitoring] own. *)
Definition monitorPart (w : World) : option nat * list ServerMonitorCallback * list (nat * Z) :=
  (monitoringInterval w, monitorCallbacks w, timers w).

(** The world after one observer subscribed. *)
Definition watched : World :=
  perform (StartMonitoring (Some 7)) (initialWorld (Some [shopA; shopB])).

(** ** Inputs for the aggregator *)

(** Notes an order gets: the reply of [GET /orders/{id}/notes]. *)
Definition notesOf (api : AllOrders.Api) (server : WooCommerceServer) (order : Order.t)
  : list OrderNote.t :=
  match AllOrders.getNotes api server (Order.id order) with
  | Resolved notes => notes
  | Rejected => []
  end.

Definition remoteOrder (n : nat) : Order.t :=
  Order.mk (Z.of_nat n) (showNat n) "processing" "2024-01-01T10:00:00" "10.00" 1 "" [] None.

Definition remoteProduct (n : nat) : Product.t :=
  Product.mk (Z.of_nat n) "Mug" "10.00" "10.00" "" "publish" "instock" "" "" "MUG"
             "https://a.example/mug" [] [] None None.

(** [pageOf f first n]: the [n] entities [f first], [f (first + 1)], ... *)
Definition pageOf {E} (f : nat -> E) (first n : nat) : list E :=
  map f (seq first n).

(** Store A answers with five orders (and their notes), store B rejects. *)
Definition onlyAOrders : AllOrders.Api :=
  AllOrders.mkApi
    (fun server _ _ =>
       if String.eqb (Server.id server) "a"
       then Resolved (pageOf remoteOrder 1 5)
       else Rejected)
    (fun _ _ => Resolved []).

Definition ordersOfAB : AllOrders.View :=
  AllOrders.mkView [] true None 1 true "" [shopA; shopB] ["a"; "b"]%string.

(** Store A answers with five products, store B rejects. *)
Definition onlyAProducts : AllProducts.Api :=
  fun server _ _ =>
    if String.eqb (Server.id server) "a"
    then Resolved (pageOf remoteProduct 1 5)
    else Rejected.

Definition productsOfAB : AllProducts.View :=
  AllProducts.mkView [] true None 1 true "" [shopA; shopB] ["a"; "b"]%string.

(** Store A answers with a full page of 20, store B with [n] products. *)
Definition fullAndPartial (n : nat) : AllProducts.Api :=
  fun server _ _ =>
    if String.eqb (Server.id server) "a"
    then Resolved (pageOf remoteProduct 1 20)
    else Resolved (pageOf remoteProduct 101 n).

(** Store A answers with a page that lists order 5 twice. *)
Definition repeatingPage : AllOrders.Api :=
  AllOrders.mkApi
    (fun _ _ _ => Resolved [remoteOrder 5; remoteOrder 5])
    (fun _ _ => Resolved []).

Definition ordersOfA : AllOrders.View :=
  AllOrders.mkView [] true None 1 true "" [shopA] ["a"%string].

(** C2 as the claim words it: no two entities of the merged list carry
    the same [(store.id, id)] pair. *)
Definition mergedOrdersDistinct (api : AllOrders.Api) (v : AllOrders.View) : Prop :=
  NoDup (map AllOrders.key (AllOrders.orders (AllOrders.fetchOrders api v))).

(** Store A answers with orders 1 to 3; orders 1 and 2 of store A are
    already displayed. *)
Definition threeOrders : AllOrders.Api :=
  AllOrders.mkApi
    (fun _ _ _ => Resolved (pageOf remoteOrder 1 3))
    (fun _ _ => Resolved []).

Definition twoDisplayed : AllOrders.View :=
  AllOrders.mkView
    (map (fun o => AllOrders.withNotes shopA o []) (pageOf remoteOrder 1 2))
    true None 1 true "" [shopA] ["a"%string].

(* ===================================================================== *)
(** * The rest of the components                                           *)
(* ===================================================================== *)

From Stdlib Require Import Ascii.

(** The selection every list component starts with:
    [allServers.filter(s => s.status === 'online').map(s => s.id)]. *)
Definition initialSelection (allServers : list WooCommerceServer) : list string :=
  map Server.id
      (filter (fun s => optEqb Status_eqb (Server.status s) (Some online)) allServers).

(** ** Sort controls ([AllOrders], [AllProducts]) *)

Inductive SortDirection : Type := asc | desc.

Definition flipDirection (d : SortDirection) : SortDirection :=
  match d with
  | asc => desc
  | desc => asc
  end.

Module OrderSort.

Inductive SortField : Type := id | date_created.

Definition SortField_eqb (a b : SortField) : bool :=
  match a, b with
  | id, id | date_created, date_created => true
  | _, _ => false
  end.

(** [handleSort] of [AllOrders]; the state is [(sortField, sortDirection)]. *)
Definition handleSort (field : SortField) (st : SortField * SortDirection)
  : SortField * SortDirection :=
  let (sortField, sortDirection) := st in
  if SortField_eqb sortField field
  then (sortField, flipDirection sortDirection)
  else (field, desc).

End OrderSort.

Module ProductSort.

Inductive SortField : Type := name | price.

Definition SortField_eqb (a b : SortField) : bool :=
  match a, b with
  | name, name | price, price => true
  | _, _ => false
  end.

(** [handleSort] of [AllProducts]. *)
Definition handleSort (field : SortField) (st : SortField * SortDirection)
  : SortField * SortDirection :=
  let (sortField, sortDirection) := st in
  if SortField_eqb sortField field
  then (sortField, flipDirection sortDirection)
  else (field, asc).

End ProductSort.

(** ** Coupons ([Coupons]) *)

Module CouponStore.
Record t : Type := mk {
  id : string;
  name : string
}.
End CouponStore.

Module Coupon.
Record t : Type := mk {
  id : Z;
  code : string;
  amount : string;
  discount_type : string;
  description : string;
  date_expires : option string;
  usage_count : Z;
  usage_limit : option Z;
  individual_use : bool;
  store : option CouponStore.t
}.
End Coupon.

Module Coupons.

Record View : Type := mkView {
  coupons : list Coupon.t;
  loading : bool;
  error : option string;
  searchTerm : string;
  servers : list WooCommerceServer;
  selectedServers : list string
}.

(** [GET /coupons?per_page=100&search=..] *)
Definition Api : Type := WooCommerceServer -> string -> Reply (list Coupon.t).

(** [{ ...coupon, store: { id: server.id, name: server.name } }] *)
Definition withStore (server : WooCommerceServer) (coupon : Coupon.t) : Coupon.t :=
  {| Coupon.id := Coupon.id coupon;
     Coupon.code := Coupon.code coupon;
     Coupon.amount := Coupon.amount coupon;
     Coupon.discount_type := Coupon.discount_type coupon;
     Coupon.description := Coupon.description coupon;
     Coupon.date_expires := Coupon.date_expires coupon;
     Coupon.usage_count := Coupon.usage_count coupon;
     Coupon.usage_limit := Coupon.usage_limit coupon;
     Coupon.individual_use := Coupon.individual_use coupon;
     Coupon.store := Some {| CouponStore.id := Server.id server;
                             CouponStore.name := Server.name server |} |}.

Definition couponsOfStore (api : Api) (v : View) (serverId : string) : list Coupon.t :=
  match find (fun s => String.eqb (Server.id s) serverId) (servers v) with
  | None => []
  | Some server =>
      match api server (searchTerm v) with
      | Resolved data => map (withStore server) data
      | Rejected => []                     (* catch: console.error; return [] *)
      end
  end.

(** [setCoupons([])] first, [setCoupons(allCoupons)] once every store has
    settled: the list is replaced, not merged. *)
Definition fetchCoupons (api : Api) (v : View) : View :=
  let allCoupons := List.concat (map (couponsOfStore api v) (selectedServers v)) in
  {| coupons := allCoupons;
     loading := false;
     error := None;
     searchTerm := searchTerm v;
     servers := servers v;
     selectedServers := selectedServers v |}.

Definition succeeds (api : Api) (v : View) (serverId : string) : bool :=
  match find (fun s => String.eqb (Server.id s) serverId) (servers v) with
  | None => false
  | Some server =>
      match api server (searchTerm v) with
      | Resolved _ => true
      | Rejected => false
      end
  end.

End Coupons.

(** ** Creating a coupon ([CreateCouponModal]) *)

Module CreateCouponModal.

Inductive DiscountType : Type := percent | fixed_cart | fixed_product.

Record CouponData : Type := mkCouponData {
  code : string;
  discount_type : DiscountType;
  amount : string;
  description : option string;
  individual_use : bool;
  usage_limit : option Z;
  date_expires : option string
}.

Record Modal : Type := mkModal {
  selectedServer : string;
  loading : bool;
  error : option string;
  couponData : CouponData
}.

(** What [await axios.post(...)] gives: a response whose [data] is truthy
    or not, or a rejection. *)
Inductive PostReply : Type :=
| PostResolved (hasData : bool)
| PostRejected (e : Thrown).

(** What [handleSubmit] does to the outside. *)
Inductive ModalEvent : Type :=
| Posted (server : WooCommerceServer) (data : CouponData)   (* axios.post *)
| CouponCreated.                                            (* onCouponCreated() *)

(** [useState(servers[0]?.id || '')] *)
Definition initialSelectedServer (servers : list WooCommerceServer) : string :=
  match servers with
  | s :: _ => Server.id s
  | [] => ""%string
  end.

(** [err instanceof Error ? err.message : 'Failed to create coupon'] *)
Definition submitError (e : Thrown) : string :=
  match e with
  | ErrorObj message => message
  | NonError => "Failed to create coupon"%string
  end.

Definition handleSubmit (servers : list WooCommerceServer)
  (post : WooCommerceServer -> CouponData -> PostReply) (m : Modal)
  : Modal * list ModalEvent :=
  match find (fun s => String.eqb (Server.id s) (selectedServer m)) servers with
  | None =>                  (* throw new Error('Please select a store') *)
      (mkModal (selectedServer m) false
               (Some (submitError (ErrorObj "Please select a store"))) (couponData m),
       [])
  | Some server =>
      match post server (couponData m) with
      | PostResolved hasData =>
          (mkModal (selectedServer m) false None (couponData m),
           Posted server (couponData m) :: (if hasData then [CouponCreated] else []))
      | PostRejected e =>
          (mkModal (selectedServer m) false (Some (submitError e)) (couponData m),
           [Posted server (couponData m)])
      end
  end.

(** [s.split('T')[0]] *)
Fixpoint beforeT (s : string) : string :=
  match s with
  | EmptyString => EmptyString
  | String c s' => if Ascii.eqb c "T"%char then EmptyString else String c (beforeT s')
  end.

(** The expiry field's [onChange]:
    [e.target.value ? `${e.target.value}T23:59:59` : undefined] *)
Definition expiryOfInput (value : string) : option string :=
  if String.eqb value "" then None else Some (String.append value "T23:59:59").

(** The expiry field's [value]: [couponData.date_expires?.split('T')[0] || ''] *)
Definition expiryShown (date_expires : option string) : string :=
  match date_expires with
  | Some s => beforeT s
  | None => ""%string
  end.

End CreateCouponModal.

(** ** Product details ([ProductDetails]) *)

Module ProductDetails.

(** [s.replace(/\/$/, '')] *)
Fixpoint dropTrailingSlash (s : string) : string :=
  match s with
  | EmptyString => EmptyString
  | String c EmptyString => if Ascii.eqb c "/"%char then EmptyString else s
  | String c s' => String c (dropTrailingSlash s')
  end.

(** [s.replace(/^\//, '')] *)
Definition dropLeadingSlash (s : string) : string :=
  match s with
  | String c s' => if Ascii.eqb c "/"%char then s' else s
  | EmptyString => EmptyString
  end.

(** A string used as a condition. *)
Definition truthy (s : string) : bool := negb (String.eqb s "").

Definition getProductUrl (product : Product.t) : option string :=
  match Product.store product with
  | Some store =>
      if truthy (Product.permalink product) && truthy (ProductStore.url store)
      then Some (if String.prefix "http" (Product.permalink product)
                 then Product.permalink product
                 else String.append (dropTrailingSlash (ProductStore.url store))
                        (String.append "/" (dropLeadingSlash (Product.permalink product))))
      else None
  | None => None
  end.

(** [product.sale_price && product.sale_price !== product.regular_price] *)
Definition isOnSale (product : Product.t) : bool :=
  truthy (Product.sale_price product) &&
  negb (String.eqb (Product.sale_price product) (Product.regular_price product)).

(** The price in the header of the price section:
    [isOnSale ? product.sale_price : product.regular_price] *)
Definition shownPrice (product : Product.t) : string :=
  if isOnSale product then Product.sale_price product else Product.regular_price product.

End ProductDetails.

(* ===================================================================== *)
(** * Further statements and inputs                                        *)
(* ===================================================================== *)

(** The fields of a record the monitor never writes. *)
Definition identityOf (s : WooCommerceServer)
  : string * string * string * string * string * bool :=
  (Server.id s, Server.name s, Server.url s,
   Server.consumerKey s, Server.consumerSecret s, Server.isActive s).

(** What one run of [checkAllServersStatus] leaves of a record. *)
Definition refreshed (server : WooCommerceServer) (result : CheckResult) (now : string)
  : WooCommerceServer :=
  if differs server result
  then applyUpdates server (statusUpdates result now)
  else server.

(** The action cannot put an id into the registry twice: [addServer] got a
    token no record carries, and [updateServer] does not overwrite [id]. *)
Definition idSafe (a : Action) (w : World) : bool :=
  match a with
  | AddServer _ uuid => negb (existsb (String.eqb uuid) (map Server.id (getServers w)))
  | UpdateServer _ updates =>
      match Updates.id updates with
      | None => true
      | Some _ => false
      end
  | _ => true
  end.

Definition isSetItem (e : Event) : bool :=
  match e with
  | SetItem _ => true
  | Notify _ _ => false
  end.

Definition isNotify (e : Event) : bool :=
  match e with
  | SetItem _ => false
  | Notify _ _ => true
  end.

(** Number of elements of [l] that satisfy [p]. *)
Definition countIf {A} (p : A -> bool) (l : list A) : nat :=
  List.length (filter p l).

(** Number of leading timeouts that are answered with a retry. *)
Definition retriesMade (probe : nat -> Attempt) : nat :=
  if timedOut (probe 0)
  then (if timedOut (probe 1) then 2 else 1)
  else 0.

(** The registry [updateServer] writes, as a function of the registry it
    read. *)
Definition updatedList (serverId : string) (updates : Updates.t)
  (servers : list WooCommerceServer) : list WooCommerceServer :=
  match findIndex (fun s => String.eqb (Server.id s) serverId) servers with
  | Some index =>
      match nth_error servers index with
      | Some old => setAt index (applyUpdates old updates) servers
      | None => servers
      end
  | None => servers
  end.

(** The registry after the [forEach] of [checkAllServersStatus]. *)
Definition settledList (results : list Checked) (servers : list WooCommerceServer)
  : list WooCommerceServer :=
  fold_left (fun l c =>
               if differs (c_server c) (c_result c)
               then updatedList (Server.id (c_server c))
                                (statusUpdates (c_result c) (c_now c)) l
               else l)
            results servers.

(** Store A answers with orders 1 to 3; the notes of order 3 cannot be
    fetched. *)
Definition notesOfThreeFail : AllOrders.Api :=
  AllOrders.mkApi
    (fun _ _ _ => Resolved (pageOf remoteOrder 1 3))
    (fun _ orderId => if Z.eqb orderId 3 then Rejected else Resolved []).

Definition remoteCoupon (n : nat) : Coupon.t :=
  Coupon.mk (Z.of_nat n) "SPRING" "10" "percent" "" None 0 None false None.

(** Store A answers with two coupons, store B rejects. *)
Definition onlyACoupons : Coupons.Api :=
  fun server _ =>
    if String.eqb (Server.id server) "a"
    then Resolved (pageOf remoteCoupon 1 2)
    else Rejected.

Definition couponsOfAB : Coupons.View :=
  Coupons.mkView [remoteCoupon 9] true None "" [shopA; shopB] ["a"; "b"]%string.

Definition springCoupon : CreateCouponModal.CouponData :=
  CreateCouponModal.mkCouponData "SPRING" CreateCouponModal.percent "10" (Some ""%string)
    false None None.

(** The modal as it opens over [servers]. *)
Definition openedModal (servers : list WooCommerceServer)
  (data : CreateCouponModal.CouponData) : CreateCouponModal.Modal :=
  CreateCouponModal.mkModal (CreateCouponModal.initialSelectedServer servers)
                            false None data.

Definition mugOf (permalink : string) (url : string) : Product.t :=
  Product.mk 1 "Mug" "10.00" "10.00" "" "publish" "instock" "" "" "MUG" permalink [] []
             (Some (ProductStore.mk "a" "Shop A" url)) None.

(** ** Overlapping monitoring runs *)

(** A registry with one store that was never reached so far. *)
Definition unreached : World := initialWorld (Some [shopB]).

(** An observer subscribes (which launches a first run), the interval
    fires before that run's probes have settled (a second run reads the
    same registry), then the first run settles. *)
Definition overlappingRuns : list Action :=
  [StartMonitoring (Some 7); Tick 1; Settle 0 steadyProbes someClock].

(** The world in which the second run is still pending. *)
Definition secondRunPending : World :=
  perform (Settle 0 steadyProbes someClock)
    (perform (Tick 1) (perform (StartMonitoring (Some 7)) unreached)).

(** Every record stored under the id of the checked store already
    carries the freshly derived status, message and response time. *)
Definition storedLikeFresh (w : World) (c : Checked) : Prop :=
  forall stored,
    In stored (getServers w) ->
    Server.id stored = Server.id (c_server c) ->
    sameAsStored stored (c_result c).

(** C5 as the claim words it, for the settling of one run: when the
    fresh values are the stored ones for every checked store, nothing is
    written and no observer is called. *)
Definition silentWhenStoredAlike (results : list Checked) (w : World) : Prop :=
  (forall c, In c results -> storedLikeFresh w c) ->
  emitted w (settleChecks results w) = [].

(** The checked store is still in the registry when the run settles. *)
Definition stillRegistered (w : World) (c : Checked) : bool :=
  existsb (fun s => String.eqb (Server.id s) (Server.id (c_server c))) (getServers w).

Definition changed (c : Checked) : bool :=
  differs (c_server c) (c_result c).

(** What the settling of a run leaves of a stored record: the result of
    the snapshot's entry with its id, when that entry differed from the
    snapshot. *)
Definition settledRecord (results : list Checked) (r : WooCommerceServer)
  : WooCommerceServer :=
  match find (fun c => String.eqb (Server.id (c_server c)) (Server.id r) && changed c)
             results with
  | Some c => applyUpdates r (statusUpdates (c_result c) (c_now c))
  | None => r
  end.

(** A request answered with 204, after a timeout. *)
Definition timeoutThen204 (k : nat) : Attempt :=
  if k <? 1
  then mkAttempt (Throws (ErrorObj "timeout of 10000ms exceeded")) 10003
  else mkAttempt (Response 204) 15.
(* ===================================================================== *)
(** * Properties of the store registry                                     *)
(* ===================================================================== *)

Section ListFacts.
Context {A : Type}.

Lemma findIndex_None (p : A -> bool) (l : list A) :
  findIndex p l = None <-> (forall x, In x l -> p x = false).
Proof.
  induction l as [|x l IH]; simpl.
  - split; [intros _ y [] | reflexivity].
  - destruct (p x) eqn:Hx.
    + split; [discriminate|].
      intros H. rewrite (H x (or_introl eq_refl)) in Hx. discriminate.
    + destruct (findIndex p l); simpl.
      * split; [discriminate|].
        intros H. destruct IH as [_ IH]. 
        assert (@Some nat n = None) by (apply IH; intros y Hy; apply H; now right).
        discriminate.
      * split; [|reflexivity].
        intros _ y [<-|Hy]; [assumption|]. now apply IH.
Qed.

Lemma findIndex_Some (p : A -> bool) (l : list A) (i : nat) :
  findIndex p l = Some i -> exists x, nth_error l i = Some x /\ p x = true.
Proof.
  revert i. induction l as [|x l IH]; simpl; intros i H; [discriminate|].
  destruct (p x) eqn:Hx.
  - injection H as <-. exists x. now split.
  - destruct (findIndex p l) as [j|]; simpl in H; [|discriminate].
    injection H as <-. simpl. now apply IH.
Qed.

Lemma findIndex_existsb (p : A -> bool) (l : list A) :
  existsb p l = match findIndex p l with Some _ => true | None => false end.
Proof.
  induction l as [|x l IH]; simpl; [reflexivity|].
  destruct (p x); simpl; [reflexivity|].
  rewrite IH. now destruct (findIndex p l).
Qed.

Lemma skipn_length_app (l l' : list A) : skipn (List.length l) (l ++ l') = l'.
Proof. induction l; simpl; auto. Qed.

End ListFacts.

Lemma getServers_notify (w : World) :
  getServers (notifyMonitorCallbacks w) = getServers w.
Proof. reflexivity. Qed.

Lemma getServers_setStorage (l : list WooCommerceServer) (w : World) :
  getServers (setStorage l w) = l.
Proof. reflexivity. Qed.

(** A write followed by the broadcast: the events that leave the service. *)
Lemma emitted_write_notify (l : list WooCommerceServer) (w : World) :
  emitted w (notifyMonitorCallbacks (setStorage l w)) =
  SetItem l :: map (fun cb => Notify cb l) (monitorCallbacks w).
Proof.
  unfold emitted, notifyMonitorCallbacks, emit, setStorage; simpl.
  rewrite <- app_assoc. apply skipn_length_app.
Qed.

Lemma emitted_refl (w : World) : emitted w w = [].
Proof.
  unfold emitted. rewrite <- (app_nil_r (trace w)) at 2. apply skipn_length_app.
Qed.

(** C6 as stated fails: [updateServer] with an id that is not in the
    registry is a mutating operation that notifies no observer. *)
Lemma mutating_notifies_counterexample :
  mutating (UpdateServer "no-such-id" Updates.none) = true /\
  ~ notifiesEveryObserver (UpdateServer "no-such-id" Updates.none) oneObserver.
Proof.
  split; [reflexivity|].
  intros H. specialize (H 7 (or_introl eq_refl)).
  vm_compute in H. exact H.
Qed.

(** C6 (amended): [addServer] and [deleteServer] always, [updateServer]
    and [toggleServerActive] when the id is in the registry, write the
    whole collection and then call every registered observer with the
    list read back from storage; [updateServer] and [toggleServerActive]
    with an id that is not in the registry leave the world as it is. *)
Theorem mutating_writes_then_notifies (a : Action) (w : World) :
  mutating a = true ->
  (targetPresent a w = true -> writesThenNotifies a w) /\
  (targetPresent a w = false -> perform a w = w).
Proof.
  intros Hm.
  destruct a as [server uuid|sid upd|sid|sid| | | |]; try discriminate Hm;
    unfold writesThenNotifies, targetPresent; cbn [perform].
  - split; [intros _|discriminate].
    unfold addServer; cbn [snd]. exact (emitted_write_notify _ w).
  - unfold updateServer; cbv zeta. rewrite findIndex_existsb.
    destruct (findIndex (fun s => String.eqb (Server.id s) sid) (getServers w))
      as [i|] eqn:Hi.
    + split; [intros _|discriminate].
      destruct (findIndex_Some _ _ _ Hi) as [old [Hold _]]. rewrite Hold.
      exact (emitted_write_notify _ w).
    + split; [discriminate|reflexivity].
  - split; [intros _|discriminate]. exact (emitted_write_notify _ w).
  - unfold toggleServerActive; cbv zeta. rewrite findIndex_existsb.
    destruct (findIndex (fun s => String.eqb (Server.id s) sid) (getServers w))
      as [i|] eqn:Hi.
    + split; [intros _|discriminate].
      destruct (findIndex_Some _ _ _ Hi) as [old [Hold _]]. rewrite Hold.
      exact (emitted_write_notify _ w).
    + split; [discriminate|reflexivity].
Qed.

Lemma mutating_writes_then_notifies_witness :
  writesThenNotifies (ToggleServerActive "b") twoShops /\
  writesThenNotifies (DeleteServer "a") twoShops /\
  perform (UpdateServer "c" Updates.none) twoShops = twoShops.
Proof.
  split; [|split].
  - apply (proj1 (mutating_writes_then_notifies
                    (ToggleServerActive "b") twoShops eq_refl)).
    reflexivity.
  - apply (proj1 (mutating_writes_then_notifies
                    (DeleteServer "a") twoShops eq_refl)).
    reflexivity.
  - apply (proj2 (mutating_writes_then_notifies
                    (UpdateServer "c" Updates.none) twoShops eq_refl)).
    reflexivity.
Defined.

(** C10: [updateServer] with an id that no record of the registry carries
    is a no-op: storage and every other part of the world are unchanged
    and no event ([setItem] or observer call) is emitted. *)
Theorem updateServer_absent_noop (serverId : string) (updates : Updates.t) (w : World) :
  (forall s, In s (getServers w) -> Server.id s <> serverId) ->
  updateServer serverId updates w = w /\
  storage (updateServer serverId updates w) = storage w /\
  emitted w (updateServer serverId updates w) = [].
Proof.
  intros Habsent.
  assert (E : updateServer serverId updates w = w).
  { unfold updateServer; cbv zeta.
    replace (findIndex (fun s => String.eqb (Server.id s) serverId) (getServers w))
      with (@None nat); [reflexivity|].
    symmetry. apply findIndex_None. intros s Hs.
    apply String.eqb_neq. now apply Habsent. }
  rewrite E. repeat split. apply emitted_refl.
Qed.

Lemma updateServer_absent_noop_witness :
  updateServer "c" Updates.none twoShops = twoShops /\
  storage (updateServer "c" Updates.none twoShops) = storage twoShops /\
  emitted twoShops (updateServer "c" Updates.none twoShops) = [].
Proof.
  apply (updateServer_absent_noop "c"%string Updates.none twoShops).
  intros s [<-|[<-|[]]]; discriminate.
Defined.

(** C9 as stated fails: [addServer] compares the token of
    [crypto.randomUUID()] with nothing; when the generator yields the id
    of a registered record, the added record carries that same id. *)
Lemma addServer_distinct_counterexample :
  ~ addedIdDistinct shopC "3f2b8c1e-5d4a-4e6f-9a7b-0c1d2e3f4a5b" oneShop.
Proof.
  intros H. apply (H shopU); [now left | reflexivity].
Qed.

(** C9 (amended): [addServer] returns and persists (as the last record
    of the stored collection) a record whose id is the token generated by
    [crypto.randomUUID()], whose [isActive] is [true] and whose [status]
    is ['offline'], every other field being the input's.  The id is
    distinct from every id of the registry whenever the generated token
    is ([addServer] itself makes no comparison), and then ids that were
    pairwise distinct stay so. *)
Theorem addServer_record (server : NewServer.t) (uuid : string) (w : World) :
  let newServer := fst (addServer server uuid w) in
  let w' := snd (addServer server uuid w) in
  Server.id newServer = uuid /\
  Server.isActive newServer = true /\
  Server.status newServer = Some offline /\
  (Server.name newServer = NewServer.name server /\
   Server.url newServer = NewServer.url server /\
   Server.consumerKey newServer = NewServer.consumerKey server /\
   Server.consumerSecret newServer = NewServer.consumerSecret server /\
   Server.lastChecked newServer = NewServer.lastChecked server /\
   Server.errorMessage newServer = NewServer.errorMessage server /\
   Server.responseTime newServer = NewServer.responseTime server) /\
  storage w' = Some (getServers w ++ [newServer]) /\
  getServers w' = getServers w ++ [newServer] /\
  (~ In uuid (map Server.id (getServers w)) ->
   (forall s, In s (getServers w) -> Server.id s <> Server.id newServer) /\
   (NoDup (map Server.id (getServers w)) -> NoDup (map Server.id (getServers w')))).
Proof.
  cbv zeta. unfold addServer; cbn [fst snd].
  do 5 (split; [repeat split|]). split; [reflexivity|].
  intros Hfresh. split.
  - intros s Hs Heq. apply Hfresh. cbn [Server.id] in Heq. rewrite <- Heq.
    now apply in_map.
  - intros Hnd. rewrite getServers_notify, getServers_setStorage.
    rewrite map_app. cbn [map Server.id].
    apply NoDup_app; [assumption|repeat constructor; intros []|].
    intros x Hx [<-|[]]. contradiction.
Qed.

Lemma addServer_record_witness :
  Server.id (fst (addServer shopC "c" twoShops)) = "c"%string /\
  Server.isActive (fst (addServer shopC "c" twoShops)) = true /\
  Server.status (fst (addServer shopC "c" twoShops)) = Some offline /\
  storage (snd (addServer shopC "c" twoShops)) =
    Some [shopA; shopB; fst (addServer shopC "c" twoShops)] /\
  NoDup (map Server.id (getServers (snd (addServer shopC "c" twoShops)))).
Proof.
  assert (Hfresh : ~ In "c"%string (map Server.id (getServers twoShops))).
  { intros [H|[H|[]]]; discriminate H. }
  assert (Hnd : NoDup (map Server.id (getServers twoShops))).
  { repeat constructor; simpl; intuition discriminate. }
  pose proof (addServer_record shopC "c"%string twoShops) as H.
  cbv zeta in H.
  destruct H as (Hid & Hact & Hst & _ & Hsto & _ & Hdistinct).
  destruct (Hdistinct Hfresh) as [_ Hkeep].
  repeat split; try assumption. now apply Hkeep.
Defined.

(* ===================================================================== *)
(** * Properties of the health check                                       *)
(* ===================================================================== *)

(** The body of [checkServerWithRetry], as one equation. *)
Lemma checkServerWithRetry_unfold (probe : nat -> Attempt) (retryCount : nat) :
  checkServerWithRetry probe retryCount =
  match outcome (probe retryCount) with
  | Response httpStatus => (onResponse httpStatus (elapsed (probe retryCount)), 1)
  | Throws e =>
      if isTimeout e && (retryCount <? MAX_RETRIES)
      then let (result, requests) := checkServerWithRetry probe (retryCount + 1) in
           (result, S requests)
      else (onFinalFailure e retryCount (elapsed (probe retryCount)), 1)
  end.
Proof.
  funelim (checkServerWithRetry probe retryCount);
    repeat match goal with
           | H : outcome _ = _ |- _ => rewrite H; clear H
           | H : isTimeout _ = _ |- _ => rewrite H; clear H
           end;
    try reflexivity;
    destruct (Nat.ltb_spec retryCount MAX_RETRIES); try lia; try reflexivity.
  now rewrite andb_false_r.
Qed.

(** The result is built from the last attempt alone, and every request
    before the last was a timeout answered with a retry. *)
Lemma checkServerWithRetry_final (probe : nat -> Attempt) (retryCount : nat) :
  let result := fst (checkServerWithRetry probe retryCount) in
  let requests := snd (checkServerWithRetry probe retryCount) in
  let k := retryCount + requests - 1 in
  1 <= requests /\
  (forall j, retryCount <= j < k -> timedOut (probe j) = true /\ j < MAX_RETRIES) /\
  match outcome (probe k) with
  | Response httpStatus => result = onResponse httpStatus (elapsed (probe k))
  | Throws e =>
      result = onFinalFailure e k (elapsed (probe k)) /\
      (isTimeout e = true -> MAX_RETRIES <= k)
  end.
Proof.
  remember (MAX_RETRIES - retryCount) as fuel eqn:Hfuel.
  revert retryCount Hfuel.
  induction fuel as [fuel IH] using lt_wf_ind; intros retryCount Hfuel.
  rewrite checkServerWithRetry_unfold.
  destruct (outcome (probe retryCount)) as [httpStatus|e] eqn:Hout.
  - cbn [fst snd]; cbv zeta.
    replace (retryCount + 1 - 1) with retryCount by lia.
    rewrite Hout. repeat split; lia.
  - destruct (isTimeout e) eqn:Htime;
      destruct (Nat.ltb_spec retryCount MAX_RETRIES) as [Hlt|Hge]; cbn [andb].
    + specialize (IH (MAX_RETRIES - (retryCount + 1)) ltac:(lia)
                     (retryCount + 1) eq_refl).
      cbv zeta in IH.
      destruct (checkServerWithRetry probe (retryCount + 1)) as [result requests].
      cbn [fst snd] in *; cbv zeta.
      destruct IH as (Hone & Hbefore & Hlast).
      replace (retryCount + S requests - 1) with (retryCount + 1 + requests - 1) by lia.
      split; [lia|]. split; [|exact Hlast].
      intros j Hj. destruct (Nat.eq_dec j retryCount) as [->|Hne].
      * unfold timedOut. rewrite Hout. split; assumption.
      * apply Hbefore. lia.
    + cbn [fst snd]; cbv zeta.
      replace (retryCount + 1 - 1) with retryCount by lia.
      rewrite Hout. repeat split; lia.
    + cbn [fst snd]; cbv zeta.
      replace (retryCount + 1 - 1) with retryCount by lia.
      rewrite Hout, Htime. repeat split; try lia; discriminate.
    + cbn [fst snd]; cbv zeta.
      replace (retryCount + 1 - 1) with retryCount by lia.
      rewrite Hout, Htime. repeat split; try lia; discriminate.
Qed.

Lemma requestsIssued_bound (probe : nat -> Attempt) :
  requestsIssued probe <= 1 + MAX_RETRIES.
Proof.
  pose proof (checkServerWithRetry_final probe 0) as H. cbv zeta in H.
  destruct H as (Hone & Hbefore & _).
  fold (requestsIssued probe) in *.
  destruct (Nat.le_gt_cases (requestsIssued probe) 1) as [Hle|Hgt]; [lia|].
  destruct (Hbefore (requestsIssued probe - 2)) as [_ Hlt]; lia.
Qed.

(** C3: two timeouts followed by a 200 response end [online]; three
    timeouts end [offline] with the message of the last error followed by
    " (after 3 attempts)"; whatever the environment answers, no more
    than [1 + MAX_RETRIES = 3] requests are issued, i.e. at most 2
    retries. *)
Theorem health_check_retry (probe : nat -> Attempt) :
  (timedOut (probe 0) = true -> timedOut (probe 1) = true ->
   outcome (probe 2) = Response 200 ->
   r_status (checkServerStatus probe) = online /\
   requestsIssued probe = 3) /\
  (forall message,
     timedOut (probe 0) = true -> timedOut (probe 1) = true ->
     outcome (probe 2) = Throws (ErrorObj message) ->
     isTimeout (ErrorObj message) = true ->
     r_status (checkServerStatus probe) = offline /\
     r_errorMessage (checkServerStatus probe) =
       Some (String.append message " (after 3 attempts)") /\
     requestsIssued probe = 3) /\
  requestsIssued probe <= 3 /\
  requestsIssued probe - 1 <= MAX_RETRIES.
Proof.
  assert (Hstep : forall k, k < MAX_RETRIES -> timedOut (probe k) = true ->
            checkServerWithRetry probe k =
            (fst (checkServerWithRetry probe (k + 1)),
             S (snd (checkServerWithRetry probe (k + 1))))).
  { intros k Hk Ht. rewrite (checkServerWithRetry_unfold probe k).
    unfold timedOut in Ht. destruct (outcome (probe k)) as [|e]; [discriminate|].
    rewrite Ht. destruct (Nat.ltb_spec k MAX_RETRIES); [|lia].
    cbn [andb]. now destruct (checkServerWithRetry probe (k + 1)). }
  unfold checkServerStatus, requestsIssued.
  split; [|split].
  - intros H0 H1 H2.
    rewrite (Hstep 0) by (assumption || (unfold MAX_RETRIES; lia)).
    cbn [fst snd Nat.add].
    rewrite (Hstep 1) by (assumption || (unfold MAX_RETRIES; lia)).
    cbn [fst snd Nat.add]. rewrite (checkServerWithRetry_unfold probe 2), H2.
    split; reflexivity.
  - intros message H0 H1 H2 Ht.
    rewrite (Hstep 0) by (assumption || (unfold MAX_RETRIES; lia)).
    cbn [fst snd Nat.add].
    rewrite (Hstep 1) by (assumption || (unfold MAX_RETRIES; lia)).
    cbn [fst snd Nat.add]. rewrite (checkServerWithRetry_unfold probe 2), H2, Ht.
    cbn [andb Nat.ltb Nat.leb MAX_RETRIES fst snd].
    unfold onFinalFailure, isNetworkError. cbn [r_status r_errorMessage].
    rewrite Ht, orb_true_r. repeat split.
  - pose proof (requestsIssued_bound probe) as Hb.
    unfold requestsIssued, MAX_RETRIES in *. lia.
Qed.

Lemma health_check_retry_witness :
  (r_status (checkServerStatus (timeoutsThen (mkAttempt (Response 200) 180))) = online /\
   requestsIssued (timeoutsThen (mkAttempt (Response 200) 180)) = 3) /\
  (r_status (checkServerStatus
      (timeoutsThen (mkAttempt (Throws (ErrorObj "timeout of 10000ms exceeded")) 10002)))
     = offline /\
   r_errorMessage (checkServerStatus
      (timeoutsThen (mkAttempt (Throws (ErrorObj "timeout of 10000ms exceeded")) 10002)))
     = Some "timeout of 10000ms exceeded (after 3 attempts)"%string /\
   requestsIssued
      (timeoutsThen (mkAttempt (Throws (ErrorObj "timeout of 10000ms exceeded")) 10002))
     = 3).
Proof.
  split.
  - apply (proj1 (health_check_retry (timeoutsThen (mkAttempt (Response 200) 180))));
      reflexivity.
  - apply (proj1 (proj2 (health_check_retry
        (timeoutsThen (mkAttempt (Throws (ErrorObj "timeout of 10000ms exceeded")) 10002))))
        "timeout of 10000ms exceeded"%string); reflexivity.
Defined.

(** C4 as stated fails: after a timeout and one retry, a rejection with a
    value that is not an [Error] is reported as 'Unknown error occurred',
    with no attempt count although a retry was made. *)
Lemma failure_report_counterexample :
  ~ failureReportAsClaimed timeoutThenNonError.
Proof.
  intros H.
  assert (Hlast : lastAttempt timeoutThenNonError = 1) by reflexivity.
  specialize (H NonError). rewrite Hlast in H. specialize (H eq_refl).
  cbv zeta in H. destruct H as (_ & _ & message & Hmsg & Hcount).
  assert (Hres : r_errorMessage (checkServerStatus timeoutThenNonError)
                 = Some "Unknown error occurred"%string) by reflexivity.
  rewrite Hres in Hmsg. injection Hmsg as <-.
  destruct Hcount as [_ Hcount].
  specialize (Hcount (Nat.lt_0_1)). vm_compute in Hcount. discriminate Hcount.
Qed.

(** What [checkServerStatus] returns, read off the last request. *)
Lemma checkServerStatus_last (probe : nat -> Attempt) :
  match outcome (probe (lastAttempt probe)) with
  | Response httpStatus =>
      checkServerStatus probe
      = onResponse httpStatus (elapsed (probe (lastAttempt probe)))
  | Throws e =>
      checkServerStatus probe
      = onFinalFailure e (lastAttempt probe) (elapsed (probe (lastAttempt probe)))
  end.
Proof.
  pose proof (checkServerWithRetry_final probe 0) as H. cbv zeta in H.
  fold (requestsIssued probe) in H. fold (checkServerStatus probe) in H.
  cbn [Nat.add] in H. fold (lastAttempt probe) in H.
  destruct H as (_ & _ & H).
  destruct (outcome (probe (lastAttempt probe))); [exact H | exact (proj1 H)].
Qed.

(** A response whose status is not 200 is reported as [error] with a
    fixed message, whatever the number of retries before it. *)
Lemma unexpected_status_report (probe : nat -> Attempt) (httpStatus : Z) :
  outcome (probe (lastAttempt probe)) = Response httpStatus ->
  httpStatus <> 200%Z ->
  r_status (checkServerStatus probe) = error /\
  r_errorMessage (checkServerStatus probe)
    = Some "Server returned unexpected status"%string.
Proof.
  intros Hlast Hne.
  pose proof (checkServerStatus_last probe) as H. rewrite Hlast in H. rewrite H.
  unfold onResponse; cbn [r_status r_errorMessage].
  apply Z.eqb_neq in Hne. now rewrite Hne.
Qed.

Lemma append_empty (s : string) : String.append s "" = s.
Proof. induction s as [|c s IH]; [reflexivity|]. cbn [String.append]. now rewrite IH. Qed.

Lemma isNetworkError_true_iff (e : Thrown) :
  isNetworkError e = true <->
  exists message,
    e = ErrorObj message /\
    (includes message "Network Error" = true \/
     includes message "timeout" = true \/
     includes message "ECONNABORTED" = true).
Proof.
  destruct e as [message|]; cbn [isNetworkError isTimeout].
  - rewrite !orb_true_iff. split.
    + intros H. exists message. split; [reflexivity | exact H].
    + intros (m & Hm & H). injection Hm as <-. exact H.
  - split; [discriminate|]. intros (m & Hm & _). discriminate Hm.
Qed.

Lemma isNetworkError_false_iff (e : Thrown) :
  isNetworkError e = false <->
  e = NonError \/
  exists message,
    e = ErrorObj message /\
    includes message "Network Error" = false /\
    includes message "timeout" = false /\
    includes message "ECONNABORTED" = false.
Proof.
  destruct e as [message|]; cbn [isNetworkError isTimeout].
  - rewrite !orb_false_iff. split.
    + intros H. right. exists message. split; [reflexivity | exact H].
    + intros [H|(m & Hm & H)]; [discriminate H|]. injection Hm as <-. exact H.
  - split; [now left | reflexivity].
Qed.

(** C4 (amended): a probe ends in failure (a status other than
    [online]) either because its last request was rejected or because it
    was answered with an HTTP status other than 200.  For a rejected
    request the status is [offline] exactly when the thrown value is an
    [Error] whose message contains 'Network Error', 'timeout' or
    'ECONNABORTED', and [error] for every other thrown value; for an
    [Error] the reported message is the error's message, followed by
    " (after N attempts)" (N the number of requests) exactly when a retry
    was made; for a thrown value that is not an [Error] the status is
    [error] and the message is 'Unknown error occurred', with no attempt
    count.  For a response other than 200 the status is [error] and the
    message is 'Server returned unexpected status', with no attempt count
    either. *)
Theorem failure_report (probe : nat -> Attempt) :
  let result := checkServerStatus probe in
  let last := probe (lastAttempt probe) in
  (r_status result <> online ->
   (exists e, outcome last = Throws e) \/
   (exists httpStatus, outcome last = Response httpStatus /\ httpStatus <> 200%Z)) /\
  (forall e, outcome last = Throws e ->
     (r_status result = offline <->
      exists message,
        e = ErrorObj message /\
        (includes message "Network Error" = true \/
         includes message "timeout" = true \/
         includes message "ECONNABORTED" = true)) /\
     (r_status result = error <->
      e = NonError \/
      exists message,
        e = ErrorObj message /\
        includes message "Network Error" = false /\
        includes message "timeout" = false /\
        includes message "ECONNABORTED" = false) /\
     (forall message, e = ErrorObj message ->
        (0 < lastAttempt probe ->
         r_errorMessage result
         = Some (String.append message
                   (" (after " ++ showNat (requestsIssued probe) ++ " attempts)")%string)) /\
        (lastAttempt probe = 0 -> r_errorMessage result = Some message)) /\
     (e = NonError ->
      r_status result = error /\
      r_errorMessage result = Some "Unknown error occurred"%string)) /\
  (forall httpStatus, outcome last = Response httpStatus -> httpStatus <> 200%Z ->
     r_status result = error /\
     r_errorMessage result = Some "Server returned unexpected status"%string).
Proof.
  cbv zeta. pose proof (checkServerStatus_last probe) as Hlast.
  split; [|split].
  - intros Hfail. destruct (outcome (probe (lastAttempt probe))) as [httpStatus|e].
    + right. exists httpStatus. split; [reflexivity|]. intros ->.
      apply Hfail. now rewrite Hlast.
    + left. now exists e.
  - intros e He. rewrite He in Hlast. rewrite Hlast.
    unfold onFinalFailure; cbn [r_status r_errorMessage].
    split; [|split; [|split]].
    + rewrite <- isNetworkError_true_iff.
      destruct (isNetworkError e); split; congruence.
    + rewrite <- isNetworkError_false_iff.
      destruct (isNetworkError e); split; congruence.
    + intros message ->. split.
      * intros Hretry. apply Nat.ltb_lt in Hretry. rewrite Hretry.
        unfold attemptsSuffix, lastAttempt.
        replace (requestsIssued probe - 1 + 1) with (requestsIssued probe);
          [reflexivity|].
        apply Nat.ltb_lt in Hretry. unfold lastAttempt in Hretry. lia.
      * intros ->. cbn [Nat.ltb Nat.leb]. now rewrite append_empty.
    + intros ->. split; reflexivity.
  - intros httpStatus Hresp Hne. now apply (unexpected_status_report probe httpStatus).
Qed.

Lemma failure_report_witness :
  r_status (checkServerStatus (fun _ => mkAttempt (Throws (ErrorObj "Network Error")) 31))
    = offline /\
  r_errorMessage (checkServerStatus (fun _ => mkAttempt (Throws (ErrorObj "Network Error")) 31))
    = Some "Network Error"%string /\
  r_status (checkServerStatus timeoutThen204) = error /\
  r_errorMessage (checkServerStatus timeoutThen204)
    = Some "Server returned unexpected status"%string.
Proof.
  pose proof (failure_report (fun _ => mkAttempt (Throws (ErrorObj "Network Error")) 31))
    as H.
  cbv zeta in H. destruct H as (_ & H & _).
  destruct (H (ErrorObj "Network Error") eq_refl) as (Hoff & _ & Hmsg & _).
  split.
  { apply Hoff. exists "Network Error"%string. split; [reflexivity|]. now left. }
  split.
  { exact (proj2 (Hmsg "Network Error"%string eq_refl) eq_refl). }
  pose proof (failure_report timeoutThen204) as H'.
  cbv zeta in H'. destruct H' as (_ & _ & H').
  apply (H' 204%Z); [reflexivity | discriminate].
Defined.

(* ===================================================================== *)
(** * Properties of the monitor                                            *)
(* ===================================================================== *)

Lemma optEqb_true_iff {A} (eqb : A -> A -> bool) (a b : option A) :
  (forall x y, eqb x y = true <-> x = y) ->
  optEqb eqb a b = true <-> a = b.
Proof.
  intros Heqb. destruct a as [x|], b as [y|]; simpl.
  - rewrite Heqb. split; congruence.
  - split; discriminate.
  - split; discriminate.
  - split; reflexivity.
Qed.

Lemma Status_eqb_eq (a b : Status) : Status_eqb a b = true <-> a = b.
Proof. destruct a, b; simpl; split; congruence. Qed.

Lemma differs_false_iff (server : WooCommerceServer) (result : CheckResult) :
  differs server result = false <-> sameAsStored server result.
Proof.
  unfold differs, sameAsStored.
  rewrite !orb_false_iff, !negb_false_iff.
  rewrite (optEqb_true_iff Status_eqb _ _ Status_eqb_eq).
  rewrite (optEqb_true_iff String.eqb _ _ String.eqb_eq).
  rewrite (optEqb_true_iff Z.eqb _ _ Z.eqb_eq).
  tauto.
Qed.

Lemma settleOne_same (w : World) (hasChanges : bool) (c : Checked) :
  sameAsStored (c_server c) (c_result c) ->
  settleOne (w, hasChanges) c = (w, hasChanges).
Proof.
  intros H. apply differs_false_iff in H. unfold settleOne. now rewrite H.
Qed.

Lemma fold_settleOne_same (results : list Checked) (w : World) (hasChanges : bool) :
  (forall c, In c results -> sameAsStored (c_server c) (c_result c)) ->
  fold_left settleOne results (w, hasChanges) = (w, hasChanges).
Proof.
  induction results as [|c results IH]; intros H; [reflexivity|].
  cbn [fold_left]. rewrite settleOne_same by (apply H; now left).
  apply IH. intros c' Hc'. apply H. now right.
Qed.

Lemma settleChecks_same (results : list Checked) (w : World) :
  (forall c, In c results -> sameAsStored (c_server c) (c_result c)) ->
  settleChecks results w = w.
Proof.
  intros H. unfold settleChecks. now rewrite fold_settleOne_same.
Qed.

Lemma In_mapiFrom {A B} (f : nat -> A -> B) (l : list A) (start : nat) (y : B) :
  In y (mapiFrom start f l) ->
  exists i x, nth_error l i = Some x /\ y = f (start + i) x.
Proof.
  revert start. induction l as [|x l IH]; intros start; simpl; [intros []|].
  intros [<-|Hy].
  - exists 0, x. split; [reflexivity|]. now rewrite Nat.add_0_r.
  - destruct (IH _ Hy) as (i & x' & Hnth & ->).
    exists (S i), x'. split; [assumption|]. f_equal. lia.
Qed.

(** The overlapping runs are runs the service can make. *)
Lemma secondRunPending_reached :
  run unreached overlappingRuns = Some secondRunPending /\
  reachable secondRunPending /\
  inflight secondRunPending = [[shopB]].
Proof.
  split; [reflexivity|]. split; [|reflexivity].
  unfold secondRunPending.
  apply reach_step; [|reflexivity].
  apply reach_step; [|reflexivity].
  apply reach_step; [|reflexivity].
  apply reach_init.
Qed.

(** C5 as stated fails: the comparison is made with the record the run
    read before its probes were awaited, not with what is stored when they
    settle.  When two runs overlap and the first has stored the new
    values, the second finds the stored status, message and response time
    identical to its fresh ones and still writes the collection and calls
    the observer (twice). *)
Lemma monitor_idempotent_counterexample :
  reachable secondRunPending /\
  ~ silentWhenStoredAlike
      (probeAll steadyProbes someClock (nth 0 (inflight secondRunPending) []))
      secondRunPending.
Proof.
  split; [exact (proj1 (proj2 secondRunPending_reached))|].
  intros H.
  assert (Hemitted :
    List.length
      (emitted secondRunPending
         (settleChecks
            (probeAll steadyProbes someClock (nth 0 (inflight secondRunPending) []))
            secondRunPending)) = 3) by reflexivity.
  rewrite H in Hemitted; [discriminate Hemitted|].
  intros c [<-|[]] stored [<-|[]] _. repeat split.
Qed.

(** C5 (amended): a store whose freshly derived status, error message
    and response time are the ones of the record the run read from storage
    when it started (before its probes were awaited) makes
    [checkAllServersStatus] write nothing and call no observer; when this
    holds of every store of the snapshot the whole run leaves the world
    (storage and trace of events) as it was, whatever happened while the
    probes were awaited; and a run that does emit an event has a store
    for which one of the three fields differs from that record. *)
Theorem monitor_idempotent :
  (forall (c : Checked) (w : World) (hasChanges : bool),
     sameAsStored (c_server c) (c_result c) ->
     settleOne (w, hasChanges) c = (w, hasChanges)) /\
  (forall (results : list Checked) (w : World),
     (forall c, In c results -> sameAsStored (c_server c) (c_result c)) ->
     settleChecks results w = w /\ emitted w (settleChecks results w) = []) /\
  (forall (results : list Checked) (w : World),
     emitted w (settleChecks results w) <> [] ->
     exists c, In c results /\ ~ sameAsStored (c_server c) (c_result c)) /\
  (forall (probes : nat -> nat -> Attempt) (clock : nat -> string)
          (snapshot : list WooCommerceServer) (w : World),
     (forall i server, nth_error snapshot i = Some server ->
                       sameAsStored server (checkServerStatus (probes i))) ->
     checkAllServersStatus probes clock snapshot w = w /\
     emitted w (checkAllServersStatus probes clock snapshot w) = []).
Proof.
  split; [|split; [|split]].
  - intros c w hasChanges. apply settleOne_same.
  - intros results w H. rewrite settleChecks_same by assumption.
    split; [reflexivity | apply emitted_refl].
  - intros results w Hemit.
    destruct (existsb (fun c => differs (c_server c) (c_result c)) results) eqn:Hex.
    + apply existsb_exists in Hex. destruct Hex as (c & Hin & Hd).
      exists c. split; [assumption|]. intros Hsame.
      apply differs_false_iff in Hsame. congruence.
    + exfalso. apply Hemit. rewrite settleChecks_same; [apply emitted_refl|].
      intros c Hc. apply differs_false_iff.
      destruct (differs (c_server c) (c_result c)) eqn:Hd; [|reflexivity].
      assert (existsb (fun c => differs (c_server c) (c_result c)) results = true)
        by (apply existsb_exists; eauto).
      congruence.
  - intros probes clock snapshot w H. unfold checkAllServersStatus.
    rewrite settleChecks_same; [split; [reflexivity | apply emitted_refl]|].
    intros c Hc. unfold probeAll, mapi in Hc.
    apply In_mapiFrom in Hc. destruct Hc as (i & server & Hnth & ->).
    cbn [c_server c_result Nat.add]. now apply H.
Qed.

(** The snapshot holds the steady store; in between the store was
    switched off and another one added: the run still changes nothing. *)
Lemma monitor_idempotent_witness :
  checkAllServersStatus steadyProbes someClock [steadyShop] steadyWorld = steadyWorld /\
  checkAllServersStatus steadyProbes someClock [steadyShop]
    (perform (AddServer shopC "c") (perform (ToggleServerActive "a") steadyWorld))
  = perform (AddServer shopC "c") (perform (ToggleServerActive "a") steadyWorld).
Proof.
  assert (Hsame : forall i server, nth_error [steadyShop] i = Some server ->
                    sameAsStored server (checkServerStatus (steadyProbes i))).
  { intros [|[|i]] server Hnth; try discriminate Hnth.
    injection Hnth as <-. repeat split. }
  split.
  - apply (proj2 (proj2 (proj2 monitor_idempotent)) steadyProbes someClock
             [steadyShop] steadyWorld Hsame).
  - apply (proj2 (proj2 (proj2 monitor_idempotent)) steadyProbes someClock
             [steadyShop]
             (perform (AddServer shopC "c") (perform (ToggleServerActive "a") steadyWorld))
             Hsame).
Defined.

(** ** The interval's life cycle *)

Lemma monitorPart_updateServer (serverId : string) (updates : Updates.t) (w : World) :
  monitorPart (updateServer serverId updates w) = monitorPart w.
Proof.
  unfold updateServer; cbv zeta.
  destruct (findIndex _ _) as [i|]; [|reflexivity].
  destruct (nth_error _ _); reflexivity.
Qed.

Lemma monitorPart_toggleServerActive (serverId : string) (w : World) :
  monitorPart (toggleServerActive serverId w) = monitorPart w.
Proof.
  unfold toggleServerActive; cbv zeta.
  destruct (findIndex _ _) as [i|]; [|reflexivity].
  destruct (nth_error _ _); reflexivity.
Qed.

Lemma monitorPart_fold_settleOne (results : list Checked) (w : World) (hasChanges : bool) :
  monitorPart (fst (fold_left settleOne results (w, hasChanges))) = monitorPart w.
Proof.
  revert w hasChanges. induction results as [|c results IH]; intros w hasChanges.
  - reflexivity.
  - cbn [fold_left]. unfold settleOne at 2.
    destruct (differs (c_server c) (c_result c)); rewrite IH.
    + apply monitorPart_updateServer.
    + reflexivity.
Qed.

Lemma monitorPart_settleChecks (results : list Checked) (w : World) :
  monitorPart (settleChecks results w) = monitorPart w.
Proof.
  unfold settleChecks.
  pose proof (monitorPart_fold_settleOne results w false) as H.
  destruct (fold_left settleOne results (w, false)) as [w' hasChanges].
  cbn [fst] in H. now destruct hasChanges.
Qed.

(** Only [startMonitoring] and [stopMonitoring] touch the interval, the
    observers and the window's timers. *)
Lemma monitorPart_perform (a : Action) (w : World) :
  match a with
  | StartMonitoring _ | StopMonitoring _ => True
  | _ => monitorPart (perform a w) = monitorPart w
  end.
Proof.
  destruct a; cbn [perform]; try exact I; try reflexivity.
  - apply monitorPart_updateServer.
  - apply monitorPart_toggleServerActive.
  - rewrite monitorPart_settleChecks. reflexivity.
Qed.

Lemma monitorInvariant_monitorPart (w w' : World) :
  monitorPart w' = monitorPart w -> monitorInvariant w -> monitorInvariant w'.
Proof.
  unfold monitorPart, monitorInvariant. intros H. injection H as -> -> ->. tauto.
Qed.

Lemma monitorInvariant_start (callback : option ServerMonitorCallback) (w : World) :
  monitorInvariant w -> monitorInvariant (startMonitoring callback w).
Proof.
  unfold monitorInvariant, startMonitoring. intros [Htimers Hobs].
  destruct callback as [cb|]; cbn [pushCallback monitoringInterval];
    destruct (monitoringInterval w) as [handle|] eqn:Hint;
    cbn [timers monitoringInterval monitorCallbacks launchCheck nextTimer pushCallback].
  - split; [assumption | discriminate].
  - rewrite Htimers. split; [reflexivity | discriminate].
  - rewrite Hint. split; [assumption | discriminate].
  - rewrite Htimers. split; [reflexivity | discriminate].
Qed.

Lemma stopMonitoring_shape (callback : option ServerMonitorCallback) (w : World) :
  monitorInvariant w ->
  monitorInvariant (stopMonitoring callback w) /\
  (monitorCallbacks (stopMonitoring callback w) = [] ->
   monitoringInterval (stopMonitoring callback w) = None /\
   timers (stopMonitoring callback w) = []).
Proof.
  unfold monitorInvariant, stopMonitoring. intros [Htimers Hobs].
  set (w1 := dropCallback callback w).
  assert (Hint : monitoringInterval w1 = monitoringInterval w)
    by (destruct callback; reflexivity).
  assert (Ht : timers w1 = timers w) by (destruct callback; reflexivity).
  destruct (monitorCallbacks w1) as [|cb rest] eqn:Hcbs.
  - destruct (monitoringInterval w1) as [handle|] eqn:Hw1;
      cbn [timers monitoringInterval monitorCallbacks].
    + rewrite Ht, Htimers, <- Hint. cbn [filter fst].
      rewrite Nat.eqb_refl. cbn [negb].
      repeat split; try reflexivity. intros H; now elim H.
    + rewrite Hcbs, Hw1, Ht, Htimers, <- Hint.
      repeat split; try reflexivity. intros H; now elim H.
  - rewrite Hcbs, Ht, Hint. split; [|discriminate].
    split; [assumption|]. intros _.
    apply Hobs. intros Hnil.
    unfold w1 in Hcbs.
    destruct callback as [callback|]; cbn [dropCallback monitorCallbacks] in Hcbs;
      rewrite Hnil in Hcbs; discriminate Hcbs.
Qed.

Lemma reachable_monitorInvariant (w : World) :
  reachable w -> monitorInvariant w.
Proof.
  induction 1 as [|w a Hreach IH Hen].
  - split; [reflexivity | intros H; now elim H].
  - pose proof (monitorPart_perform a w) as Hframe.
    destruct a; try (now apply (monitorInvariant_monitorPart w _ Hframe)).
    + now apply monitorInvariant_start.
    + now apply stopMonitoring_shape.
Qed.

(** Once no interval is live, only [startMonitoring] can make the window
    fire again. *)
Lemma run_without_timers (actions : list Action) (w w' : World) :
  timers w = [] ->
  run w actions = Some w' ->
  existsb isStart actions = false ->
  existsb isTick actions = false.
Proof.
  revert w. induction actions as [|a actions IH]; intros w Ht Hrun Hstart;
    [reflexivity|].
  cbn [run] in Hrun. cbn [existsb] in *.
  apply orb_false_iff in Hstart. destruct Hstart as [Ha Hrest].
  destruct (enabled a w) eqn:Hen; [|discriminate].
  assert (Htick : isTick a = false).
  { destruct a; try reflexivity. cbn [enabled] in Hen. rewrite Ht in Hen.
    discriminate Hen. }
  rewrite Htick. cbn [orb].
  apply (IH (perform a w)); try assumption.
  pose proof (monitorPart_perform a w) as Hframe.
  destruct a as [server uuid|sid upd|sid|sid|callback|callback|handle|k probes clock];
    try discriminate Ha;
    try (apply (f_equal snd) in Hframe; cbn [snd monitorPart] in Hframe;
         rewrite Hframe; assumption).
  cbn [perform]. unfold stopMonitoring.
  set (w1 := dropCallback callback w).
  assert (Ht1 : timers w1 = []) by (destruct callback; assumption).
  destruct (monitorCallbacks w1); [|assumption].
  destruct (monitoringInterval w1); [|assumption].
  cbn [timers]. now rewrite Ht1.
Qed.

(** C8: in every world the service can reach, the interval runs (the
    window holds it as a live timer of 5000 ms, able to fire) whenever an
    observer is registered; a [stopMonitoring] that leaves no observer
    clears it: the service forgets the handle, the window holds no live
    timer, no tick can fire, and none fires later unless
    [startMonitoring] is called again. *)
Theorem monitoring_interval_lifecycle (w : World) :
  reachable w ->
  (monitorCallbacks w <> [] ->
   exists handle,
     monitoringInterval w = Some handle /\
     timers w = [(handle, 5000%Z)] /\
     enabled (Tick handle) w = true) /\
  (forall callback,
     monitorCallbacks (stopMonitoring callback w) = [] ->
     monitoringInterval (stopMonitoring callback w) = None /\
     timers (stopMonitoring callback w) = [] /\
     (forall handle, enabled (Tick handle) (stopMonitoring callback w) = false) /\
     (forall actions w',
        run (stopMonitoring callback w) actions = Some w' ->
        existsb isStart actions = false ->
        existsb isTick actions = false)).
Proof.
  intros Hreach. pose proof (reachable_monitorInvariant w Hreach) as Hinv.
  split.
  - intros Hobs. destruct Hinv as [Htimers Hrun].
    specialize (Hrun Hobs).
    destruct (monitoringInterval w) as [handle|]; [|now elim Hrun].
    exists handle. repeat split; [assumption|].
    cbn [enabled]. rewrite Htimers. cbn [existsb fst].
    now rewrite Nat.eqb_refl.
  - intros callback Hnone.
    destruct (stopMonitoring_shape callback w Hinv) as [_ Hstop].
    destruct (Hstop Hnone) as [Hint Ht].
    repeat split; try assumption.
    + intros handle. cbn [enabled]. now rewrite Ht.
    + intros actions w'. now apply run_without_timers.
Qed.

Lemma reachable_run (actions : list Action) (w w' : World) :
  reachable w -> run w actions = Some w' -> reachable w'.
Proof.
  revert w. induction actions as [|a actions IH]; intros w Hreach Hrun.
  - injection Hrun as <-. assumption.
  - cbn [run] in Hrun. destruct (enabled a w) eqn:Hen; [|discriminate].
    apply (IH (perform a w)); [|assumption]. now constructor.
Qed.

Lemma monitoring_interval_lifecycle_witness :
  (exists handle,
     monitoringInterval watched = Some handle /\
     timers watched = [(handle, 5000%Z)] /\
     enabled (Tick handle) watched = true) /\
  monitoringInterval (stopMonitoring (Some 7) watched) = None /\
  timers (stopMonitoring (Some 7) watched) = [].
Proof.
  assert (Hreach : reachable watched).
  { apply (reach_step (initialWorld (Some [shopA; shopB])) (StartMonitoring (Some 7))
             (reach_init _) eq_refl). }
  destruct (monitoring_interval_lifecycle watched Hreach) as [Hrun Hstop].
  split.
  - apply Hrun. discriminate.
  - destruct (Hstop (Some 7) eq_refl) as (Hint & Ht & _). split; assumption.
Defined.

(* ===================================================================== *)
(** * Properties of the fetch aggregator                                   *)
(* ===================================================================== *)

Section MergeFacts.
Context {E K : Type} (key : E -> K) (same : E -> E -> bool).
Hypothesis same_key : forall a b, same a b = true <-> key a = key b.

Lemma existsb_same_In (prev : list E) (n : E) :
  existsb (fun e => same e n) prev = true <-> In (key n) (map key prev).
Proof.
  rewrite existsb_exists, in_map_iff.
  split; intros (e & H1 & H2).
  - exists e. split; [now apply same_key | assumption].
  - exists e. split; [assumption | now apply same_key].
Qed.

Lemma NoDup_map_filter (f : E -> bool) (l : list E) :
  NoDup (map key l) -> NoDup (map key (filter f l)).
Proof.
  induction l as [|x l IH]; simpl; intros H; [constructor|].
  inversion H as [|? ? Hnotin Hnd]; subst.
  destruct (f x); simpl; [|now apply IH].
  constructor; [|now apply IH].
  intros Hin. apply Hnotin. apply in_map_iff in Hin.
  destruct Hin as (e & He & Hf). apply filter_In in Hf.
  apply in_map_iff. exists e. tauto.
Qed.

Lemma mergeNew_NoDup (prev all : list E) :
  NoDup (map key prev) -> NoDup (map key all) ->
  NoDup (map key (mergeNew same prev all)).
Proof.
  intros Hprev Hall. unfold mergeNew. rewrite map_app.
  apply NoDup_app; [assumption | now apply NoDup_map_filter |].
  intros k Hk Hk'. apply in_map_iff in Hk'. destruct Hk' as (n & <- & Hn).
  apply filter_In in Hn. destruct Hn as [_ Hn].
  apply existsb_same_In in Hk. rewrite Hk in Hn. discriminate Hn.
Qed.

Lemma mergeNew_nil (all : list E) : mergeNew same [] all = all.
Proof.
  unfold mergeNew. simpl. induction all as [|x all IH]; simpl; congruence.
Qed.

Lemma mergeNew_In (prev all : list E) (x : E) :
  In x (mergeNew same prev all) <->
  In x prev \/ (In x all /\ ~ In (key x) (map key prev)).
Proof.
  unfold mergeNew. rewrite in_app_iff, filter_In, negb_true_iff.
  rewrite <- existsb_same_In.
  destruct (existsb (fun e => same e x) prev); intuition congruence.
Qed.

Lemma copies_app (x : E) (l l' : list E) :
  copies same x (l ++ l') = copies same x l + copies same x l'.
Proof. unfold copies. now rewrite filter_app, length_app. Qed.

(** An entity whose pair is already accumulated is not appended. *)
Lemma mergeNew_copies (prev all : list E) (x : E) :
  In (key x) (map key prev) ->
  copies same x (mergeNew same prev all) = copies same x prev.
Proof.
  intros Hx. unfold mergeNew. rewrite copies_app.
  assert (Hnone : copies same x
            (filter (fun n => negb (existsb (fun e => same e n) prev)) all) = 0).
  { unfold copies. induction all as [|n all IH]; [reflexivity|].
    cbn [filter].
    destruct (existsb (fun e => same e n) prev) eqn:Hn; cbn [negb]; [exact IH|].
    cbn [filter]. destruct (same n x) eqn:Hsame; [|exact IH].
    exfalso. apply same_key in Hsame.
    assert (existsb (fun e => same e n) prev = true)
      by (apply existsb_same_In; now rewrite Hsame).
    congruence. }
  rewrite Hnone. lia.
Qed.

Lemma copies_NoDup (l : list E) (x : E) :
  NoDup (map key l) -> In (key x) (map key l) -> copies same x l = 1.
Proof.
  unfold copies. induction l as [|e l IH]; simpl; intros Hnd Hin; [contradiction|].
  inversion Hnd as [|? ? Hnotin Hnd']; subst.
  destruct (same e x) eqn:Hsame.
  - apply same_key in Hsame. simpl. f_equal.
    rewrite Hsame in Hnotin.
    clear -Hnotin same_key. induction l as [|e' l IH]; [reflexivity|].
    simpl in *. destruct (same e' x) eqn:H'.
    + apply same_key in H'. exfalso. apply Hnotin. now left.
    + apply IH. intros H. apply Hnotin. now right.
  - destruct Hin as [Hin|Hin].
    + apply same_key in Hin. congruence.
    + now apply IH.
Qed.

End MergeFacts.

Lemma sameOrder_key (a b : Order.t) :
  AllOrders.sameOrder a b = true <-> AllOrders.key a = AllOrders.key b.
Proof.
  unfold AllOrders.sameOrder, AllOrders.key.
  rewrite andb_true_iff, Z.eqb_eq.
  rewrite (optEqb_true_iff String.eqb _ _ String.eqb_eq).
  split; [intros [-> ->]; reflexivity | intros H; injection H; auto].
Qed.

Lemma sameProduct_key (a b : Product.t) :
  AllProducts.sameProduct a b = true <-> AllProducts.key a = AllProducts.key b.
Proof.
  unfold AllProducts.sameProduct, AllProducts.key.
  rewrite andb_true_iff, Z.eqb_eq.
  rewrite (optEqb_true_iff String.eqb _ _ String.eqb_eq).
  split; [intros [-> ->]; reflexivity | intros H; injection H; auto].
Qed.

(** ** Pagination heuristic *)

(** C1: [fetchOrders] and [fetchProducts] set [hasMore] to [true] exactly
    when the number of entities fetched in the round equals the number of
    selected stores times 20; with two selected stores a round of 40
    gives [true] and a round of 39 gives [false]. *)
Theorem hasMore_heuristic :
  (forall (api : AllOrders.Api) (v : AllOrders.View),
     (AllOrders.hasMore (AllOrders.fetchOrders api v) = true <->
      List.length (AllOrders.allOrders api v)
      = List.length (AllOrders.selectedServers v) * 20) /\
     (List.length (AllOrders.selectedServers v) = 2 ->
      (List.length (AllOrders.allOrders api v) = 40 ->
       AllOrders.hasMore (AllOrders.fetchOrders api v) = true) /\
      (List.length (AllOrders.allOrders api v) = 39 ->
       AllOrders.hasMore (AllOrders.fetchOrders api v) = false))) /\
  (forall (api : AllProducts.Api) (v : AllProducts.View),
     (AllProducts.hasMore (AllProducts.fetchProducts api v) = true <->
      List.length (AllProducts.allProducts api v)
      = List.length (AllProducts.selectedServers v) * 20) /\
     (List.length (AllProducts.selectedServers v) = 2 ->
      (List.length (AllProducts.allProducts api v) = 40 ->
       AllProducts.hasMore (AllProducts.fetchProducts api v) = true) /\
      (List.length (AllProducts.allProducts api v) = 39 ->
       AllProducts.hasMore (AllProducts.fetchProducts api v) = false))).
Proof.
  split; intros api v.
  - unfold AllOrders.fetchOrders; cbn [AllOrders.hasMore AllOrders.selectedServers].
    split; [apply Nat.eqb_eq|].
    intros ->. split; intros ->; reflexivity.
  - unfold AllProducts.fetchProducts;
      cbn [AllProducts.hasMore AllProducts.selectedServers].
    split; [apply Nat.eqb_eq|].
    intros ->. split; intros ->; reflexivity.
Qed.

(** Store A returns a full page of 20 (it may well have more), store B
    returns 19: [hasMore] is [false]; with 20 from B it is [true]. *)
Lemma hasMore_heuristic_witness :
  AllProducts.hasMore (AllProducts.fetchProducts (fullAndPartial 20) productsOfAB) = true /\
  AllProducts.hasMore (AllProducts.fetchProducts (fullAndPartial 19) productsOfAB) = false.
Proof.
  split.
  - apply (proj1 (proj2 (proj2 hasMore_heuristic (fullAndPartial 20) productsOfAB)
                        eq_refl)).
    reflexivity.
  - apply (proj2 (proj2 (proj2 hasMore_heuristic (fullAndPartial 19) productsOfAB)
                        eq_refl)).
    reflexivity.
Defined.

(** ** Deduplication *)

(** C2 as stated fails: a store whose page lists the same order twice
    puts two entities with the same [(store.id, id)] pair into the merged
    list, since new entities are only compared with the accumulated ones. *)
Lemma merged_distinct_counterexample :
  ~ mergedOrdersDistinct repeatingPage ordersOfA.
Proof.
  unfold mergedOrdersDistinct.
  assert (Hkeys : map AllOrders.key
                    (AllOrders.orders (AllOrders.fetchOrders repeatingPage ordersOfA))
                  = [(5%Z, Some "a"%string); (5%Z, Some "a"%string)])
    by reflexivity.
  rewrite Hkeys. intros Hnd.
  inversion Hnd as [|? ? Hnotin _]. apply Hnotin. now left.
Qed.

(** C2 (amended): when neither the accumulated list nor the fetched
    batch holds two entities with the same [(store.id, id)] pair, the
    merged list holds none; and whatever the batch, a fetched entity whose
    pair already occurs in the accumulated list is not appended: the
    merged list holds as many copies of the pair as the accumulated list
    did, exactly one when that list was duplicate-free.  This holds of
    [fetchOrders] and of [fetchProducts]. *)
Theorem merged_without_duplicates :
  (forall (api : AllOrders.Api) (v : AllOrders.View),
     (NoDup (map AllOrders.key (AllOrders.orders v)) ->
      NoDup (map AllOrders.key (AllOrders.allOrders api v)) ->
      NoDup (map AllOrders.key (AllOrders.orders (AllOrders.fetchOrders api v)))) /\
     (forall o, In o (AllOrders.allOrders api v) ->
        In (AllOrders.key o) (map AllOrders.key (AllOrders.orders v)) ->
        copies AllOrders.sameOrder o (AllOrders.orders (AllOrders.fetchOrders api v))
        = copies AllOrders.sameOrder o (AllOrders.orders v) /\
        (NoDup (map AllOrders.key (AllOrders.orders v)) ->
         copies AllOrders.sameOrder o (AllOrders.orders (AllOrders.fetchOrders api v))
         = 1))) /\
  (forall (api : AllProducts.Api) (v : AllProducts.View),
     (NoDup (map AllProducts.key (AllProducts.products v)) ->
      NoDup (map AllProducts.key (AllProducts.allProducts api v)) ->
      NoDup (map AllProducts.key
               (AllProducts.products (AllProducts.fetchProducts api v)))) /\
     (forall p, In p (AllProducts.allProducts api v) ->
        In (AllProducts.key p) (map AllProducts.key (AllProducts.products v)) ->
        copies AllProducts.sameProduct p
               (AllProducts.products (AllProducts.fetchProducts api v))
        = copies AllProducts.sameProduct p (AllProducts.products v) /\
        (NoDup (map AllProducts.key (AllProducts.products v)) ->
         copies AllProducts.sameProduct p
                (AllProducts.products (AllProducts.fetchProducts api v))
         = 1))).
Proof.
  split; intros api v.
  - unfold AllOrders.fetchOrders; cbn [AllOrders.orders]. split.
    + apply (mergeNew_NoDup _ _ sameOrder_key).
    + intros o _ Hin.
      rewrite (mergeNew_copies _ _ sameOrder_key) by assumption.
      split; [reflexivity|]. intros Hnd.
      now apply (copies_NoDup _ _ sameOrder_key).
  - unfold AllProducts.fetchProducts; cbn [AllProducts.products]. split.
    + apply (mergeNew_NoDup _ _ sameProduct_key).
    + intros p _ Hin.
      rewrite (mergeNew_copies _ _ sameProduct_key) by assumption.
      split; [reflexivity|]. intros Hnd.
      now apply (copies_NoDup _ _ sameProduct_key).
Qed.

(** Orders 1 and 2 of store A are displayed and the store answers with
    orders 1, 2 and 3: the merged list is duplicate-free. *)
Lemma merged_without_duplicates_witness :
  NoDup (map AllOrders.key
           (AllOrders.orders (AllOrders.fetchOrders threeOrders twoDisplayed))).
Proof.
  apply (proj1 (proj1 merged_without_duplicates threeOrders twoDisplayed)).
  - repeat constructor; simpl; intuition discriminate.
  - repeat constructor; simpl; intuition discriminate.
Defined.

(** ** Partial failure *)

Lemma concat_map_filter {A B} (f : A -> list B) (p : A -> bool) (l : list A) :
  (forall x, p x = false -> f x = []) ->
  List.concat (map f l) = List.concat (map f (filter p l)).
Proof.
  intros Hp. induction l as [|x l IH]; [reflexivity|].
  cbn [map List.concat filter]. destruct (p x) eqn:Hx.
  - cbn [map List.concat]. now rewrite IH.
  - now rewrite (Hp x Hx), IH.
Qed.

Lemma promiseAll_notes (api : AllOrders.Api) (server : WooCommerceServer)
  (data : list Order.t) :
  promiseAll (map (AllOrders.fetchNotes api server) data) =
  if forallb (fun order =>
                match AllOrders.getNotes api server (Order.id order) with
                | Resolved _ => true
                | Rejected => false
                end) data
  then Resolved (map (fun o => AllOrders.withNotes server o (notesOf api server o)) data)
  else Rejected.
Proof.
  induction data as [|o data IH]; [reflexivity|].
  cbn [map promiseAll forallb]. unfold AllOrders.fetchNotes at 1. unfold notesOf at 1.
  destruct (AllOrders.getNotes api server (Order.id o)) as [notes|]; cbn [andb];
    [|reflexivity].
  rewrite IH. now destruct (forallb _ data).
Qed.

Lemma ordersOfStore_failed (api : AllOrders.Api) (v : AllOrders.View) (serverId : string) :
  AllOrders.succeeds api v serverId = false ->
  AllOrders.ordersOfStore api v serverId = [].
Proof.
  unfold AllOrders.succeeds, AllOrders.ordersOfStore.
  destruct (find _ _) as [server|]; [|reflexivity].
  destruct (AllOrders.getOrders api server _ _) as [data|]; [|reflexivity].
  rewrite promiseAll_notes. now intros ->.
Qed.

Lemma ordersOfStore_succeeded (api : AllOrders.Api) (v : AllOrders.View)
  (serverId : string) (server : WooCommerceServer) (data : list Order.t) :
  find (fun s => String.eqb (Server.id s) serverId) (AllOrders.servers v) = Some server ->
  AllOrders.getOrders api server (AllOrders.page v) (AllOrders.searchTerm v)
    = Resolved data ->
  AllOrders.succeeds api v serverId = true ->
  AllOrders.ordersOfStore api v serverId =
  map (fun o => AllOrders.withNotes server o (notesOf api server o)) data.
Proof.
  unfold AllOrders.succeeds, AllOrders.ordersOfStore.
  intros -> ->. rewrite promiseAll_notes. now intros ->.
Qed.

Lemma productsOfStore_failed (api : AllProducts.Api) (v : AllProducts.View)
  (serverId : string) :
  AllProducts.succeeds api v serverId = false ->
  AllProducts.productsOfStore api v serverId = [].
Proof.
  unfold AllProducts.succeeds, AllProducts.productsOfStore.
  destruct (find _ _) as [server|]; [|reflexivity].
  destruct (api server _ _) as [data|]; [discriminate|reflexivity].
Qed.

(** C7: a selected store whose request fails contributes the empty
    list; the round still completes ([error] stays unset, [loading] is
    cleared); the fetched batch is the concatenation of what the
    succeeding stores returned, each entity annotated with its store, and
    it is what the merged list consists of when nothing was accumulated
    before (otherwise it is appended to the accumulated list, minus the
    pairs already there).  This holds of [fetchOrders] and of
    [fetchProducts]. *)
Theorem partial_failure_tolerated :
  (forall (api : AllOrders.Api) (v : AllOrders.View),
     let succeeded := filter (AllOrders.succeeds api v) (AllOrders.selectedServers v) in
     let fetched := List.concat (map (AllOrders.ordersOfStore api v) succeeded) in
     (forall serverId, AllOrders.succeeds api v serverId = false ->
        AllOrders.ordersOfStore api v serverId = []) /\
     (forall serverId server data,
        find (fun s => String.eqb (Server.id s) serverId) (AllOrders.servers v)
          = Some server ->
        AllOrders.getOrders api server (AllOrders.page v) (AllOrders.searchTerm v)
          = Resolved data ->
        AllOrders.succeeds api v serverId = true ->
        AllOrders.ordersOfStore api v serverId =
        map (fun o => AllOrders.withNotes server o (notesOf api server o)) data) /\
     AllOrders.error (AllOrders.fetchOrders api v) = None /\
     AllOrders.loading (AllOrders.fetchOrders api v) = false /\
     AllOrders.allOrders api v = fetched /\
     (forall o, In o (AllOrders.orders (AllOrders.fetchOrders api v)) <->
        In o (AllOrders.orders v) \/
        (In o fetched /\
         ~ In (AllOrders.key o) (map AllOrders.key (AllOrders.orders v)))) /\
     (AllOrders.orders v = [] ->
      AllOrders.orders (AllOrders.fetchOrders api v) = fetched)) /\
  (forall (api : AllProducts.Api) (v : AllProducts.View),
     let succeeded :=
       filter (AllProducts.succeeds api v) (AllProducts.selectedServers v) in
     let fetched := List.concat (map (AllProducts.productsOfStore api v) succeeded) in
     (forall serverId, AllProducts.succeeds api v serverId = false ->
        AllProducts.productsOfStore api v serverId = []) /\
     (forall serverId server data,
        find (fun s => String.eqb (Server.id s) serverId) (AllProducts.servers v)
          = Some server ->
        api server (AllProducts.page v) (AllProducts.searchTerm v) = Resolved data ->
        AllProducts.productsOfStore api v serverId
        = map (AllProducts.withStore server) data) /\
     AllProducts.error (AllProducts.fetchProducts api v) = None /\
     AllProducts.loading (AllProducts.fetchProducts api v) = false /\
     AllProducts.allProducts api v = fetched /\
     (forall p, In p (AllProducts.products (AllProducts.fetchProducts api v)) <->
        In p (AllProducts.products v) \/
        (In p fetched /\
         ~ In (AllProducts.key p) (map AllProducts.key (AllProducts.products v)))) /\
     (AllProducts.products v = [] ->
      AllProducts.products (AllProducts.fetchProducts api v) = fetched)).
Proof.
  split; intros api v; cbv zeta.
  - assert (Hall : AllOrders.allOrders api v =
              List.concat (map (AllOrders.ordersOfStore api v)
                 (filter (AllOrders.succeeds api v) (AllOrders.selectedServers v)))).
    { unfold AllOrders.allOrders. apply concat_map_filter.
      apply ordersOfStore_failed. }
    split; [apply ordersOfStore_failed|].
    split; [apply ordersOfStore_succeeded|].
    split; [reflexivity|]. split; [reflexivity|]. split; [exact Hall|].
    unfold AllOrders.fetchOrders; cbn [AllOrders.orders]. rewrite Hall. split.
    + intros o. apply (mergeNew_In _ _ sameOrder_key).
    + intros ->. apply mergeNew_nil.
  - assert (Hall : AllProducts.allProducts api v =
              List.concat (map (AllProducts.productsOfStore api v)
                 (filter (AllProducts.succeeds api v) (AllProducts.selectedServers v)))).
    { unfold AllProducts.allProducts. apply concat_map_filter.
      apply productsOfStore_failed. }
    split; [apply productsOfStore_failed|].
    split.
    { intros serverId server data Hfind Hdata.
      unfold AllProducts.productsOfStore. now rewrite Hfind, Hdata. }
    split; [reflexivity|]. split; [reflexivity|]. split; [exact Hall|].
    unfold AllProducts.fetchProducts; cbn [AllProducts.products]. rewrite Hall. split.
    + intros p. apply (mergeNew_In _ _ sameProduct_key).
    + intros ->. apply mergeNew_nil.
Qed.

(** Store A succeeds with five entities and store B fails: the merged
    list is A's five entities, annotated with store A. *)
Lemma partial_failure_tolerated_witness :
  AllOrders.orders (AllOrders.fetchOrders onlyAOrders ordersOfAB)
  = map (fun o => AllOrders.withNotes shopA o []) (pageOf remoteOrder 1 5) /\
  AllProducts.products (AllProducts.fetchProducts onlyAProducts productsOfAB)
  = map (AllProducts.withStore shopA) (pageOf remoteProduct 1 5) /\
  AllOrders.error (AllOrders.fetchOrders onlyAOrders ordersOfAB) = None /\
  AllProducts.error (AllProducts.fetchProducts onlyAProducts productsOfAB) = None.
Proof.
  destruct partial_failure_tolerated as [Horders Hproducts].
  specialize (Horders onlyAOrders ordersOfAB).
  specialize (Hproducts onlyAProducts productsOfAB).
  cbv zeta in Horders, Hproducts.
  destruct Horders as (_ & _ & Herr & _ & _ & _ & Ho).
  destruct Hproducts as (_ & _ & Herr' & _ & _ & _ & Hp).
  rewrite (Ho eq_refl), (Hp eq_refl).
  repeat split; assumption.
Defined.

(** ** When the fetched batch is duplicate-free

    The batch holds no pair twice when no store is selected twice and no
    store lists an id twice on the page it returns. *)

Lemma NoDup_concat_tagged {A S K} (contrib : S -> list A) (key : A -> K)
  (tag : K -> S) (l : list S) :
  NoDup l ->
  (forall s, In s l -> NoDup (map key (contrib s))) ->
  (forall s a, In a (contrib s) -> tag (key a) = s) ->
  NoDup (map key (List.concat (map contrib l))).
Proof.
  intros Hl Hin Htag. induction l as [|s l IH]; [constructor|].
  cbn [map List.concat]. rewrite map_app.
  inversion Hl as [|? ? Hs Hl']; subst.
  apply NoDup_app.
  - apply Hin. now left.
  - apply IH; [assumption|]. intros s' Hs'. apply Hin. now right.
  - intros k Hk Hk'.
    apply in_map_iff in Hk. destruct Hk as (a & <- & Ha).
    apply in_map_iff in Hk'. destruct Hk' as (b & Hkey & Hb).
    apply in_concat in Hb. destruct Hb as (bs & Hbs & Hb).
    apply in_map_iff in Hbs. destruct Hbs as (s' & <- & Hs').
    apply Htag in Ha. apply Htag in Hb. rewrite Hkey, Ha in Hb.
    subst s'. contradiction.
Qed.

Lemma NoDup_map_pair {A B C} (f : A -> B) (c : C) (l : list A) :
  NoDup (map f l) -> NoDup (map (fun x => (f x, c)) l).
Proof.
  induction l as [|x l IH]; simpl; intros H; [constructor|].
  inversion H as [|? ? Hnotin Hnd]; subst.
  constructor; [|now apply IH].
  intros Hin. apply Hnotin. apply in_map_iff in Hin.
  destruct Hin as (y & Hy & Hin). injection Hy as Hy.
  apply in_map_iff. now exists y.
Qed.

(** What a store that answered contributes carries the store's id, which
    is the selected id. *)
Lemma ordersOfStore_keys (api : AllOrders.Api) (v : AllOrders.View) (serverId : string) :
  AllOrders.ordersOfStore api v serverId = [] \/
  exists server data,
    AllOrders.getOrders api server (AllOrders.page v) (AllOrders.searchTerm v)
      = Resolved data /\
    map AllOrders.key (AllOrders.ordersOfStore api v serverId)
      = map (fun o => (Order.id o, Some serverId)) data.
Proof.
  unfold AllOrders.ordersOfStore.
  destruct (find _ _) as [server|] eqn:Hfind; [|now left].
  apply find_some in Hfind. destruct Hfind as [_ Hid]. apply String.eqb_eq in Hid.
  destruct (AllOrders.getOrders api server _ _) as [data|] eqn:Hdata; [|now left].
  rewrite promiseAll_notes. destruct (forallb _ data); [|now left].
  right. exists server, data. split; [assumption|].
  rewrite map_map. apply map_ext. intros o.
  unfold AllOrders.key, AllOrders.withNotes. cbn. now rewrite Hid.
Qed.

Lemma allOrders_NoDup (api : AllOrders.Api) (v : AllOrders.View) :
  NoDup (AllOrders.selectedServers v) ->
  (forall server data,
     AllOrders.getOrders api server (AllOrders.page v) (AllOrders.searchTerm v)
       = Resolved data ->
     NoDup (map Order.id data)) ->
  NoDup (map AllOrders.key (AllOrders.allOrders api v)).
Proof.
  intros Hsel Hpages. unfold AllOrders.allOrders.
  apply (NoDup_concat_tagged _ _
           (fun k => match snd k with Some s => s | None => EmptyString end));
    [assumption | |].
  - intros s _. destruct (ordersOfStore_keys api v s) as [->|(server & data & Hd & ->)];
      [constructor|].
    apply NoDup_map_pair. now apply (Hpages server).
  - intros s a Ha.
    destruct (ordersOfStore_keys api v s) as [Hnil|(server & data & _ & Hkeys)].
    + rewrite Hnil in Ha. contradiction.
    + assert (Hk : In (AllOrders.key a)
                      (map AllOrders.key (AllOrders.ordersOfStore api v s)))
        by now apply in_map.
      rewrite Hkeys in Hk. apply in_map_iff in Hk.
      destruct Hk as (o & <- & _). reflexivity.
Qed.

Lemma productsOfStore_keys (api : AllProducts.Api) (v : AllProducts.View)
  (serverId : string) :
  AllProducts.productsOfStore api v serverId = [] \/
  exists server data,
    api server (AllProducts.page v) (AllProducts.searchTerm v) = Resolved data /\
    map AllProducts.key (AllProducts.productsOfStore api v serverId)
      = map (fun p => (Product.id p, Some serverId)) data.
Proof.
  unfold AllProducts.productsOfStore.
  destruct (find _ _) as [server|] eqn:Hfind; [|now left].
  apply find_some in Hfind. destruct Hfind as [_ Hid]. apply String.eqb_eq in Hid.
  destruct (api server _ _) as [data|] eqn:Hdata; [|now left].
  right. exists server, data. split; [assumption|].
  rewrite map_map. apply map_ext. intros p.
  unfold AllProducts.key, AllProducts.withStore. cbn. now rewrite Hid.
Qed.

Lemma allProducts_NoDup (api : AllProducts.Api) (v : AllProducts.View) :
  NoDup (AllProducts.selectedServers v) ->
  (forall server data,
     api server (AllProducts.page v) (AllProducts.searchTerm v) = Resolved data ->
     NoDup (map Product.id data)) ->
  NoDup (map AllProducts.key (AllProducts.allProducts api v)).
Proof.
  intros Hsel Hpages. unfold AllProducts.allProducts.
  apply (NoDup_concat_tagged _ _
           (fun k => match snd k with Some s => s | None => EmptyString end));
    [assumption | |].
  - intros s _.
    destruct (productsOfStore_keys api v s) as [->|(server & data & Hd & ->)];
      [constructor|].
    apply NoDup_map_pair. now apply (Hpages server).
  - intros s a Ha.
    destruct (productsOfStore_keys api v s) as [Hnil|(server & data & _ & Hkeys)].
    + rewrite Hnil in Ha. contradiction.
    + assert (Hk : In (AllProducts.key a)
                      (map AllProducts.key (AllProducts.productsOfStore api v s)))
        by now apply in_map.
      rewrite Hkeys in Hk. apply in_map_iff in Hk.
      destruct Hk as (o & <- & _). reflexivity.
Qed.

(** Ticking a checkbox never selects a store twice. *)
Lemma handleCheckboxChange_NoDup (selectedServers : list string) (serverId : string) :
  NoDup selectedServers -> NoDup (handleCheckboxChange selectedServers serverId).
Proof.
  intros Hnd. unfold handleCheckboxChange.
  destruct (existsb (String.eqb serverId) selectedServers) eqn:Hin.
  - now apply NoDup_filter.
  - apply NoDup_app; [assumption | repeat constructor; intros [] |].
    intros x Hx [<-|[]].
    assert (existsb (String.eqb serverId) selectedServers = true).
    { apply existsb_exists. exists serverId. split; [assumption|apply String.eqb_refl]. }
    congruence.
Qed.

(* ===================================================================== *)
(** * Further properties of the store registry                             *)
(* ===================================================================== *)

Section UpdateFacts.
Context {A : Type}.

Lemma setAt_length (i : nat) (v : A) (l : list A) :
  List.length (setAt i v l) = List.length l.
Proof.
  revert i. induction l as [|x l IH]; intros [|i]; simpl; auto.
Qed.

Lemma setAt_nth_same (i : nat) (v old : A) (l : list A) :
  nth_error l i = Some old -> nth_error (setAt i v l) i = Some v.
Proof.
  revert i. induction l as [|x l IH]; intros [|i]; simpl; try discriminate; auto.
Qed.

Lemma setAt_nth_other (i j : nat) (v : A) (l : list A) :
  i <> j -> nth_error (setAt i v l) j = nth_error l j.
Proof.
  revert i j. induction l as [|x l IH]; intros [|i] [|j] H; simpl; auto;
    try (now elim H); apply IH; lia.
Qed.

Lemma setAt_same (i : nat) (old : A) (l : list A) :
  nth_error l i = Some old -> setAt i old l = l.
Proof.
  revert i. induction l as [|x l IH]; intros [|i]; simpl; try discriminate.
  - now intros [= ->].
  - intros H. now rewrite IH.
Qed.

Lemma setAt_setAt (i : nat) (v v' : A) (l : list A) :
  setAt i v' (setAt i v l) = setAt i v' l.
Proof.
  revert i. induction l as [|x l IH]; intros [|i]; simpl; auto.
  now rewrite IH.
Qed.

Lemma map_setAt {B} (f : A -> B) (i : nat) (v old : A) (l : list A) :
  nth_error l i = Some old -> f v = f old -> map f (setAt i v l) = map f l.
Proof.
  revert i. induction l as [|x l IH]; intros [|i]; simpl; try discriminate.
  - intros [= ->] ->. reflexivity.
  - intros H Hf. now rewrite (IH i).
Qed.

(** [findIndex] returns the first match. *)
Lemma findIndex_first (p : A -> bool) (l : list A) (i : nat) :
  findIndex p l = Some i ->
  forall j y, j < i -> nth_error l j = Some y -> p y = false.
Proof.
  revert i. induction l as [|x l IH]; simpl; intros i H; [discriminate|].
  destruct (p x) eqn:Hx.
  - injection H as <-. intros j y Hj. lia.
  - destruct (findIndex p l) as [k|]; [|discriminate].
    injection H as <-. intros [|j] y Hj; simpl.
    + now intros [= <-].
    + apply (IH k eq_refl). lia.
Qed.

Lemma findIndex_setAt (p : A -> bool) (i : nat) (v old : A) (l : list A) :
  nth_error l i = Some old -> p v = p old ->
  findIndex p (setAt i v l) = findIndex p l.
Proof.
  revert i. induction l as [|x l IH]; intros [|i]; simpl; try discriminate.
  - intros [= ->] ->. reflexivity.
  - intros H Hp. now rewrite (IH i).
Qed.

Lemma findIndex_app_skip (p : A -> bool) (done todo : list A) :
  (forall x, In x done -> p x = false) ->
  findIndex p (done ++ todo) = option_map (Nat.add (List.length done)) (findIndex p todo).
Proof.
  intros H. induction done as [|x done IH]; simpl.
  - now destruct (findIndex p todo).
  - rewrite (H x (or_introl eq_refl)). rewrite IH by (intros y Hy; apply H; now right).
    now destruct (findIndex p todo).
Qed.

Lemma setAt_app_head (done rest : list A) (x v : A) :
  setAt (List.length done) v (done ++ x :: rest) = done ++ v :: rest.
Proof. induction done as [|y done IH]; simpl; congruence. Qed.

End UpdateFacts.

(** The registry after [updateServer], as a function of the registry
    before. *)
Lemma getServers_updateServer (serverId : string) (updates : Updates.t) (w : World) :
  getServers (updateServer serverId updates w) =
  match findIndex (fun s => String.eqb (Server.id s) serverId) (getServers w) with
  | Some index =>
      match nth_error (getServers w) index with
      | Some old => setAt index (applyUpdates old updates) (getServers w)
      | None => getServers w
      end
  | None => getServers w
  end.
Proof.
  unfold updateServer; cbv zeta.
  destruct (findIndex _ _) as [i|]; [|reflexivity].
  destruct (nth_error _ _); reflexivity.
Qed.

Lemma flipActive_involutive (s : WooCommerceServer) : flipActive (flipActive s) = s.
Proof. destruct s; unfold flipActive; simpl. now rewrite negb_involutive. Qed.

Lemma getServers_deleteServer (serverId : string) (w : World) :
  getServers (deleteServer serverId w) =
  filter (fun s => negb (String.eqb (Server.id s) serverId)) (getServers w).
Proof. reflexivity. Qed.

(** X1: after [deleteServer] the registry holds exactly the records that
    carried another id; deleting an id no record carries, and so deleting
    the same id a second time, leaves the stored list as it is. *)
Theorem deleteServer_removes (serverId : string) (w : World) :
  (forall s, In s (getServers (deleteServer serverId w)) <->
             In s (getServers w) /\ Server.id s <> serverId) /\
  ((forall s, In s (getServers w) -> Server.id s <> serverId) ->
   getServers (deleteServer serverId w) = getServers w) /\
  getServers (deleteServer serverId (deleteServer serverId w))
  = getServers (deleteServer serverId w).
Proof.
  assert (Hkeep : forall l : list WooCommerceServer,
            (forall s, In s l -> Server.id s <> serverId) ->
            filter (fun s => negb (String.eqb (Server.id s) serverId)) l = l).
  { intros l Hl. apply forallb_filter_id. apply forallb_forall. intros s Hs.
    apply negb_true_iff, String.eqb_neq. now apply Hl. }
  assert (Hin : forall s,
            In s (getServers (deleteServer serverId w)) <->
            In s (getServers w) /\ Server.id s <> serverId).
  { intros s. rewrite getServers_deleteServer.
    rewrite filter_In, negb_true_iff, String.eqb_neq. reflexivity. }
  split; [exact Hin|]. split.
  - intros Habsent. rewrite getServers_deleteServer. now apply Hkeep.
  - rewrite (getServers_deleteServer serverId (deleteServer serverId w)).
    apply Hkeep. intros s Hs. now apply Hin.
Qed.

Lemma deleteServer_removes_witness :
  getServers (deleteServer "c" twoShops) = getServers twoShops.
Proof.
  apply (proj1 (proj2 (deleteServer_removes "c"%string twoShops))).
  intros s [<-|[<-|[]]]; discriminate.
Defined.

(** X2: removing a store right after adding it restores the registry,
    provided the generated id was not already in use (otherwise the older
    records with that id go as well). *)
Theorem add_then_delete (server : NewServer.t) (uuid : string) (w : World) :
  ~ In uuid (map Server.id (getServers w)) ->
  getServers (deleteServer uuid (snd (addServer server uuid w))) = getServers w.
Proof.
  intros Hfresh. rewrite getServers_deleteServer.
  unfold addServer; cbn [snd]. rewrite getServers_notify, getServers_setStorage.
  rewrite filter_app. cbn [filter Server.id]. rewrite String.eqb_refl. cbn [negb].
  rewrite app_nil_r. apply forallb_filter_id. apply forallb_forall.
  intros s Hs. apply negb_true_iff, String.eqb_neq. intros Heq.
  apply Hfresh. rewrite <- Heq. now apply in_map.
Qed.

Lemma add_then_delete_witness :
  getServers (deleteServer "c" (snd (addServer shopC "c" twoShops)))
  = getServers twoShops.
Proof.
  apply (add_then_delete shopC "c"%string twoShops).
  intros [H|[H|[]]]; discriminate H.
Defined.

Lemma getServers_toggleServerActive (serverId : string) (w : World) :
  getServers (toggleServerActive serverId w) =
  match findIndex (fun s => String.eqb (Server.id s) serverId) (getServers w) with
  | Some index =>
      match nth_error (getServers w) index with
      | Some server => setAt index (flipActive server) (getServers w)
      | None => getServers w
      end
  | None => getServers w
  end.
Proof.
  unfold toggleServerActive; cbv zeta.
  destruct (findIndex _ _) as [i|]; [|reflexivity].
  destruct (nth_error _ _); reflexivity.
Qed.

Lemma toggleServerActive_ids (serverId : string) (w : World) :
  getServers (toggleServerActive serverId (toggleServerActive serverId w))
  = getServers w /\
  map Server.id (getServers (toggleServerActive serverId w))
  = map Server.id (getServers w).
Proof.
  rewrite (getServers_toggleServerActive serverId (toggleServerActive serverId w)).
  rewrite !getServers_toggleServerActive.
  destruct (findIndex (fun s => String.eqb (Server.id s) serverId) (getServers w))
    as [i|] eqn:Hi.
  - destruct (findIndex_Some _ _ _ Hi) as (server & Hnth & _). rewrite Hnth.
    rewrite (findIndex_setAt _ i (flipActive server) server) by (assumption || reflexivity).
    rewrite Hi. rewrite (setAt_nth_same i _ server) by assumption.
    rewrite setAt_setAt, flipActive_involutive.
    split; [now apply setAt_same|].
    now apply (map_setAt Server.id i _ server).
  - rewrite Hi. split; reflexivity.
Qed.

(** X3: toggling the same store twice restores the stored list, whatever
    the id (an id no record carries changes nothing at all); ids, and with
    them the number and order of the records, are never touched. *)
Theorem toggleServerActive_twice (serverId : string) (w : World) :
  getServers (toggleServerActive serverId (toggleServerActive serverId w))
  = getServers w /\
  map Server.id (getServers (toggleServerActive serverId w))
  = map Server.id (getServers w).
Proof. exact (toggleServerActive_ids serverId w). Qed.

(** X4: [updateServer] with an id of the registry replaces the first
    record that carries it by the record merged with the updates and
    leaves every other position as it was; in particular a second record
    with the same id is not updated. *)
Theorem updateServer_replaces_first (serverId : string) (updates : Updates.t)
  (w : World) (index : nat) :
  findIndex (fun s => String.eqb (Server.id s) serverId) (getServers w) = Some index ->
  exists old,
    nth_error (getServers w) index = Some old /\
    Server.id old = serverId /\
    (forall j y, j < index -> nth_error (getServers w) j = Some y ->
                 Server.id y <> serverId) /\
    nth_error (getServers (updateServer serverId updates w)) index
      = Some (applyUpdates old updates) /\
    (forall j, j <> index ->
       nth_error (getServers (updateServer serverId updates w)) j
       = nth_error (getServers w) j) /\
    List.length (getServers (updateServer serverId updates w))
      = List.length (getServers w).
Proof.
  intros Hi. rewrite getServers_updateServer, Hi.
  destruct (findIndex_Some _ _ _ Hi) as (old & Hnth & Hid).
  exists old. rewrite Hnth. apply String.eqb_eq in Hid.
  repeat split; try assumption.
  - intros j y Hj Hy. apply String.eqb_neq.
    exact (findIndex_first _ _ _ Hi j y Hj Hy).
  - now apply (setAt_nth_same index _ old).
  - intros j Hj. apply setAt_nth_other. congruence.
  - apply setAt_length.
Qed.

Lemma updateServer_replaces_first_witness :
  exists old,
    nth_error (getServers twoShops) 1 = Some old /\
    nth_error (getServers (updateServer "b" Updates.none twoShops)) 1
      = Some (applyUpdates old Updates.none).
Proof.
  destruct (updateServer_replaces_first "b"%string Updates.none twoShops 1 eq_refl)
    as (old & Hnth & _ & _ & Hnew & _).
  exists old. split; assumption.
Defined.

Lemma applyUpdates_none (s : WooCommerceServer) : applyUpdates s Updates.none = s.
Proof. now destruct s. Qed.

(** X5: [updateServer] does not look at what the updates change: with an
    empty set of updates and an id of the registry the stored list stays
    the same, and the collection is still written and every observer
    still called. *)
Theorem updateServer_empty_updates (serverId : string) (w : World) :
  existsb (fun s => String.eqb (Server.id s) serverId) (getServers w) = true ->
  getServers (updateServer serverId Updates.none w) = getServers w /\
  emitted w (updateServer serverId Updates.none w)
  = SetItem (getServers w) ::
    map (fun cb => Notify cb (getServers w)) (monitorCallbacks w).
Proof.
  rewrite findIndex_existsb. intros Hpresent.
  destruct (findIndex (fun s => String.eqb (Server.id s) serverId) (getServers w))
    as [i|] eqn:Hi; [|discriminate].
  destruct (findIndex_Some _ _ _ Hi) as (old & Hnth & _).
  assert (Hl : setAt i (applyUpdates old Updates.none) (getServers w) = getServers w).
  { rewrite applyUpdates_none. now apply setAt_same. }
  split.
  - now rewrite getServers_updateServer, Hi, Hnth.
  - unfold updateServer; cbv zeta. rewrite Hi, Hnth, Hl.
    exact (emitted_write_notify _ w).
Qed.

Lemma updateServer_empty_updates_witness :
  emitted twoShops (updateServer "a" Updates.none twoShops)
  = [SetItem [shopA; shopB]; Notify 7 [shopA; shopB]].
Proof.
  exact (proj2 (updateServer_empty_updates "a"%string twoShops eq_refl)).
Defined.

(** X6: a store that has just been added is not among the active
    servers: [getActiveServers] returns what it returned before. *)
Theorem addServer_not_active (server : NewServer.t) (uuid : string) (w : World) :
  getActiveServers (snd (addServer server uuid w)) = getActiveServers w.
Proof.
  unfold getActiveServers, addServer; cbn [snd].
  rewrite getServers_notify, getServers_setStorage, filter_app.
  cbn [filter Server.isActive Server.status optEqb Status_eqb andb].
  apply app_nil_r.
Qed.

(* ===================================================================== *)
(** * Further properties of the health check                               *)
(* ===================================================================== *)

Lemma checkServerWithRetry_at_limit (probe : nat -> Attempt) :
  snd (checkServerWithRetry probe 2) = 1.
Proof.
  rewrite checkServerWithRetry_unfold.
  destruct (outcome (probe 2)) as [httpStatus|e]; [reflexivity|].
  cbn [Nat.ltb Nat.leb MAX_RETRIES]. now rewrite andb_false_r.
Qed.

(** X7: a request is repeated only after a timeout, and at most twice:
    the number of requests is one more than the number of leading
    timeouts among the first two attempts.  A failure that is not a
    timeout (bad credentials, a refused connection, an HTTP error) is
    reported after a single request. *)
Theorem requests_follow_timeouts (probe : nat -> Attempt) :
  requestsIssued probe = 1 + retriesMade probe /\
  (timedOut (probe 0) = false -> requestsIssued probe = 1).
Proof.
  assert (Hone : forall k, timedOut (probe k) = false ->
                           snd (checkServerWithRetry probe k) = 1).
  { intros k Hk. rewrite checkServerWithRetry_unfold. unfold timedOut in Hk.
    destruct (outcome (probe k)) as [|e]; [reflexivity|]. now rewrite Hk. }
  assert (Hmore : forall k, k < MAX_RETRIES -> timedOut (probe k) = true ->
                            snd (checkServerWithRetry probe k)
                            = S (snd (checkServerWithRetry probe (k + 1)))).
  { intros k Hk Ht. rewrite (checkServerWithRetry_unfold probe k).
    unfold timedOut in Ht. destruct (outcome (probe k)) as [|e]; [discriminate|].
    rewrite Ht. destruct (Nat.ltb_spec k MAX_RETRIES); [|lia].
    cbn [andb]. now destruct (checkServerWithRetry probe (k + 1)). }
  unfold requestsIssued, retriesMade.
  split; [|apply Hone].
  destruct (timedOut (probe 0)) eqn:H0; [|now apply Hone].
  rewrite (Hmore 0) by (assumption || (unfold MAX_RETRIES; lia)). cbn [Nat.add].
  destruct (timedOut (probe 1)) eqn:H1; [|now rewrite Hone].
  rewrite (Hmore 1) by (assumption || (unfold MAX_RETRIES; lia)). cbn [Nat.add].
  now rewrite checkServerWithRetry_at_limit.
Qed.

Lemma requests_follow_timeouts_witness :
  requestsIssued (fun _ => mkAttempt (Throws (ErrorObj "Request failed with status code 401")) 90)
  = 1.
Proof.
  apply (proj2 (requests_follow_timeouts
     (fun _ => mkAttempt (Throws (ErrorObj "Request failed with status code 401")) 90))).
  reflexivity.
Defined.

(** X8: the store is reported [online] exactly when the last request was
    answered with status 200, and then without an error message; the
    response time reported is the time of the last request alone, not the
    time the earlier, retried requests took. *)
Theorem online_means_last_200 (probe : nat -> Attempt) :
  (r_status (checkServerStatus probe) = online <->
   outcome (probe (lastAttempt probe)) = Response 200) /\
  (r_status (checkServerStatus probe) = online ->
   r_errorMessage (checkServerStatus probe) = None) /\
  r_responseTime (checkServerStatus probe)
  = Some (elapsed (probe (lastAttempt probe))).
Proof.
  pose proof (checkServerWithRetry_final probe 0) as H. cbv zeta in H.
  fold (requestsIssued probe) in H. fold (checkServerStatus probe) in H.
  cbn [Nat.add] in H. fold (lastAttempt probe) in H.
  destruct H as (_ & _ & H).
  destruct (outcome (probe (lastAttempt probe))) as [httpStatus|e].
  - rewrite H. unfold onResponse; cbn [r_status r_errorMessage r_responseTime].
    destruct (Z.eqb_spec httpStatus 200) as [->|Hne]; cbn [negb].
    + repeat split; reflexivity.
    + repeat split; try discriminate. intros [= Heq]. contradiction.
  - destruct H as [-> _].
    unfold onFinalFailure; cbn [r_status r_errorMessage r_responseTime].
    repeat split; try discriminate; destruct (isNetworkError e); discriminate.
Qed.

Lemma online_means_last_200_witness :
  r_status (checkServerStatus (timeoutsThen (mkAttempt (Response 200) 180))) = online /\
  r_errorMessage (checkServerStatus (timeoutsThen (mkAttempt (Response 200) 180))) = None /\
  r_responseTime (checkServerStatus (timeoutsThen (mkAttempt (Response 200) 180)))
  = Some 180%Z.
Proof.
  pose proof (online_means_last_200 (timeoutsThen (mkAttempt (Response 200) 180)))
    as (Hiff & Hmsg & Htime).
  assert (Hon : r_status (checkServerStatus (timeoutsThen (mkAttempt (Response 200) 180)))
                = online) by (apply Hiff; reflexivity).
  split; [exact Hon|]. split; [exact (Hmsg Hon) | exact Htime].
Defined.

(** X9: whatever a fourth or later attempt would be answered is never
    looked at: two environments that agree on the first three attempts
    give the same result and the same number of requests. *)
Theorem only_three_attempts_matter (probe probe' : nat -> Attempt) :
  (forall k, k <= MAX_RETRIES -> probe k = probe' k) ->
  checkServerStatus probe = checkServerStatus probe' /\
  requestsIssued probe = requestsIssued probe'.
Proof.
  intros Hagree.
  assert (H : forall fuel k, MAX_RETRIES - k = fuel -> k <= MAX_RETRIES ->
                checkServerWithRetry probe k = checkServerWithRetry probe' k).
  { induction fuel as [fuel IH] using lt_wf_ind. intros k Hk Hle.
    rewrite (checkServerWithRetry_unfold probe k),
            (checkServerWithRetry_unfold probe' k).
    rewrite <- (Hagree k) by assumption.
    destruct (outcome (probe k)) as [|e]; [reflexivity|].
    destruct (Nat.ltb_spec k MAX_RETRIES) as [Hlt|Hge];
      [|now rewrite andb_false_r].
    destruct (isTimeout e); cbn [andb]; [|reflexivity].
    now rewrite (IH (MAX_RETRIES - (k + 1)) ltac:(lia) (k + 1) eq_refl ltac:(lia)). }
  unfold checkServerStatus, requestsIssued.
  now rewrite (H (MAX_RETRIES - 0) 0 eq_refl (Nat.le_0_l _)).
Qed.

Lemma only_three_attempts_matter_witness :
  checkServerStatus (timeoutsThen (mkAttempt (Response 200) 180))
  = checkServerStatus (fun k => if k <? 3
                                then timeoutsThen (mkAttempt (Response 200) 180) k
                                else mkAttempt (Throws NonError) 1).
Proof.
  apply (only_three_attempts_matter
           (timeoutsThen (mkAttempt (Response 200) 180))
           (fun k => if k <? 3
                     then timeoutsThen (mkAttempt (Response 200) 180) k
                     else mkAttempt (Throws NonError) 1)).
  intros [|[|[|k]]] Hk; try reflexivity. unfold MAX_RETRIES in Hk. lia.
Defined.

(* ===================================================================== *)
(** * Further properties of the monitor                                    *)
(* ===================================================================== *)

Lemma getServers_updatedList (serverId : string) (updates : Updates.t) (w : World) :
  getServers (updateServer serverId updates w)
  = updatedList serverId updates (getServers w).
Proof. apply getServers_updateServer. Qed.

Lemma getServers_fold_settleOne (results : list Checked) (w : World) (hasChanges : bool) :
  getServers (fst (fold_left settleOne results (w, hasChanges)))
  = settledList results (getServers w).
Proof.
  revert w hasChanges. induction results as [|c results IH]; intros w hasChanges;
    [reflexivity|].
  unfold settledList. cbn [fold_left]. unfold settleOne at 2.
  destruct (differs (c_server c) (c_result c)); rewrite IH.
  - now rewrite getServers_updatedList.
  - reflexivity.
Qed.

Lemma getServers_settleChecks (results : list Checked) (w : World) :
  getServers (settleChecks results w) = settledList results (getServers w).
Proof.
  unfold settleChecks.
  pose proof (getServers_fold_settleOne results w false) as H.
  destruct (fold_left settleOne results (w, false)) as [w' hasChanges].
  cbn [fst] in H. destruct hasChanges; [rewrite getServers_notify|]; exact H.
Qed.

Lemma identityOf_statusUpdates (s : WooCommerceServer) (result : CheckResult)
  (now : string) :
  identityOf (applyUpdates s (statusUpdates result now)) = identityOf s.
Proof. reflexivity. Qed.

Lemma identityOf_updatedList (serverId : string) (result : CheckResult) (now : string)
  (l : list WooCommerceServer) :
  map identityOf (updatedList serverId (statusUpdates result now) l) = map identityOf l.
Proof.
  unfold updatedList.
  destruct (findIndex _ l) as [i|]; [|reflexivity].
  destruct (nth_error l i) as [old|] eqn:Hnth; [|reflexivity].
  now apply (map_setAt identityOf i _ old).
Qed.

Lemma identityOf_settledList (results : list Checked) (l : list WooCommerceServer) :
  map identityOf (settledList results l) = map identityOf l.
Proof.
  unfold settledList. revert l. induction results as [|c results IH]; intros l;
    [reflexivity|].
  cbn [fold_left]. rewrite IH.
  destruct (differs (c_server c) (c_result c)); [|reflexivity].
  apply identityOf_updatedList.
Qed.

(** X10: whatever the probes report, and whatever happened to the
    registry while they were awaited, settling a monitoring run never
    adds, removes or reorders records and never changes an id, a name, a
    url, the credentials or the active flag of a record: a store deleted
    in the meantime is not brought back. *)
Theorem monitor_keeps_identity (results : list Checked) (w : World) :
  map identityOf (getServers (settleChecks results w))
  = map identityOf (getServers w) /\
  List.length (getServers (settleChecks results w)) = List.length (getServers w) /\
  map Server.id (getServers (settleChecks results w)) = map Server.id (getServers w).
Proof.
  rewrite getServers_settleChecks.
  pose proof (identityOf_settledList results (getServers w)) as H.
  split; [exact H|]. split.
  - apply (f_equal (@List.length _)) in H. now rewrite !length_map in H.
  - apply (f_equal (map (fun t => fst (fst (fst (fst (fst t))))))) in H.
    now rewrite !map_map in H.
Qed.

Lemma nth_error_mapiFrom {A B} (f : nat -> A -> B) (l : list A) (start i : nat) :
  nth_error (mapiFrom start f l) i = option_map (f (start + i)) (nth_error l i).
Proof.
  revert start i. induction l as [|x l IH]; intros start [|i]; simpl; try reflexivity.
  - now rewrite Nat.add_0_r.
  - rewrite IH. now replace (S start + i) with (start + S i) by lia.
Qed.

Lemma refreshed_id (s : WooCommerceServer) (result : CheckResult) (now : string) :
  Server.id (refreshed s result now) = Server.id s.
Proof. unfold refreshed. now destruct (differs s result). Qed.

Lemma refreshed_sameAsStored (s : WooCommerceServer) (result : CheckResult)
  (now : string) :
  sameAsStored (refreshed s result now) result.
Proof.
  unfold refreshed. destruct (differs s result) eqn:Hd.
  - repeat split.
  - now apply differs_false_iff.
Qed.

(** The [forEach] over a registry with pairwise distinct ids, read off
    position by position. *)
Lemma settledList_positions (probes : nat -> nat -> Attempt) (clock : nat -> string)
  (todo done : list WooCommerceServer) (start : nat) :
  NoDup (map Server.id (done ++ todo)) ->
  settledList
    (mapiFrom start
       (fun i server => mkChecked server (checkServerStatus (probes i)) (clock i)) todo)
    (done ++ todo)
  = done ++ mapiFrom start
       (fun i server => refreshed server (checkServerStatus (probes i)) (clock i)) todo.
Proof.
  revert done start. induction todo as [|s rest IH]; intros done start Hnd;
    [reflexivity|].
  cbn [mapiFrom]. unfold settledList. cbn [fold_left c_server c_result c_now].
  fold (settledList
          (mapiFrom (S start)
             (fun i server => mkChecked server (checkServerStatus (probes i)) (clock i))
             rest)).
  assert (Hstep :
    (if differs s (checkServerStatus (probes start))
     then updatedList (Server.id s)
            (statusUpdates (checkServerStatus (probes start)) (clock start))
            (done ++ s :: rest)
     else done ++ s :: rest)
    = (done ++ [refreshed s (checkServerStatus (probes start)) (clock start)]) ++ rest).
  { rewrite <- app_assoc. cbn [app]. unfold refreshed.
    destruct (differs s (checkServerStatus (probes start))); [|reflexivity].
    unfold updatedList.
    rewrite findIndex_app_skip.
    - cbn [findIndex]. rewrite String.eqb_refl. cbn [option_map].
      rewrite Nat.add_0_r.
      rewrite nth_error_app2 by lia. rewrite Nat.sub_diag. cbn [nth_error].
      apply setAt_app_head.
    - intros x Hx. apply String.eqb_neq. intros Heq.
      rewrite map_app in Hnd. cbn [map] in Hnd.
      apply NoDup_remove_2 in Hnd. apply Hnd.
      apply in_or_app. left. rewrite <- Heq. now apply in_map. }
  rewrite Hstep. rewrite IH.
  - rewrite <- app_assoc. reflexivity.
  - rewrite <- app_assoc. cbn [app].
    rewrite map_app in *. cbn [map] in *. now rewrite refreshed_id.
Qed.

Lemma ids_updatedList (serverId : string) (updates : Updates.t)
  (l : list WooCommerceServer) :
  Updates.id updates = None ->
  map Server.id (updatedList serverId updates l) = map Server.id l.
Proof.
  intros Hid. unfold updatedList.
  destruct (findIndex _ l) as [i|]; [|reflexivity].
  destruct (nth_error l i) as [old|] eqn:Hnth; [|reflexivity].
  apply (map_setAt Server.id i _ old); [assumption|].
  unfold applyUpdates; cbn [Server.id]. now rewrite Hid.
Qed.

Lemma ids_settledList (results : list Checked) (l : list WooCommerceServer) :
  map Server.id (settledList results l) = map Server.id l.
Proof.
  pose proof (identityOf_settledList results l) as H.
  apply (f_equal (map (fun t => fst (fst (fst (fst (fst t))))))) in H.
  now rewrite !map_map in H.
Qed.

Lemma checkAllServersStatus_positions (probes : nat -> nat -> Attempt)
  (clock : nat -> string) (w : World) :
  NoDup (map Server.id (getServers w)) ->
  getServers (checkAllServersStatus probes clock (getServers w) w)
  = mapi (fun i server => refreshed server (checkServerStatus (probes i)) (clock i))
         (getServers w).
Proof.
  intros Hnd. unfold checkAllServersStatus. rewrite getServers_settleChecks.
  unfold probeAll, mapi.
  exact (settledList_positions probes clock (getServers w) [] 0 Hnd).
Qed.

(** With pairwise distinct ids, writing the first record with an id is
    writing every record with that id. *)
Lemma updatedList_by_id (serverId : string) (updates : Updates.t)
  (l : list WooCommerceServer) :
  NoDup (map Server.id l) ->
  updatedList serverId updates l
  = map (fun r => if String.eqb (Server.id r) serverId
                  then applyUpdates r updates else r) l.
Proof.
  induction l as [|x l IH]; intros Hnd; [reflexivity|].
  inversion Hnd as [|? ? Hnotin Hnd']; subst.
  unfold updatedList. cbn [findIndex map].
  destruct (String.eqb_spec (Server.id x) serverId) as [Hx|Hx].
  - cbn [nth_error setAt]. f_equal.
    rewrite <- (map_id l) at 1. apply map_ext_in. intros r Hr.
    destruct (String.eqb_spec (Server.id r) serverId) as [Hr'|]; [|reflexivity].
    exfalso. apply Hnotin. rewrite Hx, <- Hr'. now apply in_map.
  - specialize (IH Hnd'). unfold updatedList in IH.
    destruct (findIndex (fun s => String.eqb (Server.id s) serverId) l) as [i|];
      cbn [option_map nth_error].
    + destruct (nth_error l i) as [old|]; cbn [setAt].
      * now rewrite IH.
      * now rewrite <- IH.
    + now rewrite <- IH.
Qed.

Lemma settledRecord_id (results : list Checked) (r : WooCommerceServer) :
  Server.id (settledRecord results r) = Server.id r.
Proof.
  unfold settledRecord. now destruct (find _ results).
Qed.

Lemma settledRecord_cons (c : Checked) (results : list Checked) (r : WooCommerceServer) :
  settledRecord (c :: results) r
  = if String.eqb (Server.id (c_server c)) (Server.id r) && changed c
    then applyUpdates r (statusUpdates (c_result c) (c_now c))
    else settledRecord results r.
Proof.
  unfold settledRecord. cbn [find].
  now destruct (String.eqb (Server.id (c_server c)) (Server.id r) && changed c).
Qed.

(** The [forEach] over any registry with pairwise distinct ids, for a
    snapshot with pairwise distinct ids, read off record by record. *)
Lemma settledList_by_id (results : list Checked) (l : list WooCommerceServer) :
  NoDup (map Server.id l) ->
  NoDup (map (fun c => Server.id (c_server c)) results) ->
  settledList results l = map (settledRecord results) l.
Proof.
  revert l. induction results as [|c results IH]; intros l Hl Hres.
  - unfold settledList, settledRecord. cbn [fold_left find].
    symmetry. apply map_id.
  - inversion Hres as [|? ? Hnotin Hres']; subst.
    unfold settledList. cbn [fold_left].
    fold (settledList results).
    assert (Hfresh : forall r, Server.id r = Server.id (c_server c) ->
                settledRecord results r = r).
    { intros r Hr. unfold settledRecord.
      destruct (find _ results) as [c'|] eqn:Hfind; [|reflexivity].
      apply find_some in Hfind. destruct Hfind as [Hin Hc'].
      apply andb_true_iff in Hc'. destruct Hc' as [Hid _].
      apply String.eqb_eq in Hid. exfalso. apply Hnotin.
      rewrite <- Hr, <- Hid. now apply (in_map (fun c => Server.id (c_server c))). }
    destruct (differs (c_server c) (c_result c)) eqn:Hd.
    + rewrite IH; [|rewrite ids_updatedList by reflexivity; assumption | assumption].
      rewrite updatedList_by_id by assumption. rewrite map_map.
      apply map_ext. intros r. rewrite (settledRecord_cons c results r).
      unfold changed. rewrite Hd, andb_true_r.
      rewrite (String.eqb_sym (Server.id (c_server c)) (Server.id r)).
      destruct (String.eqb_spec (Server.id r) (Server.id (c_server c))) as [Hr|Hr].
      * apply Hfresh. exact Hr.
      * reflexivity.
    + rewrite IH by assumption. apply map_ext. intros r.
      rewrite (settledRecord_cons c results r). unfold changed.
      now rewrite Hd, andb_false_r.
Qed.

(** X11: whatever happened while the probes were awaited, when the ids
    of the registry and of the snapshot are pairwise distinct the settling
    of a run leaves of every stored record this: the record merged with
    the result of the snapshot's entry with its id, if that entry's
    status, message or response time differed from the snapshot, and the
    record itself otherwise (also when its id is not in the snapshot).
    In particular, a run during which nothing else wrote the registry
    leaves at every position the record with the status, message and
    response time of its own probe. *)
Theorem monitor_refreshes_each_store (probes : nat -> nat -> Attempt)
  (clock : nat -> string) :
  (forall (snapshot : list WooCommerceServer) (w : World),
     NoDup (map Server.id (getServers w)) ->
     NoDup (map Server.id snapshot) ->
     getServers (checkAllServersStatus probes clock snapshot w)
     = map (settledRecord (probeAll probes clock snapshot)) (getServers w)) /\
  (forall (w : World),
     NoDup (map Server.id (getServers w)) ->
     getServers (checkAllServersStatus probes clock (getServers w) w)
     = mapi (fun i server => refreshed server (checkServerStatus (probes i)) (clock i))
            (getServers w) /\
     (forall i server,
        nth_error (getServers w) i = Some server ->
        exists server',
          nth_error (getServers (checkAllServersStatus probes clock (getServers w) w)) i
          = Some server' /\
          sameAsStored server' (checkServerStatus (probes i)) /\
          identityOf server' = identityOf server)).
Proof.
  split.
  - intros snapshot w Hw Hsnap. unfold checkAllServersStatus.
    rewrite getServers_settleChecks. apply settledList_by_id; [assumption|].
    unfold probeAll, mapi.
    assert (Hids : forall start,
              map (fun c => Server.id (c_server c))
                  (mapiFrom start
                     (fun i server =>
                        mkChecked server (checkServerStatus (probes i)) (clock i))
                     snapshot)
              = map Server.id snapshot).
    { induction snapshot as [|s snapshot IHs]; intros start; [reflexivity|].
      cbn [mapiFrom map c_server]. f_equal. apply IHs.
      now inversion Hsnap. }
    now rewrite Hids.
  - intros w Hnd.
    pose proof (checkAllServersStatus_positions probes clock w Hnd) as Hlist.
    split; [exact Hlist|].
    intros i server Hnth. rewrite Hlist. unfold mapi.
    rewrite nth_error_mapiFrom, Hnth. cbn [option_map Nat.add].
    eexists. split; [reflexivity|]. split; [apply refreshed_sameAsStored|].
    unfold refreshed. now destruct (differs server (checkServerStatus (probes i))).
Qed.

(** The second of two overlapping runs that both read the store as
    [offline] writes only what its own snapshot differs in: here the whole
    result, over what the first run stored. *)
Lemma monitor_refreshes_each_store_witness :
  getServers (checkAllServersStatus steadyProbes someClock [shopB] secondRunPending)
  = map (settledRecord (probeAll steadyProbes someClock [shopB]))
        (getServers secondRunPending) /\
  getServers (checkAllServersStatus steadyProbes someClock (getServers twoShops) twoShops)
  = mapi (fun i server => refreshed server (checkServerStatus (steadyProbes i)) (someClock i))
         (getServers twoShops).
Proof.
  split.
  - apply (proj1 (monitor_refreshes_each_store steadyProbes someClock)
             [shopB] secondRunPending);
      repeat constructor; simpl; intuition discriminate.
  - apply (proj1 (proj2 (monitor_refreshes_each_store steadyProbes someClock) twoShops
                    ltac:(repeat constructor; simpl; intuition discriminate))).
Defined.

(** X12: when a run, during which nothing else wrote the registry, has
    settled over a registry with pairwise distinct ids, a later run that
    reads the registry as that run left it and gets the same answers
    changes nothing and emits nothing (no write, no call of an observer)
    when it settles, whatever the clock reads and whatever was done to the
    world while its probes were awaited. *)
Theorem monitor_settles (probes : nat -> nat -> Attempt) (clock clock' : nat -> string)
  (w later : World) :
  NoDup (map Server.id (getServers w)) ->
  let w1 := checkAllServersStatus probes clock (getServers w) w in
  checkAllServersStatus probes clock' (getServers w1) later = later /\
  emitted later (checkAllServersStatus probes clock' (getServers w1) later) = [].
Proof.
  intros Hnd. cbv zeta.
  assert (Hsame : checkAllServersStatus probes clock'
                    (getServers (checkAllServersStatus probes clock (getServers w) w))
                    later
                  = later).
  { unfold checkAllServersStatus at 1.
    apply settleChecks_same. intros c Hc.
    unfold probeAll, mapi in Hc. apply In_mapiFrom in Hc.
    destruct Hc as (i & server' & Hnth & ->). cbn [c_server c_result Nat.add].
    rewrite (checkAllServersStatus_positions probes clock w Hnd) in Hnth.
    unfold mapi in Hnth. rewrite nth_error_mapiFrom in Hnth.
    destruct (nth_error (getServers w) i) as [server|]; [|discriminate].
    cbn [option_map Nat.add] in Hnth. injection Hnth as <-.
    apply refreshed_sameAsStored. }
  rewrite Hsame. split; [reflexivity | apply emitted_refl].
Qed.

Lemma monitor_settles_witness :
  checkAllServersStatus steadyProbes someClock
    (getServers (checkAllServersStatus steadyProbes someClock
                   (getServers twoShops) twoShops))
    (perform (DeleteServer "b")
       (checkAllServersStatus steadyProbes someClock (getServers twoShops) twoShops))
  = perform (DeleteServer "b")
      (checkAllServersStatus steadyProbes someClock (getServers twoShops) twoShops).
Proof.
  apply (proj1 (monitor_settles steadyProbes someClock someClock twoShops
                  (perform (DeleteServer "b")
                     (checkAllServersStatus steadyProbes someClock
                        (getServers twoShops) twoShops))
                  ltac:(repeat constructor; simpl; intuition discriminate))).
Defined.

Lemma countIf_app {A} (p : A -> bool) (l l' : list A) :
  countIf p (l ++ l') = countIf p l + countIf p l'.
Proof. unfold countIf. now rewrite filter_app, length_app. Qed.

Lemma countIf_cons {A} (p : A -> bool) (x : A) (l : list A) :
  countIf p (x :: l) = (if p x then 1 else 0) + countIf p l.
Proof. unfold countIf. cbn [filter]. now destruct (p x). Qed.

Lemma countIf_ext {A} (p q : A -> bool) (l : list A) :
  (forall x, p x = q x) -> countIf p l = countIf q l.
Proof.
  intros H. unfold countIf. f_equal. apply filter_ext. exact H.
Qed.

Lemma countIf_notifications (servers : list WooCommerceServer)
  (cbs : list ServerMonitorCallback) :
  countIf isNotify (map (fun cb => Notify cb servers) cbs) = List.length cbs /\
  countIf isSetItem (map (fun cb => Notify cb servers) cbs) = 0.
Proof.
  unfold countIf. induction cbs as [|cb cbs [IH1 IH2]]; simpl; auto.
Qed.

Lemma trace_updateServer_present (serverId : string) (updates : Updates.t) (w : World) :
  existsb (fun s => String.eqb (Server.id s) serverId) (getServers w) = true ->
  trace (updateServer serverId updates w)
  = trace w ++
    SetItem (getServers (updateServer serverId updates w)) ::
    map (fun cb => Notify cb (getServers (updateServer serverId updates w)))
        (monitorCallbacks w).
Proof.
  rewrite findIndex_existsb. intros Hin. unfold updateServer; cbv zeta.
  destruct (findIndex (fun s => String.eqb (Server.id s) serverId) (getServers w))
    as [i|] eqn:Hi; [|discriminate].
  destruct (findIndex_Some _ _ _ Hi) as (old & Hnth & _). rewrite Hnth.
  unfold notifyMonitorCallbacks, emit, setStorage; cbn [trace getServers storage
    monitorCallbacks]. now rewrite <- app_assoc.
Qed.

Lemma updateServer_absent (serverId : string) (updates : Updates.t) (w : World) :
  existsb (fun s => String.eqb (Server.id s) serverId) (getServers w) = false ->
  updateServer serverId updates w = w.
Proof.
  rewrite findIndex_existsb. intros Hin. unfold updateServer; cbv zeta.
  now destruct (findIndex (fun s => String.eqb (Server.id s) serverId) (getServers w)).
Qed.

Lemma stillRegistered_ids (w w' : World) (c : Checked) :
  map Server.id (getServers w') = map Server.id (getServers w) ->
  stillRegistered w' c = stillRegistered w c.
Proof.
  intros Hids. unfold stillRegistered.
  assert (H : forall l : list WooCommerceServer,
            existsb (fun s => String.eqb (Server.id s) (Server.id (c_server c))) l
            = existsb (fun i => String.eqb i (Server.id (c_server c))) (map Server.id l)).
  { induction l as [|x l IH]; [reflexivity|]. cbn [existsb map]. now rewrite IH. }
  now rewrite !H, Hids.
Qed.

(** What the [forEach] appends to the trace, in any world. *)
Lemma trace_fold_settleOne (results : list Checked) (w : World) (hasChanges : bool) :
  exists events,
    trace (fst (fold_left settleOne results (w, hasChanges))) = trace w ++ events /\
    countIf isSetItem events
    = countIf (fun c => changed c && stillRegistered w c) results /\
    countIf isNotify events
    = countIf (fun c => changed c && stillRegistered w c) results
      * List.length (monitorCallbacks w) /\
    snd (fold_left settleOne results (w, hasChanges))
    = hasChanges || existsb changed results /\
    monitorCallbacks (fst (fold_left settleOne results (w, hasChanges)))
    = monitorCallbacks w.
Proof.
  revert w hasChanges. induction results as [|c results IH]; intros w hasChanges.
  - exists []. cbn [fold_left fst snd existsb]. rewrite app_nil_r, orb_false_r.
    repeat split.
  - cbn [fold_left existsb]. unfold settleOne at 2 4 6.
    rewrite (countIf_cons (fun c => changed c && stillRegistered w c) c results).
    cbv beta. unfold changed at 1 3 5.
    destruct (differs (c_server c) (c_result c)) eqn:Hd; cbn [andb].
    + set (w1 := updateServer (Server.id (c_server c))
                   (statusUpdates (c_result c) (c_now c)) w).
      assert (Hids : map Server.id (getServers w1) = map Server.id (getServers w)).
      { unfold w1. rewrite getServers_updatedList. now apply ids_updatedList. }
      assert (Hcbs : monitorCallbacks w1 = monitorCallbacks w).
      { pose proof (monitorPart_updateServer (Server.id (c_server c))
                      (statusUpdates (c_result c) (c_now c)) w) as H.
        apply (f_equal (fun t => snd (fst t))) in H. exact H. }
      destruct (IH w1 true) as (events & Htr & Hset & Hnot & Hflag & Hcb).
      rewrite (countIf_ext (fun c => changed c && stillRegistered w1 c)
                           (fun c => changed c && stillRegistered w c)) in Hset, Hnot
        by (intros c'; now rewrite (stillRegistered_ids w w1 c' Hids)).
      destruct (stillRegistered w c) eqn:Hreg.
      * exists (SetItem (getServers w1) ::
                map (fun cb => Notify cb (getServers w1)) (monitorCallbacks w) ++ events).
        rewrite Htr, Hflag, Hcb, Hcbs. unfold w1 at 1.
        rewrite trace_updateServer_present by exact Hreg.
        fold w1. rewrite <- app_assoc. cbn [app].
        split; [reflexivity|].
        change (SetItem (getServers w1) ::
                map (fun cb => Notify cb (getServers w1)) (monitorCallbacks w) ++ events)
          with ([SetItem (getServers w1)] ++
                map (fun cb => Notify cb (getServers w1)) (monitorCallbacks w) ++ events).
        rewrite !countIf_app.
        destruct (countIf_notifications (getServers w1) (monitorCallbacks w)) as [-> ->].
        rewrite Hset, Hnot, Hcbs.
        rewrite !countIf_cons. cbn [isSetItem isNotify].
        unfold countIf at 1 3. cbn [filter List.length].
        repeat split; try lia; try (now rewrite orb_true_r).
      * assert (Hw1 : w1 = w) by (unfold w1; now apply updateServer_absent).
        exists events. rewrite Htr, Hflag, Hcb, Hcbs, Hw1.
        repeat split; try assumption; try lia; try (now rewrite orb_true_r).
        rewrite Hnot, Hcbs. cbn [Nat.add]. reflexivity.
    + destruct (IH w hasChanges) as (events & Htr & Hset & Hnot & Hflag & Hcb).
      exists events. rewrite Htr, Hflag, Hcb. repeat split; assumption.
Qed.

Lemma existsb_countIf {A} (p : A -> bool) (l : list A) :
  existsb p l = negb (Nat.eqb (countIf p l) 0).
Proof.
  unfold countIf. induction l as [|x l IH]; [reflexivity|].
  cbn [existsb filter]. destruct (p x); [reflexivity | exact IH].
Qed.

(** X13: whatever happened while the probes were awaited, when a run
    settles every store of its snapshot whose status, message or response
    time changed and which is still in the registry costs one write of
    the whole collection and one call of every observer, and a run with
    at least one changed store (still registered or not) ends with one
    more call of every observer.  When nothing removed a store in between,
    [n > 0] changed stores thus give [n] writes and [n + 1] calls of each
    observer. *)
Theorem monitor_broadcast_count (probes : nat -> nat -> Attempt) (clock : nat -> string)
  (snapshot : list WooCommerceServer) (w : World) :
  let w' := checkAllServersStatus probes clock snapshot w in
  let results := probeAll probes clock snapshot in
  let n := countIf changed results in
  let written := countIf (fun c => changed c && stillRegistered w c) results in
  countIf isSetItem (emitted w w') = written /\
  countIf isNotify (emitted w w')
  = (written + (if Nat.eqb n 0 then 0 else 1)) * List.length (monitorCallbacks w) /\
  ((forall c, In c results -> stillRegistered w c = true) ->
   countIf isSetItem (emitted w w') = n /\
   countIf isNotify (emitted w w')
   = (if Nat.eqb n 0 then 0 else n + 1) * List.length (monitorCallbacks w)).
Proof.
  cbv zeta. unfold checkAllServersStatus.
  set (results := probeAll probes clock snapshot).
  assert (Hcount :
    countIf isSetItem (emitted w (settleChecks results w))
    = countIf (fun c => changed c && stillRegistered w c) results /\
    countIf isNotify (emitted w (settleChecks results w))
    = (countIf (fun c => changed c && stillRegistered w c) results
       + (if Nat.eqb (countIf changed results) 0 then 0 else 1))
      * List.length (monitorCallbacks w)).
  { destruct (trace_fold_settleOne results w false)
      as (events & Htr & Hset & Hnot & Hflag & Hcb).
    unfold settleChecks.
    destruct (fold_left settleOne results (w, false)) as [w1 hasChanges].
    cbn [fst snd orb] in *. rewrite Hflag, existsb_countIf.
    destruct (Nat.eqb (countIf changed results) 0) eqn:Hzero; cbn [negb].
    - unfold emitted. rewrite Htr, skipn_length_app.
      rewrite Hset, Hnot. split; lia.
    - unfold emitted, notifyMonitorCallbacks, emit; cbn [trace].
      rewrite Htr, <- app_assoc, skipn_length_app, !countIf_app.
      destruct (countIf_notifications (getServers w1) (monitorCallbacks w1)) as [-> ->].
      rewrite Hset, Hnot, Hcb. split; lia. }
  destruct Hcount as [Hset Hnot].
  split; [exact Hset|]. split; [exact Hnot|].
  intros Hreg.
  assert (Hall : countIf (fun c => changed c && stillRegistered w c) results
                 = countIf changed results).
  { unfold countIf. f_equal. apply filter_ext_in. intros c Hc.
    now rewrite (Hreg c Hc), andb_true_r. }
  rewrite Hset, Hnot, Hall.
  split; [reflexivity|].
  destruct (Nat.eqb_spec (countIf changed results) 0) as [->|Hne]; lia.
Qed.

(** Both stores of the snapshot changed, one of them was deleted while
    the probes were awaited: one write, two calls of the observer. *)
Lemma monitor_broadcast_count_witness :
  countIf isSetItem
    (emitted (perform (DeleteServer "b") twoShops)
       (checkAllServersStatus steadyProbes someClock [shopA; shopB]
          (perform (DeleteServer "b") twoShops))) = 1 /\
  countIf isNotify
    (emitted (perform (DeleteServer "b") twoShops)
       (checkAllServersStatus steadyProbes someClock [shopA; shopB]
          (perform (DeleteServer "b") twoShops))) = 2 /\
  countIf isSetItem
    (emitted twoShops
       (checkAllServersStatus steadyProbes someClock [shopA; shopB] twoShops)) = 2 /\
  countIf isNotify
    (emitted twoShops
       (checkAllServersStatus steadyProbes someClock [shopA; shopB] twoShops)) = 3.
Proof.
  pose proof (monitor_broadcast_count steadyProbes someClock [shopA; shopB]
                (perform (DeleteServer "b") twoShops)) as H.
  cbv zeta in H. destruct H as (Hset & Hnot & _).
  pose proof (monitor_broadcast_count steadyProbes someClock [shopA; shopB] twoShops)
    as H'.
  cbv zeta in H'. destruct H' as (_ & _ & H').
  destruct H' as [Hset' Hnot'].
  { intros c [<-|[<-|[]]]; reflexivity. }
  rewrite Hset, Hnot, Hset', Hnot'. repeat split.
Defined.

(* ===================================================================== *)
(** * Registry ids stay pairwise distinct                                  *)
(* ===================================================================== *)

Lemma NoDup_map_filter_ids (p : WooCommerceServer -> bool) (l : list WooCommerceServer) :
  NoDup (map Server.id l) -> NoDup (map Server.id (filter p l)).
Proof.
  induction l as [|x l IH]; simpl; intros H; [constructor|].
  inversion H as [|? ? Hnotin Hnd]; subst.
  destruct (p x); simpl; [|now apply IH].
  constructor; [|now apply IH].
  intros Hin. apply Hnotin. apply in_map_iff in Hin.
  destruct Hin as (e & He & Hf). apply filter_In in Hf.
  apply in_map_iff. exists e. tauto.
Qed.

Lemma storage_startMonitoring (callback : option ServerMonitorCallback) (w : World) :
  storage (startMonitoring callback w) = storage w.
Proof.
  unfold startMonitoring.
  destruct callback; cbn [pushCallback monitoringInterval storage];
    destruct (monitoringInterval w); reflexivity.
Qed.

Lemma storage_stopMonitoring (callback : option ServerMonitorCallback) (w : World) :
  storage (stopMonitoring callback w) = storage w.
Proof.
  unfold stopMonitoring.
  destruct (monitorCallbacks (dropCallback callback w));
    [destruct (monitoringInterval (dropCallback callback w))|];
    destruct callback; reflexivity.
Qed.

(** X14: the ids of the registry stay pairwise distinct under every
    operation of the service and every monitoring event, as long as
    [addServer] is given a token no record carries and [updateServer] is
    not used to overwrite an id. *)
Theorem registry_ids_stay_distinct (a : Action) (w : World) :
  NoDup (map Server.id (getServers w)) ->
  idSafe a w = true ->
  NoDup (map Server.id (getServers (perform a w))).
Proof.
  intros Hnd Hsafe.
  destruct a as [server uuid|sid upd|sid|sid|callback|callback|handle|k probes clock];
    cbn [perform idSafe] in *.
  - unfold addServer; cbn [snd]. rewrite getServers_notify, getServers_setStorage.
    rewrite map_app. cbn [map Server.id].
    apply NoDup_app; [assumption | repeat constructor; intros [] |].
    intros x Hx [<-|[]].
    apply negb_true_iff in Hsafe.
    assert (existsb (String.eqb uuid) (map Server.id (getServers w)) = true).
    { apply existsb_exists. exists uuid. split; [assumption | apply String.eqb_refl]. }
    congruence.
  - rewrite getServers_updatedList, ids_updatedList; [assumption|].
    now destruct (Updates.id upd).
  - rewrite getServers_deleteServer. now apply NoDup_map_filter_ids.
  - now rewrite (proj2 (toggleServerActive_ids sid w)).
  - unfold getServers. now rewrite storage_startMonitoring.
  - unfold getServers. now rewrite storage_stopMonitoring.
  - assumption.
  - rewrite getServers_settleChecks, ids_settledList. exact Hnd.
Qed.

Lemma registry_ids_stay_distinct_witness :
  NoDup (map Server.id (getServers (perform (AddServer shopC "c") twoShops))).
Proof.
  apply (registry_ids_stay_distinct (AddServer shopC "c") twoShops).
  - repeat constructor; simpl; intuition discriminate.
  - reflexivity.
Defined.

(* ===================================================================== *)
(** * Further properties of the monitoring interval                        *)
(* ===================================================================== *)

(** X15: [startMonitoring] never stacks intervals: however often it has
    been called, after a call exactly one interval is live, the one the
    service remembers; a call while the interval runs keeps the handle and
    launches no extra check. *)
Theorem startMonitoring_single_interval (callback : option ServerMonitorCallback)
  (w : World) :
  reachable w ->
  (exists handle,
     monitoringInterval (startMonitoring callback w) = Some handle /\
     timers (startMonitoring callback w) = [(handle, 5000%Z)]) /\
  List.length (timers w) <= 1 /\
  (forall handle, monitoringInterval w = Some handle ->
     monitoringInterval (startMonitoring callback w) = Some handle /\
     inflight (startMonitoring callback w) = inflight w).
Proof.
  intros Hreach.
  pose proof (reachable_monitorInvariant w Hreach) as [Htimers _].
  pose proof (monitorInvariant_start callback w (reachable_monitorInvariant w Hreach))
    as [Htimers' _].
  split; [|split].
  - rewrite Htimers'.
    destruct (monitoringInterval (startMonitoring callback w)) as [handle|] eqn:Hint.
    + exists handle. split; reflexivity.
    + exfalso. unfold startMonitoring in Hint.
      destruct (monitoringInterval (pushCallback callback w)) eqn:Hp;
        cbn [monitoringInterval] in Hint; congruence.
  - rewrite Htimers. destruct (monitoringInterval w); simpl; lia.
  - intros handle Hint. unfold startMonitoring.
    assert (Hp : monitoringInterval (pushCallback callback w) = Some handle)
      by (destruct callback; exact Hint).
    rewrite Hp. split; [exact Hp|]. now destruct callback.
Qed.

Lemma startMonitoring_single_interval_witness :
  exists handle,
    monitoringInterval (startMonitoring (Some 8) watched) = Some handle /\
    timers (startMonitoring (Some 8) watched) = [(handle, 5000%Z)].
Proof.
  apply (startMonitoring_single_interval (Some 8) watched).
  apply (reach_step (initialWorld (Some [shopA; shopB])) (StartMonitoring (Some 7))
           (reach_init _) eq_refl).
Defined.

Lemma filter_others (cb callback : nat) (l : list nat) :
  cb <> callback ->
  filter (Nat.eqb cb) (filter (fun x => negb (Nat.eqb x callback)) l)
  = filter (Nat.eqb cb) l.
Proof.
  intros Hne. induction l as [|x l IH]; [reflexivity|].
  cbn [filter]. destruct (Nat.eqb_spec x callback) as [->|Hx]; cbn [negb filter].
  - destruct (Nat.eqb_spec cb callback); [contradiction|exact IH].
  - destruct (Nat.eqb cb x); now rewrite IH.
Qed.

(** X16: [stopMonitoring(callback)] removes every registration of the
    callback (also one made several times) and keeps the other observers
    in their order; as long as another observer stays registered the
    interval keeps running under the same handle. *)
Theorem stopMonitoring_unsubscribes (callback : ServerMonitorCallback) (w : World) :
  reachable w ->
  let w' := stopMonitoring (Some callback) w in
  ~ In callback (monitorCallbacks w') /\
  (forall cb, cb <> callback ->
     (In cb (monitorCallbacks w') <-> In cb (monitorCallbacks w)) /\
     countIf (Nat.eqb cb) (monitorCallbacks w') = countIf (Nat.eqb cb) (monitorCallbacks w)) /\
  ((exists cb, cb <> callback /\ In cb (monitorCallbacks w)) ->
   monitoringInterval w' = monitoringInterval w /\
   timers w' = timers w /\
   exists handle, monitoringInterval w' = Some handle /\
                  enabled (Tick handle) w' = true).
Proof.
  intros Hreach. cbv zeta.
  pose proof (reachable_monitorInvariant w Hreach) as [Htimers Hobs].
  assert (Hcbs : monitorCallbacks (stopMonitoring (Some callback) w)
                 = filter (fun cb => negb (Nat.eqb cb callback)) (monitorCallbacks w)).
  { unfold stopMonitoring. cbn [dropCallback monitorCallbacks monitoringInterval].
    destruct (filter (fun cb => negb (Nat.eqb cb callback)) (monitorCallbacks w))
      eqn:Hf; [|reflexivity].
    now destruct (monitoringInterval w). }
  rewrite Hcbs. split; [|split].
  - intros Hin. apply filter_In in Hin. destruct Hin as [_ Hne].
    now rewrite Nat.eqb_refl in Hne.
  - intros cb Hne. split.
    + rewrite filter_In, negb_true_iff, Nat.eqb_neq. tauto.
    + unfold countIf. f_equal. now apply filter_others.
  - intros (cb & Hne & Hin).
    assert (Hkeep : In cb (filter (fun cb => negb (Nat.eqb cb callback))
                                  (monitorCallbacks w))).
    { apply filter_In. split; [assumption|]. now apply negb_true_iff, Nat.eqb_neq. }
    assert (Hrun : monitoringInterval w <> None).
    { apply Hobs. intros Hnil. rewrite Hnil in Hin. contradiction. }
    assert (Hw' : monitoringInterval (stopMonitoring (Some callback) w)
                  = monitoringInterval w /\
                  timers (stopMonitoring (Some callback) w) = timers w).
    { unfold stopMonitoring. cbn [dropCallback monitorCallbacks monitoringInterval].
      destruct (filter (fun cb => negb (Nat.eqb cb callback)) (monitorCallbacks w));
        [contradiction|]. split; reflexivity. }
    destruct Hw' as [Hint Ht]. split; [exact Hint|]. split; [exact Ht|].
    rewrite Hint. destruct (monitoringInterval w) as [handle|]; [|now elim Hrun].
    exists handle. split; [reflexivity|].
    cbn [enabled]. rewrite Ht, Htimers. cbn [existsb fst]. now rewrite Nat.eqb_refl.
Qed.

Lemma stopMonitoring_unsubscribes_witness :
  ~ In 7 (monitorCallbacks (stopMonitoring (Some 7) watched)).
Proof.
  apply (stopMonitoring_unsubscribes 7 watched).
  apply (reach_step (initialWorld (Some [shopA; shopB])) (StartMonitoring (Some 7))
           (reach_init _) eq_refl).
Defined.

(* ===================================================================== *)
(** * Further properties of the fetch aggregator                           *)
(* ===================================================================== *)

Lemma filter_none {A} (p : A -> bool) (l : list A) :
  (forall x, In x l -> p x = false) -> filter p l = [].
Proof.
  induction l as [|x l IH]; intros H; [reflexivity|].
  cbn [filter]. rewrite (H x (or_introl eq_refl)).
  apply IH. intros y Hy. apply H. now right.
Qed.

Section MergeAgain.
Context {E K : Type} (key : E -> K) (same : E -> E -> bool).
Hypothesis same_key : forall a b, same a b = true <-> key a = key b.

(** Merging the same batch a second time appends nothing. *)
Lemma mergeNew_again (prev all : list E) :
  mergeNew same (mergeNew same prev all) all = mergeNew same prev all.
Proof.
  unfold mergeNew at 1.
  rewrite filter_none; [apply app_nil_r|].
  intros n Hn. apply negb_false_iff.
  apply (existsb_same_In key same same_key).
  unfold mergeNew. rewrite map_app. apply in_or_app.
  destruct (existsb (fun e => same e n) prev) eqn:Hex.
  - left. now apply (existsb_same_In key same same_key).
  - right. apply in_map. apply filter_In. split; [assumption|]. now rewrite Hex.
Qed.

End MergeAgain.

Lemma allOrders_same_request (api : AllOrders.Api) (v v' : AllOrders.View) :
  AllOrders.servers v' = AllOrders.servers v ->
  AllOrders.selectedServers v' = AllOrders.selectedServers v ->
  AllOrders.page v' = AllOrders.page v ->
  AllOrders.searchTerm v' = AllOrders.searchTerm v ->
  AllOrders.allOrders api v' = AllOrders.allOrders api v.
Proof.
  intros Hs Hsel Hp Hq. unfold AllOrders.allOrders, AllOrders.ordersOfStore.
  now rewrite Hs, Hsel, Hp, Hq.
Qed.

Lemma allProducts_same_request (api : AllProducts.Api) (v v' : AllProducts.View) :
  AllProducts.servers v' = AllProducts.servers v ->
  AllProducts.selectedServers v' = AllProducts.selectedServers v ->
  AllProducts.page v' = AllProducts.page v ->
  AllProducts.searchTerm v' = AllProducts.searchTerm v ->
  AllProducts.allProducts api v' = AllProducts.allProducts api v.
Proof.
  intros Hs Hsel Hp Hq. unfold AllProducts.allProducts, AllProducts.productsOfStore.
  now rewrite Hs, Hsel, Hp, Hq.
Qed.

(** X17: fetching again while the stores answer the same (same page,
    same search, same selection) adds nothing: the displayed list after
    the second round is the list after the first, for orders and for
    products, also when a page repeats an id. *)
Theorem refetch_adds_nothing :
  (forall (api : AllOrders.Api) (v : AllOrders.View),
     AllOrders.fetchOrders api (AllOrders.fetchOrders api v)
     = AllOrders.fetchOrders api v) /\
  (forall (api : AllProducts.Api) (v : AllProducts.View),
     AllProducts.fetchProducts api (AllProducts.fetchProducts api v)
     = AllProducts.fetchProducts api v).
Proof.
  split; intros api v.
  - unfold AllOrders.fetchOrders at 1. cbv zeta.
    rewrite (allOrders_same_request api v (AllOrders.fetchOrders api v))
      by reflexivity.
    unfold AllOrders.fetchOrders; cbn [AllOrders.orders AllOrders.page
      AllOrders.searchTerm AllOrders.servers AllOrders.selectedServers]; cbv zeta.
    now rewrite (mergeNew_again _ _ sameOrder_key).
  - unfold AllProducts.fetchProducts at 1. cbv zeta.
    rewrite (allProducts_same_request api v (AllProducts.fetchProducts api v))
      by reflexivity.
    unfold AllProducts.fetchProducts; cbn [AllProducts.products AllProducts.page
      AllProducts.searchTerm AllProducts.servers AllProducts.selectedServers]; cbv zeta.
    now rewrite (mergeNew_again _ _ sameProduct_key).
Qed.

Lemma length_concat_le {A B} (f : A -> list B) (n : nat) (l : list A) :
  (forall x, In x l -> List.length (f x) <= n) ->
  List.length (List.concat (map f l)) <= List.length l * n.
Proof.
  induction l as [|x l IH]; intros H; [simpl; lia|].
  cbn [map List.concat List.length]. rewrite length_app.
  specialize (H x (or_introl eq_refl)) as Hx.
  specialize (IH (fun y Hy => H y (or_intror Hy))). lia.
Qed.

Lemma length_concat_full {A B} (f : A -> list B) (n : nat) (l : list A) :
  (forall x, In x l -> List.length (f x) <= n) ->
  (List.length (List.concat (map f l)) = List.length l * n <->
   forall x, In x l -> List.length (f x) = n).
Proof.
  induction l as [|x l IH]; intros H.
  - simpl. split; [intros _ y [] | reflexivity].
  - cbn [map List.concat List.length]. rewrite length_app.
    specialize (H x (or_introl eq_refl)) as Hx.
    pose proof (length_concat_le f n l (fun y Hy => H y (or_intror Hy))) as Hle.
    specialize (IH (fun y Hy => H y (or_intror Hy))).
    split.
    + intros Hsum y [<-|Hy]; [lia|]. apply IH; [lia|assumption].
    + intros Hall. rewrite (Hall x (or_introl eq_refl)).
      rewrite (proj2 IH (fun y Hy => Hall y (or_intror Hy))). lia.
Qed.

Lemma ordersOfStore_length (api : AllOrders.Api) (v : AllOrders.View) (serverId : string) :
  (forall server data,
     AllOrders.getOrders api server (AllOrders.page v) (AllOrders.searchTerm v)
       = Resolved data -> List.length data <= 20) ->
  List.length (AllOrders.ordersOfStore api v serverId) <= 20.
Proof.
  intros Hbound. unfold AllOrders.ordersOfStore.
  destruct (find _ _) as [server|]; [|simpl; lia].
  destruct (AllOrders.getOrders api server _ _) as [data|] eqn:Hdata; [|simpl; lia].
  rewrite promiseAll_notes. destruct (forallb _ data); [|simpl; lia].
  rewrite length_map. now apply (Hbound server).
Qed.

Lemma productsOfStore_length (api : AllProducts.Api) (v : AllProducts.View)
  (serverId : string) :
  (forall server data,
     api server (AllProducts.page v) (AllProducts.searchTerm v) = Resolved data ->
     List.length data <= 20) ->
  List.length (AllProducts.productsOfStore api v serverId) <= 20.
Proof.
  intros Hbound. unfold AllProducts.productsOfStore.
  destruct (find _ _) as [server|]; [|simpl; lia].
  destruct (api server _ _) as [data|] eqn:Hdata; [|simpl; lia].
  rewrite length_map. now apply (Hbound server).
Qed.

(** X18: when the stores honour [per_page=20] (no page is longer than
    20), [hasMore] is [true] exactly when every selected store
    contributed a full page of 20; a short page cannot be made up for by
    another store, and a single selected store whose request fails (or
    whose id is not in the registry) makes [hasMore] [false]. *)
Theorem hasMore_needs_every_page_full :
  (forall (api : AllOrders.Api) (v : AllOrders.View),
     (forall server data,
        AllOrders.getOrders api server (AllOrders.page v) (AllOrders.searchTerm v)
          = Resolved data -> List.length data <= 20) ->
     (AllOrders.hasMore (AllOrders.fetchOrders api v) = true <->
      forall serverId, In serverId (AllOrders.selectedServers v) ->
        List.length (AllOrders.ordersOfStore api v serverId) = 20) /\
     (forall serverId, In serverId (AllOrders.selectedServers v) ->
        AllOrders.succeeds api v serverId = false ->
        AllOrders.hasMore (AllOrders.fetchOrders api v) = false)) /\
  (forall (api : AllProducts.Api) (v : AllProducts.View),
     (forall server data,
        api server (AllProducts.page v) (AllProducts.searchTerm v) = Resolved data ->
        List.length data <= 20) ->
     (AllProducts.hasMore (AllProducts.fetchProducts api v) = true <->
      forall serverId, In serverId (AllProducts.selectedServers v) ->
        List.length (AllProducts.productsOfStore api v serverId) = 20) /\
     (forall serverId, In serverId (AllProducts.selectedServers v) ->
        AllProducts.succeeds api v serverId = false ->
        AllProducts.hasMore (AllProducts.fetchProducts api v) = false)).
Proof.
  split; intros api v Hbound.
  - assert (Hiff : AllOrders.hasMore (AllOrders.fetchOrders api v) = true <->
              forall serverId, In serverId (AllOrders.selectedServers v) ->
                List.length (AllOrders.ordersOfStore api v serverId) = 20).
    { unfold AllOrders.fetchOrders; cbn [AllOrders.hasMore]. rewrite Nat.eqb_eq.
      unfold AllOrders.allOrders. apply length_concat_full.
      intros sid _. now apply ordersOfStore_length. }
    split; [exact Hiff|].
    intros sid Hin Hfail.
    destruct (AllOrders.hasMore (AllOrders.fetchOrders api v)) eqn:Hm; [|reflexivity].
    pose proof (proj1 Hiff eq_refl sid Hin) as Hlen.
    rewrite (ordersOfStore_failed api v sid Hfail) in Hlen. discriminate Hlen.
  - assert (Hiff : AllProducts.hasMore (AllProducts.fetchProducts api v) = true <->
              forall serverId, In serverId (AllProducts.selectedServers v) ->
                List.length (AllProducts.productsOfStore api v serverId) = 20).
    { unfold AllProducts.fetchProducts; cbn [AllProducts.hasMore]. rewrite Nat.eqb_eq.
      unfold AllProducts.allProducts. apply length_concat_full.
      intros sid _. now apply productsOfStore_length. }
    split; [exact Hiff|].
    intros sid Hin Hfail.
    destruct (AllProducts.hasMore (AllProducts.fetchProducts api v)) eqn:Hm;
      [|reflexivity].
    pose proof (proj1 Hiff eq_refl sid Hin) as Hlen.
    rewrite (productsOfStore_failed api v sid Hfail) in Hlen. discriminate Hlen.
Qed.

Lemma hasMore_needs_every_page_full_witness :
  AllProducts.hasMore (AllProducts.fetchProducts onlyAProducts productsOfAB) = false.
Proof.
  apply (proj2 (proj2 hasMore_needs_every_page_full onlyAProducts productsOfAB
           ltac:(intros server data; unfold onlyAProducts;
                 destruct (String.eqb (Server.id server) "a");
                 [intros [= <-]; simpl; lia | discriminate]))
         "b"%string).
  - right. now left.
  - reflexivity.
Defined.

(** X19: a round with no store selected (a search submitted while the
    selection is empty) fetches nothing, leaves the displayed list as it
    was, and still sets [hasMore] to [true]. *)
Theorem empty_selection_round :
  (forall (api : AllOrders.Api) (v : AllOrders.View),
     AllOrders.selectedServers v = [] ->
     AllOrders.orders (AllOrders.fetchOrders api v) = AllOrders.orders v /\
     AllOrders.hasMore (AllOrders.fetchOrders api v) = true) /\
  (forall (api : AllProducts.Api) (v : AllProducts.View),
     AllProducts.selectedServers v = [] ->
     AllProducts.products (AllProducts.fetchProducts api v) = AllProducts.products v /\
     AllProducts.hasMore (AllProducts.fetchProducts api v) = true).
Proof.
  split; intros api v Hsel.
  - unfold AllOrders.fetchOrders, AllOrders.allOrders;
      cbn [AllOrders.orders AllOrders.hasMore]; cbv zeta.
    rewrite Hsel. cbn [map List.concat]. unfold mergeNew. cbn [filter].
    now rewrite app_nil_r.
  - unfold AllProducts.fetchProducts, AllProducts.allProducts;
      cbn [AllProducts.products AllProducts.hasMore]; cbv zeta.
    rewrite Hsel. cbn [map List.concat]. unfold mergeNew. cbn [filter].
    now rewrite app_nil_r.
Qed.

Lemma empty_selection_round_witness :
  AllOrders.hasMore
    (AllOrders.fetchOrders onlyAOrders
       (AllOrders.mkView [] false None 1 false "" [shopA; shopB] [])) = true.
Proof.
  apply (proj1 empty_selection_round onlyAOrders
           (AllOrders.mkView [] false None 1 false "" [shopA; shopB] []) eq_refl).
Defined.

(** X20: orders are all-or-nothing per store: when the notes request of
    a single order of the page is rejected, the store contributes no order
    at all to the round, although its page of orders was received. *)
Theorem one_failed_note_drops_the_store (api : AllOrders.Api) (v : AllOrders.View)
  (serverId : string) (server : WooCommerceServer) (data : list Order.t)
  (order : Order.t) :
  find (fun s => String.eqb (Server.id s) serverId) (AllOrders.servers v) = Some server ->
  AllOrders.getOrders api server (AllOrders.page v) (AllOrders.searchTerm v)
    = Resolved data ->
  In order data ->
  AllOrders.getNotes api server (Order.id order) = Rejected ->
  AllOrders.ordersOfStore api v serverId = [].
Proof.
  intros Hfind Hdata Hin Hnotes. apply ordersOfStore_failed.
  unfold AllOrders.succeeds. rewrite Hfind, Hdata.
  destruct (forallb _ data) eqn:Hall; [|reflexivity].
  rewrite forallb_forall in Hall. specialize (Hall order Hin).
  rewrite Hnotes in Hall. discriminate Hall.
Qed.

Lemma one_failed_note_drops_the_store_witness :
  AllOrders.ordersOfStore notesOfThreeFail ordersOfA "a" = [].
Proof.
  apply (one_failed_note_drops_the_store notesOfThreeFail ordersOfA "a"%string
           shopA (pageOf remoteOrder 1 3) (remoteOrder 3));
    try reflexivity.
  right. right. now left.
Defined.

(** X21: every entity of a fetched batch is annotated with a store of
    the registry copy the component holds, and that store is one of the
    selected ones: orders carry its id and name, products its id, name
    and url. *)
Theorem fetched_entities_carry_their_store :
  (forall (api : AllOrders.Api) (v : AllOrders.View) (o : Order.t),
     In o (AllOrders.allOrders api v) ->
     exists server,
       In server (AllOrders.servers v) /\
       In (Server.id server) (AllOrders.selectedServers v) /\
       Order.store o = Some (OrderStore.mk (Server.id server) (Server.name server))) /\
  (forall (api : AllProducts.Api) (v : AllProducts.View) (p : Product.t),
     In p (AllProducts.allProducts api v) ->
     exists server,
       In server (AllProducts.servers v) /\
       In (Server.id server) (AllProducts.selectedServers v) /\
       Product.store p
       = Some (ProductStore.mk (Server.id server) (Server.name server)
                               (Server.url server))).
Proof.
  split.
  - intros api v o Hin. unfold AllOrders.allOrders in Hin.
    apply in_concat in Hin. destruct Hin as (os & Hos & Ho).
    apply in_map_iff in Hos. destruct Hos as (sid & <- & Hsid).
    unfold AllOrders.ordersOfStore in Ho.
    destruct (find _ _) as [server|] eqn:Hfind; [|contradiction].
    apply find_some in Hfind. destruct Hfind as [Hserver Hid].
    apply String.eqb_eq in Hid.
    destruct (AllOrders.getOrders api server _ _) as [data|]; [|contradiction].
    rewrite promiseAll_notes in Ho. destruct (forallb _ data); [|contradiction].
    apply in_map_iff in Ho. destruct Ho as (raw & <- & _).
    exists server. split; [assumption|]. split; [now rewrite Hid | reflexivity].
  - intros api v p Hin. unfold AllProducts.allProducts in Hin.
    apply in_concat in Hin. destruct Hin as (ps & Hps & Hp).
    apply in_map_iff in Hps. destruct Hps as (sid & <- & Hsid).
    unfold AllProducts.productsOfStore in Hp.
    destruct (find _ _) as [server|] eqn:Hfind; [|contradiction].
    apply find_some in Hfind. destruct Hfind as [Hserver Hid].
    apply String.eqb_eq in Hid.
    destruct (api server _ _) as [data|]; [|contradiction].
    apply in_map_iff in Hp. destruct Hp as (raw & <- & _).
    exists server. split; [assumption|]. split; [now rewrite Hid | reflexivity].
Qed.

Lemma fetched_entities_carry_their_store_witness :
  exists server,
    In server (AllOrders.servers ordersOfAB) /\
    In (Server.id server) (AllOrders.selectedServers ordersOfAB) /\
    Order.store (AllOrders.withNotes shopA (remoteOrder 1) [])
    = Some (OrderStore.mk (Server.id server) (Server.name server)).
Proof.
  apply (proj1 fetched_entities_carry_their_store onlyAOrders ordersOfAB).
  now left.
Defined.

(* ===================================================================== *)
(** * Coupons                                                              *)
(* ===================================================================== *)

Lemma couponsOfStore_failed (api : Coupons.Api) (v : Coupons.View) (serverId : string) :
  Coupons.succeeds api v serverId = false ->
  Coupons.couponsOfStore api v serverId = [].
Proof.
  unfold Coupons.succeeds, Coupons.couponsOfStore.
  destruct (find _ _) as [server|]; [|reflexivity].
  destruct (api server _) as [data|]; [discriminate|reflexivity].
Qed.

(** X22: [fetchCoupons] tolerates failing stores the way the other
    lists do (a failing store contributes nothing, [error] stays unset,
    [loading] is cleared), but it replaces the displayed coupons instead
    of merging: the new list is the concatenation of the pages of the
    succeeding stores, each coupon annotated with its store, whatever was
    displayed before; nothing is deduplicated, the list is as long as
    those pages together. *)
Theorem fetchCoupons_replaces (api : Coupons.Api) (v : Coupons.View) :
  let succeeded := filter (Coupons.succeeds api v) (Coupons.selectedServers v) in
  (forall serverId, Coupons.succeeds api v serverId = false ->
     Coupons.couponsOfStore api v serverId = []) /\
  (forall serverId server data,
     find (fun s => String.eqb (Server.id s) serverId) (Coupons.servers v) = Some server ->
     api server (Coupons.searchTerm v) = Resolved data ->
     Coupons.couponsOfStore api v serverId = map (Coupons.withStore server) data) /\
  Coupons.coupons (Coupons.fetchCoupons api v)
  = List.concat (map (Coupons.couponsOfStore api v) succeeded) /\
  List.length (Coupons.coupons (Coupons.fetchCoupons api v))
  = list_sum (map (fun serverId => List.length (Coupons.couponsOfStore api v serverId))
                  succeeded) /\
  Coupons.error (Coupons.fetchCoupons api v) = None /\
  Coupons.loading (Coupons.fetchCoupons api v) = false /\
  (forall shown,
     Coupons.coupons
       (Coupons.fetchCoupons api
          (Coupons.mkView shown (Coupons.loading v) (Coupons.error v)
             (Coupons.searchTerm v) (Coupons.servers v) (Coupons.selectedServers v)))
     = Coupons.coupons (Coupons.fetchCoupons api v)).
Proof.
  cbv zeta.
  assert (Hall : Coupons.coupons (Coupons.fetchCoupons api v)
                 = List.concat (map (Coupons.couponsOfStore api v)
                     (filter (Coupons.succeeds api v) (Coupons.selectedServers v)))).
  { unfold Coupons.fetchCoupons; cbn [Coupons.coupons].
    apply concat_map_filter. apply couponsOfStore_failed. }
  split; [apply couponsOfStore_failed|]. split.
  { intros serverId server data Hfind Hdata.
    unfold Coupons.couponsOfStore. now rewrite Hfind, Hdata. }
  split; [exact Hall|]. split.
  { rewrite Hall. generalize (filter (Coupons.succeeds api v) (Coupons.selectedServers v)).
    intros l. induction l as [|x l IH]; [reflexivity|].
    cbn [map List.concat list_sum]. now rewrite length_app, IH. }
  repeat split.
Qed.

Lemma fetchCoupons_replaces_witness :
  Coupons.coupons (Coupons.fetchCoupons onlyACoupons couponsOfAB)
  = map (Coupons.withStore shopA) (pageOf remoteCoupon 1 2).
Proof.
  pose proof (fetchCoupons_replaces onlyACoupons couponsOfAB) as H.
  cbv zeta in H. destruct H as (_ & _ & H & _). rewrite H. reflexivity.
Defined.

(* ===================================================================== *)
(** * Creating a coupon                                                    *)
(* ===================================================================== *)

(** X23: [handleSubmit] always ends with [loading] cleared and leaves the
    form data and the selected store alone; it sends at most one POST, to
    the registered store whose id is selected, and none when no store has
    that id (then the error is 'Please select a store');
    [onCouponCreated] is called exactly when the POST was answered with a
    truthy body, and the error is unset exactly when the POST resolved. *)
Theorem handleSubmit_outcomes (servers : list WooCommerceServer)
  (post : WooCommerceServer -> CreateCouponModal.CouponData -> CreateCouponModal.PostReply)
  (m : CreateCouponModal.Modal) :
  let m' := fst (CreateCouponModal.handleSubmit servers post m) in
  let events := snd (CreateCouponModal.handleSubmit servers post m) in
  let found := find (fun s => String.eqb (Server.id s) (CreateCouponModal.selectedServer m))
                    servers in
  CreateCouponModal.loading m' = false /\
  CreateCouponModal.couponData m' = CreateCouponModal.couponData m /\
  CreateCouponModal.selectedServer m' = CreateCouponModal.selectedServer m /\
  (found = None ->
   events = [] /\
   CreateCouponModal.error m' = Some "Please select a store"%string) /\
  (forall server, found = Some server ->
     In server servers /\
     Server.id server = CreateCouponModal.selectedServer m /\
     exists rest,
       events = CreateCouponModal.Posted server (CreateCouponModal.couponData m) :: rest /\
       (rest = [] \/ rest = [CreateCouponModal.CouponCreated])) /\
  (In CreateCouponModal.CouponCreated events <->
   exists server,
     found = Some server /\
     post server (CreateCouponModal.couponData m) = CreateCouponModal.PostResolved true) /\
  (CreateCouponModal.error m' = None <->
   exists server hasData,
     found = Some server /\
     post server (CreateCouponModal.couponData m)
     = CreateCouponModal.PostResolved hasData).
Proof.
  cbv zeta. unfold CreateCouponModal.handleSubmit.
  destruct (find (fun s => String.eqb (Server.id s) (CreateCouponModal.selectedServer m))
                 servers) as [server|] eqn:Hfind.
  - apply find_some in Hfind. destruct Hfind as [Hin Hid]. apply String.eqb_eq in Hid.
    destruct (post server (CreateCouponModal.couponData m)) as [hasData|e] eqn:Hpost;
      cbn [fst snd CreateCouponModal.loading CreateCouponModal.couponData
           CreateCouponModal.selectedServer CreateCouponModal.error].
    + do 3 (split; [reflexivity|]).
      split; [discriminate|]. split; [|split].
      * intros s Hs. injection Hs as <-. split; [assumption|]. split; [assumption|].
        eexists. split; [reflexivity|]. destruct hasData; auto.
      * split.
        -- intros [H|H]; [discriminate|]. destruct hasData; [|contradiction].
           exists server. now split.
        -- intros (s & Hs & Hp). injection Hs as <-. rewrite Hpost in Hp.
           injection Hp as ->. right. now left.
      * split; [|reflexivity]. intros _. exists server, hasData. now split.
    + do 3 (split; [reflexivity|]).
      split; [discriminate|]. split; [|split].
      * intros s Hs. injection Hs as <-. split; [assumption|]. split; [assumption|].
        eexists. split; [reflexivity|]. now left.
      * split.
        -- intros [H|[]]. discriminate.
        -- intros (s & Hs & Hp). injection Hs as <-. rewrite Hpost in Hp. discriminate.
      * split; [discriminate|].
        intros (s & hasData & Hs & Hp). injection Hs as <-.
        rewrite Hpost in Hp. discriminate.
  - cbn [fst snd CreateCouponModal.loading CreateCouponModal.couponData
         CreateCouponModal.selectedServer CreateCouponModal.error
         CreateCouponModal.submitError].
    do 3 (split; [reflexivity|]).
    split; [intros _; split; reflexivity|]. split; [discriminate|]. split.
    + split; [intros []|]. intros (s & Hs & _). discriminate.
    + split; [discriminate|]. intros (s & hasData & Hs & _). discriminate.
Qed.

Lemma handleSubmit_outcomes_witness :
  snd (CreateCouponModal.handleSubmit [] (fun _ _ => CreateCouponModal.PostResolved true)
         (openedModal [] springCoupon)) = [] /\
  CreateCouponModal.error
    (fst (CreateCouponModal.handleSubmit [] (fun _ _ => CreateCouponModal.PostResolved true)
            (openedModal [] springCoupon)))
  = Some "Please select a store"%string.
Proof.
  pose proof (handleSubmit_outcomes [] (fun _ _ => CreateCouponModal.PostResolved true)
                (openedModal [] springCoupon)) as H.
  cbv zeta in H. destruct H as (_ & _ & _ & H & _). exact (H eq_refl).
Defined.

(** X24: a modal submitted as it opened sends the coupon to the first
    store of the list it was given; over an empty list it sends nothing
    and reports 'Please select a store'. *)
Theorem opened_modal_targets_first_store
  (post : WooCommerceServer -> CreateCouponModal.CouponData -> CreateCouponModal.PostReply)
  (data : CreateCouponModal.CouponData) :
  (forall first others,
     exists rest,
       snd (CreateCouponModal.handleSubmit (first :: others) post
              (openedModal (first :: others) data))
       = CreateCouponModal.Posted first data :: rest) /\
  snd (CreateCouponModal.handleSubmit [] post (openedModal [] data)) = [] /\
  CreateCouponModal.error
    (fst (CreateCouponModal.handleSubmit [] post (openedModal [] data)))
  = Some "Please select a store"%string.
Proof.
  split; [|split; reflexivity].
  intros first others. unfold CreateCouponModal.handleSubmit, openedModal.
  cbn [CreateCouponModal.selectedServer CreateCouponModal.initialSelectedServer
       CreateCouponModal.couponData find].
  rewrite String.eqb_refl.
  destruct (post first data); cbn [snd]; eexists; reflexivity.
Qed.

Lemma beforeT_appended (value : string) :
  includes value "T" = false ->
  CreateCouponModal.beforeT (String.append value "T23:59:59") = value.
Proof.
  induction value as [|c value IH]; intros H; [reflexivity|].
  cbn [includes String.prefix] in H.
  apply orb_false_iff in H. destruct H as [Hc Hrest].
  cbn [String.append CreateCouponModal.beforeT].
  destruct (Ascii.ascii_dec "T"%char c) as [<-|Hne].
  - exfalso. cbn in Hc. destruct value; discriminate Hc.
  - assert (Hneq : Ascii.eqb c "T" = false).
    { apply Ascii.eqb_neq. congruence. }
    rewrite Hneq. now rewrite IH.
Qed.

(** X25: the expiry date survives the form: when the value the date
    input hands over contains no 'T' (a date input gives [YYYY-MM-DD] or
    the empty string), the value the input is then given to display is the
    same value; what is stored for a non-empty value is the end of that
    day, and nothing for the empty value. *)
Theorem expiry_round_trip (value : string) :
  includes value "T" = false ->
  CreateCouponModal.expiryShown (CreateCouponModal.expiryOfInput value) = value /\
  (value <> ""%string ->
   CreateCouponModal.expiryOfInput value = Some (String.append value "T23:59:59")) /\
  (value = ""%string -> CreateCouponModal.expiryOfInput value = None).
Proof.
  intros HnoT. unfold CreateCouponModal.expiryOfInput.
  destruct (String.eqb_spec value "") as [->|Hne].
  - repeat split. intros H; now elim H.
  - cbn [CreateCouponModal.expiryShown]. rewrite beforeT_appended by assumption.
    repeat split. intros H; contradiction.
Qed.

Lemma expiry_round_trip_witness :
  CreateCouponModal.expiryShown (CreateCouponModal.expiryOfInput "2025-03-31")
  = "2025-03-31"%string.
Proof.
  apply (proj1 (expiry_round_trip "2025-03-31"%string eq_refl)).
Defined.

(* ===================================================================== *)
(** * Product details                                                      *)
(* ===================================================================== *)

Lemma dropTrailingSlash_appended (u : string) :
  ProductDetails.dropTrailingSlash (String.append u "/") = u.
Proof.
  induction u as [|c u IH]; [reflexivity|].
  cbn [String.append]. cbn [ProductDetails.dropTrailingSlash].
  destruct (String.append u "/") as [|c' rest] eqn:Happ.
  - destruct u; discriminate Happ.
  - now rewrite IH.
Qed.

Lemma dropTrailingSlash_without (u : string) :
  (forall u', u <> String.append u' "/") ->
  ProductDetails.dropTrailingSlash u = u.
Proof.
  induction u as [|c u IH]; intros H; [reflexivity|].
  cbn [ProductDetails.dropTrailingSlash]. destruct u as [|c' rest].
  - destruct (Ascii.eqb_spec c "/"%char) as [->|Hne]; [|reflexivity].
    exfalso. apply (H EmptyString). reflexivity.
  - rewrite IH; [reflexivity|].
    intros u' Hu'. apply (H (String c u')). cbn [String.append]. now rewrite Hu'.
Qed.

Lemma dropLeadingSlash_without (p : string) :
  String.prefix "/" p = false -> ProductDetails.dropLeadingSlash p = p.
Proof.
  destruct p as [|c p]; [reflexivity|]. cbn [String.prefix ProductDetails.dropLeadingSlash].
  destruct (Ascii.ascii_dec "/"%char c) as [<-|Hne].
  - destruct p; discriminate.
  - intros _. assert (H : Ascii.eqb c "/" = false) by (apply Ascii.eqb_neq; congruence).
    now rewrite H.
Qed.

Lemma truthy_true (s : string) : ProductDetails.truthy s = true <-> s <> ""%string.
Proof.
  unfold ProductDetails.truthy. rewrite negb_true_iff. apply String.eqb_neq.
Qed.

(** X26: [getProductUrl] gives no link exactly when the product has no
    store, an empty permalink or a store with an empty url; a permalink
    that starts with 'http' is returned as it is; any other permalink is
    joined to the store url with exactly one slash, whether or not the url
    ends with a slash and the permalink starts with one. *)
Theorem getProductUrl_cases (product : Product.t) :
  (ProductDetails.getProductUrl product = None <->
   Product.store product = None \/
   Product.permalink product = ""%string \/
   exists store, Product.store product = Some store /\
                 ProductStore.url store = ""%string) /\
  (forall store,
     Product.store product = Some store -> ProductStore.url store <> ""%string ->
     String.prefix "http" (Product.permalink product) = true ->
     ProductDetails.getProductUrl product = Some (Product.permalink product)) /\
  (forall store u p,
     Product.store product = Some store ->
     (ProductStore.url store = u \/ ProductStore.url store = String.append u "/") ->
     (Product.permalink product = p \/ Product.permalink product = String.append "/" p) ->
     u <> ""%string -> (forall u', u <> String.append u' "/") ->
     p <> ""%string -> String.prefix "/" p = false -> String.prefix "http" p = false ->
     ProductDetails.getProductUrl product
     = Some (String.append u (String.append "/" p))).
Proof.
  unfold ProductDetails.getProductUrl. split; [|split].
  - destruct (Product.store product) as [store|].
    + destruct (ProductDetails.truthy (Product.permalink product)) eqn:Hp;
        destruct (ProductDetails.truthy (ProductStore.url store)) eqn:Hu; cbn [andb].
      * apply truthy_true in Hp. apply truthy_true in Hu.
        split; [discriminate|].
        intros [H|[H|(s & Hs & Hs')]]; [discriminate|contradiction|].
        injection Hs as <-. contradiction.
      * split; [|reflexivity]. intros _. right. right. exists store. split; [reflexivity|].
        unfold ProductDetails.truthy in Hu. apply negb_false_iff in Hu.
        now apply String.eqb_eq.
      * split; [|reflexivity]. intros _. right. left.
        unfold ProductDetails.truthy in Hp. apply negb_false_iff in Hp.
        now apply String.eqb_eq.
      * split; [|reflexivity]. intros _. right. left.
        unfold ProductDetails.truthy in Hp. apply negb_false_iff in Hp.
        now apply String.eqb_eq.
    + split; [|reflexivity]. intros _. now left.
  - intros store Hstore Hurl Hhttp. rewrite Hstore, Hhttp.
    apply truthy_true in Hurl. rewrite Hurl, andb_true_r.
    assert (Hp : ProductDetails.truthy (Product.permalink product) = true).
    { apply truthy_true. intros Heq. rewrite Heq in Hhttp. discriminate Hhttp. }
    now rewrite Hp.
  - intros store u p Hstore Hurl Hperm Hu Hslash Hp Hlead Hhttp. rewrite Hstore.
    assert (Hdrop : ProductDetails.dropTrailingSlash (ProductStore.url store) = u).
    { destruct Hurl as [->| ->];
        [now apply dropTrailingSlash_without | apply dropTrailingSlash_appended]. }
    assert (Hut : ProductDetails.truthy (ProductStore.url store) = true).
    { apply truthy_true. destruct Hurl as [->| ->]; [assumption|].
      destruct u; [now elim Hu | discriminate]. }
    rewrite Hut, Hdrop, andb_true_r.
    destruct Hperm as [->| ->].
    + apply truthy_true in Hp. rewrite Hp, Hhttp.
      now rewrite dropLeadingSlash_without.
    + reflexivity.
Qed.

Lemma getProductUrl_cases_witness :
  ProductDetails.getProductUrl (mugOf "/product/mug" "https://a.example/")
  = Some "https://a.example/product/mug"%string.
Proof.
  apply (proj2 (proj2 (getProductUrl_cases (mugOf "/product/mug" "https://a.example/")))
           (ProductStore.mk "a" "Shop A" "https://a.example/")
           "https://a.example"%string "product/mug"%string eq_refl
           (or_intror eq_refl) (or_intror eq_refl)); try reflexivity; try discriminate.
  intros u' Hu'.
  pose proof (f_equal ProductDetails.dropTrailingSlash Hu') as H.
  rewrite dropTrailingSlash_appended in H. cbn in H. subst u'.
  cbn in Hu'. discriminate Hu'.
Defined.

(** X27: the price shown in the details is the sale price whenever one is
    set, and the regular price otherwise; the regular price is struck
    through next to it only when it differs from a sale price that is
    set. *)
Theorem shownPrice_prefers_sale (product : Product.t) :
  (Product.sale_price product <> ""%string ->
   ProductDetails.shownPrice product = Product.sale_price product) /\
  (Product.sale_price product = ""%string ->
   ProductDetails.shownPrice product = Product.regular_price product /\
   ProductDetails.isOnSale product = false) /\
  (ProductDetails.isOnSale product = true ->
   ProductDetails.shownPrice product <> Product.regular_price product).
Proof.
  unfold ProductDetails.shownPrice, ProductDetails.isOnSale, ProductDetails.truthy.
  destruct (String.eqb_spec (Product.sale_price product) "") as [He|Hne];
    destruct (String.eqb_spec (Product.sale_price product)
                              (Product.regular_price product)) as [Hr|Hr];
    cbn [negb andb]; repeat split; try congruence; try discriminate.
Qed.

Lemma shownPrice_prefers_sale_witness :
  ProductDetails.shownPrice
    (Product.mk 1 "Mug" "8.00" "10.00" "8.00" "publish" "instock" "" "" "MUG" "" [] []
                None None) = "8.00"%string.
Proof.
  apply (proj1 (shownPrice_prefers_sale
    (Product.mk 1 "Mug" "8.00" "10.00" "8.00" "publish" "instock" "" "" "MUG" "" [] []
                None None))).
  discriminate.
Defined.

(* ===================================================================== *)
(** * Selection and sort controls                                          *)
(* ===================================================================== *)

(** X28: the selection a list component starts with holds the id of
    every active server (and of the online stores that are switched off
    as well), every id in it is the id of a record of the registry, so
    that the first round finds a store for each, and it repeats no id when
    the registry repeats none. *)
Theorem initial_selection_sound (w : World) :
  (forall s, In s (getActiveServers w) ->
             In (Server.id s) (initialSelection (getServers w))) /\
  (forall serverId, In serverId (initialSelection (getServers w)) ->
     exists server,
       find (fun s => String.eqb (Server.id s) serverId) (getServers w) = Some server /\
       Server.id server = serverId) /\
  (NoDup (map Server.id (getServers w)) -> NoDup (initialSelection (getServers w))).
Proof.
  unfold initialSelection, getActiveServers. split; [|split].
  - intros s Hs. apply filter_In in Hs. destruct Hs as [Hin Hs].
    apply andb_true_iff in Hs. destruct Hs as [_ Hon].
    apply in_map. apply filter_In. now split.
  - intros sid Hsid. apply in_map_iff in Hsid. destruct Hsid as (s & <- & Hs).
    apply filter_In in Hs. destruct Hs as [Hin _].
    destruct (find (fun s0 => String.eqb (Server.id s0) (Server.id s)) (getServers w))
      as [server|] eqn:Hfind.
    + exists server. split; [reflexivity|].
      apply find_some in Hfind. now apply String.eqb_eq.
    + exfalso. pose proof (find_none _ _ Hfind s Hin) as Hnone.
      cbv beta in Hnone. now rewrite String.eqb_refl in Hnone.
  - apply NoDup_map_filter_ids.
Qed.

Lemma initial_selection_sound_witness :
  NoDup (initialSelection (getServers twoShops)).
Proof.
  apply (proj2 (proj2 (initial_selection_sound twoShops))).
  repeat constructor; simpl; intuition discriminate.
Defined.

(** X29: ticking a store's checkbox flips the membership of that store
    and of no other: afterwards the id is selected exactly when it was not
    before, every other id is selected exactly when it was; and a
    selection without repetition stays without repetition. *)
Theorem checkbox_flips_one_store (selectedServers : list string) (serverId : string) :
  (In serverId (handleCheckboxChange selectedServers serverId) <->
   ~ In serverId selectedServers) /\
  (forall other, other <> serverId ->
     (In other (handleCheckboxChange selectedServers serverId) <->
      In other selectedServers)) /\
  (NoDup selectedServers -> NoDup (handleCheckboxChange selectedServers serverId)).
Proof.
  assert (Hmem : existsb (String.eqb serverId) selectedServers = true <->
                 In serverId selectedServers).
  { rewrite existsb_exists. split.
    - intros (x & Hx & Heq). apply String.eqb_eq in Heq. now subst.
    - intros H. exists serverId. split; [assumption | apply String.eqb_refl]. }
  split; [|split; [|apply handleCheckboxChange_NoDup]].
  - unfold handleCheckboxChange.
    destruct (existsb (String.eqb serverId) selectedServers) eqn:Hex.
    + rewrite filter_In, String.eqb_refl. cbn [negb].
      split; [intros [_ H]; discriminate H|].
      intros Hnot. exfalso. apply Hnot. now apply Hmem.
    + rewrite in_app_iff. split.
      * intros _ Hin. apply Hmem in Hin. congruence.
      * intros _. right. now left.
  - intros other Hne. unfold handleCheckboxChange.
    destruct (existsb (String.eqb serverId) selectedServers).
    + rewrite filter_In, negb_true_iff, String.eqb_neq. tauto.
    + rewrite in_app_iff. cbn [In]. split; [|tauto].
      intros [H|[H|[]]]; [assumption|]. congruence.
Qed.

Lemma checkbox_flips_one_store_witness :
  In "b"%string (handleCheckboxChange ["a"; "b"; "c"]%string "a") /\
  NoDup (handleCheckboxChange ["a"; "b"; "c"]%string "a").
Proof.
  split.
  - apply (proj1 (proj2 (checkbox_flips_one_store ["a"; "b"; "c"]%string "a"%string))
             "b"%string); [discriminate|]. right. now left.
  - apply (proj2 (proj2 (checkbox_flips_one_store ["a"; "b"; "c"]%string "a"%string))).
    repeat constructor; simpl; intuition discriminate.
Defined.

(** X30: clicking a sort button always makes its field the sort field;
    clicking the button of the current field twice restores the direction,
    while switching to the other field starts from a fixed direction:
    descending for orders, ascending for products. *)
Theorem handleSort_toggles :
  (forall field st,
     fst (OrderSort.handleSort field st) = field /\
     (fst st = field ->
      OrderSort.handleSort field (OrderSort.handleSort field st) = st) /\
     (fst st <> field -> snd (OrderSort.handleSort field st) = desc)) /\
  (forall field st,
     fst (ProductSort.handleSort field st) = field /\
     (fst st = field ->
      ProductSort.handleSort field (ProductSort.handleSort field st) = st) /\
     (fst st <> field -> snd (ProductSort.handleSort field st) = asc)).
Proof.
  split; intros field [sortField sortDirection]; cbn [fst snd].
  - destruct field, sortField, sortDirection; cbn; repeat split; congruence.
  - destruct field, sortField, sortDirection; cbn; repeat split; congruence.
Qed.

Lemma handleSort_toggles_witness :
  OrderSort.handleSort OrderSort.id
    (OrderSort.handleSort OrderSort.id (OrderSort.id, desc)) = (OrderSort.id, desc).
Proof.
  apply (proj1 (proj2 (proj1 handleSort_toggles OrderSort.id (OrderSort.id, desc)))).
  reflexivity.
Defined.
